(** * GENESIS generation pipeline (generation_master.py): a shallow embedding

    The development follows the source file layer by layer:
    - the Python run-time notions the source leans on (exceptions, [print],
      IEEE doubles, [int()], [round(x, 4)], string formatting, SHA-256);
    - Layer 0: [derive_layer_seed], [GenerationConfig];
    - the xorshift64 generator [SeededRNG];
    - Layers 1 to 5 and [run_pipeline];
    - the properties of the specification, one theorem per claim.

    Python [int] is [Z], Python [float] is the kernel's binary64 [float],
    a mutated object ([SeededRNG], the lists a loop appends to) is passed
    explicitly, an exception is the [Raise] branch of [res], and standard
    output is a state every [print] appends to. *)

From Stdlib Require Import ZArith List String Ascii Bool Lia Floats DecimalString.
From Stdlib Require Import Relations.
Import ListNotations.

Set Warnings "-inexact-float".

Open Scope Z_scope.

(* ------------------------------------------------------------------ *)
(** * Python run-time model *)
(* ------------------------------------------------------------------ *)

(** ** Exceptions *)

Inductive exn : Type :=
| OverflowError
| ValueError
| IndexError
| KeyError.

Inductive res (A : Type) : Type :=
| Ok (a : A)
| Raise (e : exn).

Arguments Ok {A} a.
Arguments Raise {A} e.

Definition res_bind {A B} (r : res A) (k : A -> res B) : res B :=
  match r with
  | Ok a => k a
  | Raise e => Raise e
  end.

Declare Scope res_scope.
Delimit Scope res_scope with res.
Notation "x <- c ;; k" := (res_bind c (fun x => k))
  (at level 61, c at next level, right associativity) : res_scope.
Notation "' p <- c ;; k" := (res_bind c (fun p => k))
  (at level 61, p pattern, c at next level, right associativity) : res_scope.

(** A [for] loop whose body may raise: the first exception ends the loop. *)
Fixpoint for_res {A S} (xs : list A) (body : S -> A -> res S) (s : S) : res S :=
  match xs with
  | [] => Ok s
  | x :: xs' =>
      match body s x with
      | Ok s' => for_res xs' body s'
      | Raise e => Raise e
      end
  end.

(** [range(n)] for a Python integer [n]. *)
Definition range (n : Z) : list Z := map Z.of_nat (seq 0 (Z.to_nat n)).

(** [range(0, stop, step)] with a positive step. *)
Definition range_step (stop step : Z) : list Z :=
  map (fun k => Z.of_nat k * step) (seq 0 (Z.to_nat ((stop + step - 1) / step))).

(** [xs[i]] for a non-negative position: [IndexError] past the end. *)
Definition index {A} (xs : list A) (i : nat) : res A :=
  match nth_error xs i with
  | Some a => Ok a
  | None => Raise IndexError
  end.

(** [xs[i] = v] for an existing position. *)
Fixpoint list_set {A} (xs : list A) (i : nat) (v : A) : list A :=
  match xs, i with
  | [], _ => []
  | _ :: t, O => v :: t
  | h :: t, S i' => h :: list_set t i' v
  end.

(** ** Standard output

    A printed line is kept as the pieces of its f-string: the literal text
    and the interpolated values, unformatted. *)

Inductive frag : Type :=
| Lit (s : string)
| PInt (z : Z)
| PFloat (f : float)
| PStr (s : string)
| PTriple (c : Z * Z * Z)
| PSeeds (kv : list (Z * Z)).

Definition line : Type := list frag.
Definition World : Type := list line.

(** A computation that prints: it maps the output so far to its outcome and
    the output afterwards (what was printed before an exception stays). *)
Definition Py (A : Type) : Type := World -> res A * World.

Definition ret {A} (a : A) : Py A := fun w => (Ok a, w).

Definition bind {A B} (c : Py A) (k : A -> Py B) : Py B :=
  fun w =>
    match c w with
    | (Ok a, w') => k a w'
    | (Raise e, w') => (Raise e, w')
    end.

Definition lift {A} (r : res A) : Py A := fun w => (r, w).

Definition print (l : line) : Py unit := fun w => (Ok tt, w ++ [l]).

Declare Scope py_scope.
Delimit Scope py_scope with py.
Notation "x <- c ;; k" := (bind c (fun x => k))
  (at level 61, c at next level, right associativity) : py_scope.
Notation "' p <- c ;; k" := (bind c (fun p => k))
  (at level 61, p pattern, c at next level, right associativity) : py_scope.
Notation "c ;;; k" := (bind c (fun _ => k))
  (at level 61, right associativity) : py_scope.

(** What a call hands back to its caller: the value or the exception. *)
Definition outcome {A} (r : res A * World) : res A := fst r.

(** ** Floats *)

Module PyFloat.

Definition is_finite (x : float) : bool :=
  negb (is_nan x) && negb (is_infinity x).

(** Python [int] to [float]: nearest double, ties to even;
    [OverflowError] when the integer is beyond the doubles. *)
Definition of_int_unchecked (z : Z) : float :=
  SF2Prim (binary_normalize prec emax z 0 false).

Definition of_int (z : Z) : res float :=
  let f := of_int_unchecked z in
  if is_infinity f then Raise OverflowError else Ok f.

(** A literal or a small integer used as a float ([|z| <= 2^53]: exact). *)
Definition lit (z : Z) : float := of_int_unchecked z.

(** [int(x)]: truncation toward zero; [OverflowError] on an infinity and
    [ValueError] on a NaN. *)
Definition to_int (x : float) : res Z :=
  match Prim2SF x with
  | S754_zero _ => Ok 0
  | S754_infinity _ => Raise OverflowError
  | S754_nan => Raise ValueError
  | S754_finite s m e =>
      let a := match e with
               | Zneg p => Z.shiftr (Zpos m) (Zpos p)
               | _ => Z.shiftl (Zpos m) e
               end in
      Ok (if s then - a else a)
  end.

(** [a / b] on two Python integers that convert to doubles exactly (every
    true division of integers in the source has operands below [2^53]):
    the quotient of the two doubles. *)
Definition int_truediv (a b : Z) : float := (lit a / lit b)%float.

(** [max(a, b)] and [min(a, b)] as the builtins compute them: the first
    argument is kept unless the second compares strictly larger
    (smaller), so a NaN second argument is dropped. *)
Definition py_max (a b : float) : float := if (a <? b)%float then b else a.
Definition py_min (a b : float) : float := if (b <? a)%float then b else a.

(** Nearest integer to [m * 2^e] for [m >= 0], ties to even. *)
Definition round_half_even (m e : Z) : Z :=
  match e with
  | Zneg p =>
      let d := Z.shiftl 1 (Zpos p) in
      let q := m / d in
      let r := m mod d in
      match Z.compare (2 * r) d with
      | Lt => q
      | Gt => q + 1
      | Eq => if Z.even q then q else q + 1
      end
  | _ => Z.shiftl m e
  end.

(** [round(x, 4)]: CPython rounds the exact binary value to four
    decimals (ties to even) and returns the double nearest to that
    decimal; zeros, infinities and NaN are returned unchanged. *)
Definition round4 (x : float) : float :=
  match Prim2SF x with
  | S754_finite s m e =>
      if 0 <=? e then x
      else
        match round_half_even (Zpos m * 10000) e with
        | Zpos k =>
            SF2Prim (SFdiv prec emax (S754_finite s k 0)
                                     (S754_finite false 10000 0))
        | _ => SF2Prim (S754_zero s)
        end
  | _ => x
  end.

(** [math.sqrt]: [ValueError] on a negative argument. *)
Definition math_sqrt (x : float) : res float :=
  if (x <? 0)%float then Raise ValueError else Ok (sqrt x).

Definition pi : float := 0x1.921fb54442d18p+1%float.

End PyFloat.

(** The platform's C library, for the three functions the source calls
    through [math] and through [**]: their values are whatever the
    platform computes. *)
Class Libm : Type := {
  libm_cos : float -> float;
  libm_sin : float -> float;
  libm_pow : float -> float -> float
}.

Section WithLibm.
Context {L : Libm}.

(** [math.cos] and [math.sin] raise [ValueError] on an infinite
    argument and otherwise return the library's value. *)
Definition math_cos (x : float) : res float :=
  if is_infinity x then Raise ValueError else Ok (libm_cos x).
Definition math_sin (x : float) : res float :=
  if is_infinity x then Raise ValueError else Ok (libm_sin x).

(** [x ** 2] on a float, after CPython's [float_pow]: the special values
    are settled before the library is called, and a library result that
    overflows raises [OverflowError]. *)
Definition float_pow2 (x : float) : res float :=
  if is_nan x then Ok x
  else if is_infinity x then Ok (abs x)
  else if (x =? 0)%float then Ok 0%float
  else
    let a := abs x in
    if (a =? 1)%float then Ok 1%float
    else
      let r := libm_pow a 2%float in
      if is_infinity r then Raise OverflowError else Ok r.

End WithLibm.

(** ** Strings and SHA-256 *)

Module PyStr.

(** [str(z)] for a Python integer, as an f-string interpolates it. *)
Definition of_int (z : Z) : string := NilZero.string_of_int (Z.to_int z).

(** [f"{i:03d}"] for a non-negative integer. *)
Definition of_int_03d (z : Z) : string :=
  let s := of_int z in
  match String.length s with
  | 0%nat => "000" ++ s
  | 1%nat => "00" ++ s
  | 2%nat => "0" ++ s
  | _ => s
  end.

(** [s.encode()] on text made of ASCII characters. *)
Definition encode (s : string) : list Z :=
  map (fun c => Z.of_nat (nat_of_ascii c)) (list_ascii_of_string s).

Definition hex_digit (d : Z) : ascii :=
  if d <? 10 then ascii_of_nat (Z.to_nat (48 + d))
  else ascii_of_nat (Z.to_nat (87 + d)).

Definition hex_value (c : ascii) : option Z :=
  let n := Z.of_nat (nat_of_ascii c) in
  if (48 <=? n) && (n <=? 57) then Some (n - 48)
  else if (97 <=? n) && (n <=? 102) then Some (n - 87)
  else if (65 <=? n) && (n <=? 70) then Some (n - 55)
  else None.

(** [int(s, 16)] on a string of hexadecimal digits. *)
Fixpoint int_base16_from (acc : Z) (s : string) : res Z :=
  match s with
  | EmptyString => Ok acc
  | String c s' =>
      match hex_value c with
      | Some d => int_base16_from (16 * acc + d) s'
      | None => Raise ValueError
      end
  end.

Definition int_base16 (s : string) : res Z :=
  match s with
  | EmptyString => Raise ValueError
  | _ => int_base16_from 0 s
  end.

End PyStr.

(** [hashlib.sha256], after FIPS 180-4, on a list of bytes. *)
Module SHA256.

Definition w32 (x : Z) : Z := Z.land x 0xFFFFFFFF.
Definition add32 (x y : Z) : Z := w32 (x + y).
Definition rotr (n x : Z) : Z :=
  Z.lor (Z.shiftr x n) (w32 (Z.shiftl x (32 - n))).
Definition not32 (x : Z) : Z := Z.lxor x 0xFFFFFFFF.

Definition Ch (x y z : Z) : Z := Z.lxor (Z.land x y) (Z.land (not32 x) z).
Definition Maj (x y z : Z) : Z :=
  Z.lxor (Z.lxor (Z.land x y) (Z.land x z)) (Z.land y z).
Definition Sigma0 (x : Z) : Z := Z.lxor (Z.lxor (rotr 2 x) (rotr 13 x)) (rotr 22 x).
Definition Sigma1 (x : Z) : Z := Z.lxor (Z.lxor (rotr 6 x) (rotr 11 x)) (rotr 25 x).
Definition sigma0 (x : Z) : Z := Z.lxor (Z.lxor (rotr 7 x) (rotr 18 x)) (Z.shiftr x 3).
Definition sigma1 (x : Z) : Z := Z.lxor (Z.lxor (rotr 17 x) (rotr 19 x)) (Z.shiftr x 10).

(** The constants of the standard are the first 32 bits of the fractional
    parts of the cube roots (for [K]) and of the square roots (for [H0]) of
    the first primes. *)
Fixpoint primes_from (fuel : nat) (n : Z) (found : list Z) : list Z :=
  match fuel with
  | O => found
  | S fuel' =>
      if forallb (fun p => negb (n mod p =? 0)) found
      then primes_from fuel' (n + 1) (found ++ [n])
      else primes_from fuel' (n + 1) found
  end.

Definition primes : list Z := Eval vm_compute in primes_from 310 2 [].

(** The integer cube root of [x], by bisection on [bits] bits. *)
Fixpoint cube_root (bits : nat) (x r : Z) : Z :=
  match bits with
  | O => r
  | S bits' =>
      let r' := r + Z.shiftl 1 (Z.of_nat bits') in
      cube_root bits' x (if r' * r' * r' <=? x then r' else r)
  end.

Definition K : list Z :=
  Eval vm_compute in map (fun p => w32 (cube_root 36 (p * 2 ^ 96) 0)) primes.

Definition H0 : list Z :=
  Eval vm_compute in map (fun p => w32 (Z.sqrt (p * 2 ^ 64))) (firstn 8 primes).

(** Padding: a 1 bit, zeros up to 56 modulo 64, the bit length on 8 bytes. *)
Definition be_bytes (n : nat) (x : Z) : list Z :=
  map (fun i => Z.land (Z.shiftr x (8 * Z.of_nat (n - 1 - i))) 0xFF) (seq 0 n).

Definition pad (msg : list Z) : list Z :=
  let len := Z.of_nat (List.length msg) in
  let zeros := Z.to_nat ((55 - len) mod 64) in
  msg ++ [0x80] ++ repeat 0 zeros ++ be_bytes 8 (8 * len).

Fixpoint words (fuel : nat) (bs : list Z) : list Z :=
  match fuel, bs with
  | S f, b0 :: b1 :: b2 :: b3 :: rest =>
      (Z.shiftl b0 24 + Z.shiftl b1 16 + Z.shiftl b2 8 + b3) :: words f rest
  | _, _ => []
  end.

(** The message schedule: 16 block words extended to 64. *)
Fixpoint extend (n : nat) (w : list Z) : list Z :=
  match n with
  | O => w
  | S n' =>
      let t := List.length w in
      let at_ k := nth (t - k) w 0 in
      extend n' (w ++ [add32 (add32 (sigma1 (at_ 2%nat)) (at_ 7%nat))
                             (add32 (sigma0 (at_ 15%nat)) (at_ 16%nat))])
  end.

Definition round (st : list Z) (kw : Z * Z) : list Z :=
  match st with
  | [a; b; c; d; e; f; g; h] =>
      let t1 := add32 (add32 (add32 h (Sigma1 e)) (add32 (Ch e f g) (fst kw))) (snd kw) in
      let t2 := add32 (Sigma0 a) (Maj a b c) in
      [add32 t1 t2; a; b; c; add32 d t1; e; f; g]
  | _ => st
  end.

Definition compress (h : list Z) (block : list Z) : list Z :=
  let w := extend 48 block in
  let st := fold_left round (combine K w) h in
  map (fun p => add32 (fst p) (snd p)) (combine h st).

Fixpoint blocks (fuel : nat) (ws : list Z) : list (list Z) :=
  match fuel, ws with
  | _, [] => []
  | O, _ => []
  | S f, _ => firstn 16 ws :: blocks f (skipn 16 ws)
  end.

Definition digest (msg : list Z) : list Z :=
  let bs := pad msg in
  let ws := words (List.length bs) bs in
  fold_left compress (blocks (List.length ws) ws) H0.

Definition hex32 (x : Z) : string :=
  string_of_list_ascii
    (map (fun i => PyStr.hex_digit (Z.land (Z.shiftr x (4 * Z.of_nat (7 - i))) 0xF))
         (seq 0 8)).

(** [hashlib.sha256(bytes).hexdigest()] *)
Definition hexdigest (msg : list Z) : string :=
  String.concat "" (map hex32 (digest msg)).

End SHA256.

(* ------------------------------------------------------------------ *)
(** * Layer 0: seed and configuration *)
(* ------------------------------------------------------------------ *)

(** [f"{master_seed}:{layer_id}:{chunk_x}:{chunk_y}:{chunk_z}"], hashed;
    the first 16 hexadecimal characters read as an integer. *)
Definition derive_layer_seed (master_seed layer_id chunk_x chunk_y chunk_z : Z)
  : res Z :=
  let raw := String.concat ":" (map PyStr.of_int
               [master_seed; layer_id; chunk_x; chunk_y; chunk_z]) in
  let h := SHA256.hexdigest (PyStr.encode raw) in
  PyStr.int_base16 (substring 0 16 h).

Record GenerationConfig : Type := {
  master_seed : Z;
  content_type : string;
  density : float;
  chunk_coords : Z * Z * Z;
  layer_seeds : list (Z * Z)
}.

(** [GenerationConfig.__init__]: the dictionary of the six layer seeds is
    built for keys 0 to 5 in order. *)
Definition GenerationConfig_init (master_seed : Z) (content_type : string)
    (density : float) (chunk_coords : Z * Z * Z) : res GenerationConfig :=
  let '(cx, cy, cz) := chunk_coords in
  (seeds <- for_res (range 6)
              (fun acc i =>
                 s <- derive_layer_seed master_seed i cx cy cz ;;
                 Ok (acc ++ [(i, s)]))
              [] ;;
   Ok {| master_seed := master_seed;
         content_type := content_type;
         density := density;
         chunk_coords := chunk_coords;
         layer_seeds := seeds |})%res.

(** [config.layer_seeds[k]] *)
Fixpoint dict_get (d : list (Z * Z)) (k : Z) : res Z :=
  match d with
  | [] => Raise KeyError
  | (k', v) :: d' => if k' =? k then Ok v else dict_get d' k
  end.

(** [config.to_dict()], as [json.dumps] prints it at Layer 0. *)
Definition to_dict (c : GenerationConfig) : line :=
  [ Lit "master_seed"; PInt (master_seed c);
    Lit "content_type"; PStr (content_type c);
    Lit "density"; PFloat (density c);
    Lit "chunk_coords"; PTriple (chunk_coords c);
    Lit "layer_seeds"; PSeeds (layer_seeds c) ].

(** [str] of a tuple of three integers, as an f-string interpolates it. *)
Definition tuple_repr (c : Z * Z * Z) : string :=
  let '(x, y, z) := c in
  ("(" ++ PyStr.of_int x ++ ", " ++ PyStr.of_int y ++ ", " ++ PyStr.of_int z
   ++ ")")%string.

(** [compute_cache_key]: the hash of the five fields joined by colons. *)
Definition compute_cache_key (master_seed : Z) (chunk_coords : Z * Z * Z)
    (generation_version content_type params_hash : string) : string :=
  let raw := (PyStr.of_int master_seed ++ ":" ++ tuple_repr chunk_coords ++ ":"
              ++ generation_version ++ ":" ++ content_type ++ ":"
              ++ params_hash)%string in
  SHA256.hexdigest (PyStr.encode raw).

(* ------------------------------------------------------------------ *)
(** * Seeded RNG: xorshift64 *)
(* ------------------------------------------------------------------ *)

Record SeededRNG : Type := { state : Z }.

Definition mask64 : Z := 0xFFFFFFFFFFFFFFFF.

(** [SeededRNG.__init__] *)
Definition SeededRNG_init (seed : Z) : SeededRNG :=
  {| state := if seed =? 0 then 1 else seed |}.

(** The three xorshift steps of [next_u64] on the masked state. *)
Definition xorshift64 (s : Z) : Z :=
  let x := Z.land s mask64 in
  let x := Z.lxor x (Z.land (Z.shiftl x 13) mask64) in
  let x := Z.lxor x (Z.land (Z.shiftr x 7) mask64) in
  let x := Z.lxor x (Z.land (Z.shiftl x 17) mask64) in
  x.

(** The methods return their value together with the updated generator. *)
Definition next_u64 (rng : SeededRNG) : Z * SeededRNG :=
  let x := xorshift64 (state rng) in
  (x, {| state := x |}).

Definition next_float (rng : SeededRNG) : float * SeededRNG :=
  let '(u, rng) := next_u64 rng in
  (PyFloat.int_truediv (Z.land u 0xFFFFFFFF) 0xFFFFFFFF, rng).

Definition next_range (rng : SeededRNG) (lo hi : float) : float * SeededRNG :=
  let '(f, rng) := next_float rng in
  ((lo + f * (hi - lo))%float, rng).

(* ------------------------------------------------------------------ *)
(** * The records the layers exchange *)
(* ------------------------------------------------------------------ *)

Module Point.
Record t : Type := {
  x : float; y : float; z : float;
  scale : float; rotation : float;
  type : string
}.
End Point.

(** A joint is a point with, once classified, its joint type and degree
    (the early return of Layer 2 hands the points back unclassified). *)
Module Joint.
Record t : Type := {
  point : Point.t;
  joint_type : option string;
  connectivity : option Z
}.
End Joint.

(** The endpoints of a bone are positions in the joint list (Layer 2
    writes the counters of its [range(n)] loops there). *)
Module Bone.
Record t : Type := {
  from : nat; to : nat;
  length : float; stiffness : float
}.
End Bone.

Record Skeleton : Type := {
  joints : list Joint.t;
  bones : list Bone.t
}.

Module Vertex.
Record t : Type := { x : float; y : float; z : float }.
End Vertex.

Module Weight.
Record t : Type := { bone : nat; weight_from : float; weight_to : float }.
End Weight.

Record Mesh : Type := {
  vertices : list Vertex.t;
  indices : list Z;
  skinning_weights : list Weight.t;
  triangle_count : Z
}.

(** A number that Python leaves an [int] or a [float] (a clamped texel). *)
Inductive pynum : Type :=
| NInt (z : Z)
| NFloat (f : float).

Module Texel.
Record t : Type := { r : pynum; g : pynum; b : pynum }.
End Texel.

Module Texture.
Record t : Type := {
  name : string; width : Z; height : Z;
  pixel_count : Z; sample : list Texel.t
}.
End Texture.

Module RigJoint.
Record t : Type := { id : Z; name : string; length : float; stiffness : float }.
End RigJoint.

Record Rig : Type := { joint_count : Z; rig_joints : list RigJoint.t }.

Module Transform.
Record t : Type := { joint : Z; rx : float; ry : float; rz : Z }.
End Transform.

Module Keyframe.
Record t : Type := { frame : Z; transforms : list Transform.t }.
End Keyframe.

Module Clip.
Record t : Type := {
  name : string; fps : Z; total_frames : Z;
  keyframe_count : Z; keyframes : list Keyframe.t
}.
End Clip.

Record Assets : Type := {
  textures : list Texture.t;
  rig : Rig;
  animations : list Clip.t
}.

Module Lod.
Record t : Type := {
  level : Z; distance : float;
  triangle_count : Z; vertex_count : Z
}.
End Lod.

Module Sphere.
Record t : Type := { cx : Z; cy : Z; cz : Z; radius : float }.
End Sphere.

Inductive SceneNode : Type :=
| ChunkRoot (id : string) (tx ty tz : Z) (children : list string)
| ContentNode (id : string) (type : string) (lods : list Lod.t)
              (bounding_sphere : Sphere.t) (has_animation has_physics : bool).

Module Zone.
Record t : Type := { type : string; radius : float; trigger : string }.
End Zone.

Record Manifest : Type := {
  format : string; meshes : Z; materials : Z; manifest_animations : Z;
  lod_levels : Z; total_vertices : Z; total_triangles : Z
}.

Record Scene : Type := {
  scene_graph : list SceneNode;
  interaction_zones : list Zone.t;
  export_manifest : Manifest;
  export_format : string
}.

(** The record [run_pipeline] returns: the configuration and the counts. *)
Record Result : Type := {
  res_config : GenerationConfig;
  res_points : Z;
  res_skeleton_joints : Z;
  res_skeleton_bones : Z;
  res_mesh_vertices : Z;
  res_mesh_triangles : Z;
  res_assets_textures : Z;
  res_assets_rig_joints : Z;
  res_assets_animations : Z;
  res_scene_nodes : Z;
  res_scene_interaction_zones : Z;
  res_scene_export_format : string;
  res_output_format : string
}.

(** [len(xs)] as a Python integer. *)
Definition len {A} (xs : list A) : Z := Z.of_nat (List.length xs).

(** [xs[i] = v]: [IndexError] past the end. *)
Definition list_assign {A} (xs : list A) (i : nat) (v : A) : res (list A) :=
  if (i <? List.length xs)%nat then Ok (list_set xs i v) else Raise IndexError.

Section Layers.
Context {L : Libm}.
Import PyFloat.

(* ---------------------------------------------------------------- *)
(** * Layer 1: spatial distribution *)
(* ---------------------------------------------------------------- *)

Definition chunk_size : float := 64%float.

(** The body of the two nested loops, for one grid cell: one draw
    decides whether the cell is kept, five more place the point. *)
Definition layer_1_cell (config : GenerationConfig) (cell_size : float)
    (row : Z) (st : SeededRNG * list Point.t) (col : Z)
  : res (SeededRNG * list Point.t) :=
  let '(rng, points) := st in
  let '(cx, cy, cz) := chunk_coords config in
  let '(u, rng) := next_float rng in
  if (density config <? u)%float then Ok (rng, points)
  else
    (let '(u, rng) := next_float rng in
     fcol <- of_int col ;;
     fcx <- of_int cx ;;
     let x := ((fcol + u) * cell_size + fcx * chunk_size)%float in
     let '(u, rng) := next_float rng in
     frow <- of_int row ;;
     fcy <- of_int cy ;;
     let y := ((frow + u) * cell_size + fcy * chunk_size)%float in
     let '(v, rng) := next_range rng (-2)%float 2%float in
     fcz <- of_int cz ;;
     let z := (v + fcz * chunk_size)%float in
     let '(scale, rng) := next_range rng 0.5%float 2%float in
     let '(rotation, rng) := next_range rng 0%float (2 * pi)%float in
     Ok (rng, points ++ [ {| Point.x := round4 x;
                             Point.y := round4 y;
                             Point.z := round4 z;
                             Point.scale := round4 scale;
                             Point.rotation := round4 rotation;
                             Point.type := content_type config |} ]))%res.

(** The grid: its cell size and its number of columns and of rows. *)
Definition layer_1_grid (config : GenerationConfig) : res (float * Z * Z) :=
  (k <- to_int (density config * 16)%float ;;
   fk <- of_int (Z.max 1 k) ;;
   let cell_size := py_max 1%float (chunk_size / fk)%float in
   cols <- to_int (chunk_size / cell_size)%float ;;
   rows <- to_int (chunk_size / cell_size)%float ;;
   Ok (cell_size, cols, rows))%res.

Definition layer_1_spatial_distribution (config : GenerationConfig)
  : Py (list Point.t) :=
  (seed <- lift (dict_get (layer_seeds config) 1) ;;
   let rng := SeededRNG_init seed in
   print [Lit "[Layer 1] Spatial distribution (seed="; PInt seed;
          Lit ", density="; PFloat (density config); Lit ")"] ;;;
   '(cell_size, cols, rows) <- lift (layer_1_grid config) ;;
   '(_, points) <-
      lift (for_res (range rows)
              (fun st row =>
                 for_res (range cols) (layer_1_cell config cell_size row) st)
              (rng, [])) ;;
   print [Lit "[Layer 1] Generated "; PInt (len points);
          Lit " distribution points"] ;;;
   ret points)%py.

(* ---------------------------------------------------------------- *)
(** * Layer 2: skeleton topology *)
(* ---------------------------------------------------------------- *)

Definition _distance (a b : Point.t) : res float :=
  (dx <- float_pow2 (Point.x a - Point.x b)%float ;;
   dy <- float_pow2 (Point.y a - Point.y b)%float ;;
   dz <- float_pow2 (Point.z a - Point.z b)%float ;;
   math_sqrt (dx + dy + dz)%float)%res.

(** The running minimum of one scan over the pairs. *)
Record Best : Type := { best_dist : float; best_i : nat; best_j : nat }.

(** The body of the inner loop over [j], for an in-tree [i]. *)
Definition scan_inner (subset : list Point.t) (in_tree : list bool) (i : nat)
    (b : Best) (j : nat) : res Best :=
  (in_j <- index in_tree j ;;
   if in_j : bool then Ok b
   else
     p_i <- index subset i ;;
     p_j <- index subset j ;;
     d <- _distance p_i p_j ;;
     if (d <? best_dist b)%float
     then Ok {| best_dist := d; best_i := i; best_j := j |}
     else Ok b)%res.

(** The body of the outer loop over [i]. *)
Definition scan_outer (subset : list Point.t) (in_tree : list bool) (n : nat)
    (b : Best) (i : nat) : res Best :=
  (in_i <- index in_tree i ;;
   if negb in_i then Ok b
   else for_res (seq 0 n) (scan_inner subset in_tree i) b)%res.

(** One of the [n - 1] rounds: scan all pairs, then join the closest
    out-of-tree point if a pair was found. *)
Definition prim_round (subset : list Point.t) (n : nat)
    (st : SeededRNG * list bool * list Bone.t) (_ : nat)
  : res (SeededRNG * list bool * list Bone.t) :=
  let '(rng, in_tree, bones) := st in
  (b <- for_res (seq 0 n) (scan_outer subset in_tree n)
          {| best_dist := infinity; best_i := 0; best_j := 0 |} ;;
   if (best_dist b <? infinity)%float then
     in_tree <- list_assign in_tree (best_j b) true ;;
     let '(s, rng) := next_range rng 0.3%float 1%float in
     Ok (rng, in_tree,
         bones ++ [ {| Bone.from := best_i b;
                       Bone.to := best_j b;
                       Bone.length := round4 (best_dist b);
                       Bone.stiffness := round4 s |} ])
   else Ok (rng, in_tree, bones))%res.

(** [connectivity[k] += 1] *)
Definition bump (connectivity : list Z) (k : nat) : res (list Z) :=
  (c <- index connectivity k ;;
   list_assign connectivity k (c + 1))%res.

Definition count_degrees (n : nat) (bones : list Bone.t) : res (list Z) :=
  for_res bones
    (fun connectivity bone =>
       (connectivity <- bump connectivity (Bone.from bone) ;;
        bump connectivity (Bone.to bone))%res)
    (repeat 0 n).

Definition classify (c : Z) : string :=
  if c <=? 1 then "leaf" else if c <=? 3 then "branch" else "hub".

Definition make_joints (subset : list Point.t) (connectivity : list Z)
  : res (list Joint.t) :=
  for_res (combine (seq 0 (List.length subset)) subset)
    (fun joints ipt =>
       (c <- index connectivity (fst ipt) ;;
        Ok (joints ++ [ {| Joint.point := snd ipt;
                           Joint.joint_type := Some (classify c);
                           Joint.connectivity := Some c |} ]))%res)
    [].

(** The early return hands the points back as the joints. *)
Definition as_joint (p : Point.t) : Joint.t :=
  {| Joint.point := p; Joint.joint_type := None; Joint.connectivity := None |}.

(** Everything between the two [print]s of the function, for a point
    list of length at least 2. *)
Definition layer_2_build (rng : SeededRNG) (points : list Point.t)
  : res Skeleton :=
  let subset := firstn 256 points in
  let n := List.length subset in
  (in_tree <- list_assign (repeat false n) 0 true ;;
   '(_, _, bones) <- for_res (seq 0 (n - 1)) (prim_round subset n)
                       (rng, in_tree, []) ;;
   connectivity <- count_degrees n bones ;;
   joints <- make_joints subset connectivity ;;
   Ok {| joints := joints; bones := bones |})%res.

Definition layer_2_skeleton_topology (config : GenerationConfig)
    (points : list Point.t) : Py Skeleton :=
  (seed <- lift (dict_get (layer_seeds config) 2) ;;
   let rng := SeededRNG_init seed in
   print [Lit "[Layer 2] Skeleton topology (seed="; PInt seed;
          Lit ", points="; PInt (len points); Lit ")"] ;;;
   if len points <? 2 then
     ret {| joints := map as_joint points; bones := [] |}
   else
     skeleton <- lift (layer_2_build rng points) ;;
     print [Lit "[Layer 2] Built "; PInt (len (bones skeleton));
            Lit " bones, "; PInt (len (joints skeleton)); Lit " joints"] ;;;
     ret skeleton)%py.

(* ---------------------------------------------------------------- *)
(** * Layer 3: mesh and geometry *)
(* ---------------------------------------------------------------- *)

Definition segments_per_bone : Z := 6.
Definition radial_divisions : Z := 8.

(** The three lists the loops append to. *)
Record MeshAcc : Type := {
  acc_vertices : list Vertex.t;
  acc_indices : list Z;
  acc_weights : list Weight.t
}.

(** The body of the loop over [rad] that emits one ring vertex and its
    skinning weight. *)
Definition ring_vertex (bone_idx : nat) (t px py pz radius : float)
    (acc : MeshAcc) (rad : Z) : res MeshAcc :=
  (frad <- of_int rad ;;
   let angle := (2 * pi * frad / lit radial_divisions)%float in
   c <- math_cos angle ;;
   let vx := (px + radius * c)%float in
   let vy := py in
   s <- math_sin angle ;;
   let vz := (pz + radius * s)%float in
   Ok {| acc_vertices := acc_vertices acc ++
           [ {| Vertex.x := round4 vx; Vertex.y := round4 vy;
                Vertex.z := round4 vz |} ];
         acc_indices := acc_indices acc;
         acc_weights := acc_weights acc ++
           [ {| Weight.bone := bone_idx;
                Weight.weight_from := round4 (1 - t);
                Weight.weight_to := round4 t |} ] |})%res.

(** The body of the loop over [rad] that emits the two triangles of one
    quad between this ring and the next. *)
Definition ring_quad (base_v next_base : Z) (acc : MeshAcc) (rad : Z)
  : MeshAcc :=
  let r_next := (rad + 1) mod radial_divisions in
  {| acc_vertices := acc_vertices acc;
     acc_indices := acc_indices acc ++
       [ base_v + rad; next_base + rad; next_base + r_next;
         base_v + rad; next_base + r_next; base_v + r_next ];
     acc_weights := acc_weights acc |}.

(** The body of the loop over [seg]: one ring, then its triangles. *)
Definition bone_ring (bone_idx : nat) (j_from : Joint.t) (dx dy dz : float)
    (base_radius : float) (acc : MeshAcc) (seg : Z) : res MeshAcc :=
  let t := int_truediv seg segments_per_bone in
  let px := (Point.x (Joint.point j_from) + dx * t)%float in
  let py := (Point.y (Joint.point j_from) + dy * t)%float in
  let pz := (Point.z (Joint.point j_from) + dz * t)%float in
  let radius := (base_radius * (1 - 0.3 * t))%float in
  (acc <- for_res (range radial_divisions)
            (ring_vertex bone_idx t px py pz radius) acc ;;
   if seg <? segments_per_bone then
     let base_v := len (acc_vertices acc) - radial_divisions in
     let next_base := base_v + radial_divisions in
     Ok (fold_left (ring_quad base_v next_base) (range radial_divisions) acc)
   else Ok acc)%res.

(** The body of the loop over the bones. *)
Definition bone_tube (joints : list Joint.t) (st : SeededRNG * MeshAcc)
    (ib : nat * Bone.t) : res (SeededRNG * MeshAcc) :=
  let '(rng, acc) := st in
  let '(bone_idx, bone) := ib in
  if (List.length joints <=? Bone.from bone)%nat
     || (List.length joints <=? Bone.to bone)%nat
  then Ok (rng, acc)
  else
    (j_from <- index joints (Bone.from bone) ;;
     j_to <- index joints (Bone.to bone) ;;
     let dx := (Point.x (Joint.point j_to) - Point.x (Joint.point j_from))%float in
     let dy := (Point.y (Joint.point j_to) - Point.y (Joint.point j_from))%float in
     let dz := (Point.z (Joint.point j_to) - Point.z (Joint.point j_from))%float in
     root <- math_sqrt (dx * dx + dy * dy + dz * dz)%float ;;
     let length := py_max 0.001%float root in
     let '(base_radius, rng) := next_range rng 0.1%float 0.5%float in
     acc <- for_res (range (segments_per_bone + 1))
              (bone_ring bone_idx j_from dx dy dz base_radius) acc ;;
     Ok (rng, acc))%res.

Definition layer_3_build (rng : SeededRNG) (skeleton : Skeleton) : res Mesh :=
  ('(_, acc) <- for_res (combine (seq 0 (List.length (bones skeleton)))
                                 (bones skeleton))
                  (bone_tube (joints skeleton))
                  (rng, {| acc_vertices := []; acc_indices := [];
                           acc_weights := [] |}) ;;
   Ok {| vertices := acc_vertices acc;
         indices := acc_indices acc;
         skinning_weights := acc_weights acc;
         triangle_count := len (acc_indices acc) / 3 |})%res.

Definition layer_3_mesh_geometry (config : GenerationConfig)
    (skeleton : Skeleton) : Py Mesh :=
  (seed <- lift (dict_get (layer_seeds config) 3) ;;
   let rng := SeededRNG_init seed in
   print [Lit "[Layer 3] Mesh generation (seed="; PInt seed; Lit ")"] ;;;
   mesh <- lift (layer_3_build rng skeleton) ;;
   print [Lit "[Layer 3] Generated "; PInt (len (vertices mesh));
          Lit " vertices, "; PInt (len (indices mesh) / 3);
          Lit " triangles"] ;;;
   ret mesh)%py.

(* ---------------------------------------------------------------- *)
(** * Layer 4: assets and animation *)
(* ---------------------------------------------------------------- *)

Definition palette_creature : list (float * float * float) :=
  [ (0.6, 0.4, 0.3); (0.5, 0.35, 0.25); (0.7, 0.5, 0.4) ]%float.
Definition palette_vegetation : list (float * float * float) :=
  [ (0.2, 0.6, 0.2); (0.15, 0.5, 0.15); (0.3, 0.7, 0.1) ]%float.
Definition palette_mineral : list (float * float * float) :=
  [ (0.5, 0.5, 0.55); (0.6, 0.58, 0.55); (0.4, 0.4, 0.45) ]%float.

(** [palettes.get(config.content_type, palettes["creature"])] *)
Definition palette_of (content_type : string) : list (float * float * float) :=
  if String.eqb content_type "creature" then palette_creature
  else if String.eqb content_type "vegetation" then palette_vegetation
  else if String.eqb content_type "mineral" then palette_mineral
  else palette_creature.

(** [round(min(1, max(0, v)), 4)]: the integer bound is what the clamp
    returns when it applies, and [round] leaves an integer alone. *)
Definition clamp_round (v : float) : pynum :=
  if (0 <? v)%float then
    if (v <? 1)%float then NFloat (round4 v) else NInt 1
  else NInt 0.

(** The body of the loop over the texels. *)
Definition texel (palette : list (float * float * float))
    (st : SeededRNG * list Texel.t) (_ : Z) : res (SeededRNG * list Texel.t) :=
  let '(rng, texels) := st in
  let '(u, rng) := next_float rng in
  (k <- to_int (u * lit (len palette))%float ;;
   base <- index palette (Z.to_nat (k mod len palette)) ;;
   let '(noise, rng) := next_range rng (-0.05)%float 0.05%float in
   let '(b0, b1, b2) := base in
   Ok (rng, texels ++ [ {| Texel.r := clamp_round (b0 + noise);
                           Texel.g := clamp_round (b1 + noise);
                           Texel.b := clamp_round (b2 + noise) |} ]))%res.

Definition tex_size : Z := 64.

(** The body of the loop over the first rig joints of one keyframe. *)
Definition bone_transform (clip_name : string) (t : float)
    (acc : list Transform.t) (j : Z) : res (list Transform.t) :=
  let amplitude := if String.eqb clip_name "idle" then 0.05%float else 0.3%float in
  (fj <- of_int j ;;
   s <- math_sin (2 * pi * t + fj * 0.5)%float ;;
   let rx := round4 (amplitude * s) in
   c <- math_cos (2 * pi * t + fj * 0.3)%float ;;
   let ry := round4 (amplitude * c) in
   Ok (acc ++ [ {| Transform.joint := j; Transform.rx := rx;
                   Transform.ry := ry; Transform.rz := 0 |} ]))%res.

(** One animation clip. *)
Definition clip (n_rig_joints : Z) (acc : list Clip.t) (clip_name : string)
  : res (list Clip.t) :=
  let frames := if String.eqb clip_name "idle" then 30 else 60 in
  (keyframes <-
     for_res (range_step frames 5)
       (fun keyframes f =>
          let t := int_truediv f frames in
          bone_transforms <-
            for_res (range (Z.min n_rig_joints 16)) (bone_transform clip_name t) [] ;;
          Ok (keyframes ++ [ {| Keyframe.frame := f;
                                Keyframe.transforms := bone_transforms |} ]))
       [] ;;
   Ok (acc ++ [ {| Clip.name := clip_name;
                   Clip.fps := 30;
                   Clip.total_frames := frames;
                   Clip.keyframe_count := len keyframes;
                   Clip.keyframes := keyframes |} ]))%res.

Definition layer_4_build (config : GenerationConfig) (rng : SeededRNG)
    (skeleton : Skeleton) : res Assets :=
  let palette := palette_of (content_type config) in
  ('(_, texels) <-
      for_res (range tex_size)
        (fun st _ => for_res (range tex_size) (texel palette) st)
        (rng, []) ;;
   let textures :=
     [ {| Texture.name := content_type config ++ "_diffuse";
          Texture.width := tex_size;
          Texture.height := tex_size;
          Texture.pixel_count := len texels;
          Texture.sample := firstn 4 texels |} ] in
   let rig_joints :=
     map (fun ib : nat * Bone.t =>
            {| RigJoint.id := Z.of_nat (fst ib);
               RigJoint.name := "bone_" ++ PyStr.of_int_03d (Z.of_nat (fst ib));
               RigJoint.length := Bone.length (snd ib);
               RigJoint.stiffness := Bone.stiffness (snd ib) |})
         (combine (seq 0 (List.length (bones skeleton))) (bones skeleton)) in
   animations <- for_res ["idle"; "walk"]%string (clip (len rig_joints)) [] ;;
   Ok {| textures := textures;
         rig := {| joint_count := len rig_joints; rig_joints := rig_joints |};
         animations := animations |})%res.

Definition layer_4_assets_animation (config : GenerationConfig) (mesh : Mesh)
    (skeleton : Skeleton) : Py Assets :=
  (seed <- lift (dict_get (layer_seeds config) 4) ;;
   let rng := SeededRNG_init seed in
   print [Lit "[Layer 4] Asset generation (seed="; PInt seed; Lit ")"] ;;;
   assets <- lift (layer_4_build config rng skeleton) ;;
   print [Lit "[Layer 4] Generated "; PInt (len (textures assets));
          Lit " textures, "; PInt (len (rig_joints (rig assets)));
          Lit " rig joints, "; PInt (len (animations assets));
          Lit " animations"] ;;;
   ret assets)%py.

(* ---------------------------------------------------------------- *)
(** * Layer 5: world integration *)
(* ---------------------------------------------------------------- *)

Definition coords_suffix (cx cy cz : Z) : string :=
  (PyStr.of_int cx ++ "_" ++ PyStr.of_int cy ++ "_" ++ PyStr.of_int cz)%string.

(** The body of the loop over the three LOD levels. *)
Definition lod (vertex_count tri_count : Z) (acc : list Lod.t) (lod_level : Z)
  : res (list Lod.t) :=
  (fp <- of_int (2 ^ lod_level) ;;
   let reduction := (1 / fp)%float in
   fl <- of_int lod_level ;;
   let distance := (fl * 50)%float in
   ft <- of_int tri_count ;;
   t <- to_int (ft * reduction)%float ;;
   fv <- of_int vertex_count ;;
   v <- to_int (fv * reduction)%float ;;
   Ok (acc ++ [ {| Lod.level := lod_level;
                   Lod.distance := distance;
                   Lod.triangle_count := Z.max 1 t;
                   Lod.vertex_count := Z.max 1 v |} ]))%res.

Definition layer_5_build (config : GenerationConfig) (rng : SeededRNG)
    (mesh : Mesh) (assets : Assets) : res (Scene * list Lod.t) :=
  let '(cx, cy, cz) := chunk_coords config in
  let chunk_id := ("chunk_" ++ coords_suffix cx cy cz)%string in
  let vertex_count := len (vertices mesh) in
  let tri_count := triangle_count mesh in
  (lods <- for_res (range 3) (lod vertex_count tri_count) [] ;;
   let content_id :=
     ("content_" ++ content_type config ++ "_" ++ coords_suffix cx cy cz)%string in
   let content_node :=
     ContentNode content_id (content_type config) lods
       {| Sphere.cx := cx * 64 + 32;
          Sphere.cy := cy * 64 + 32;
          Sphere.cz := cz * 64;
          Sphere.radius := 45 |}
       (0 <? len (animations assets))
       (String.eqb (content_type config) "creature") in
   let chunk_node :=
     ChunkRoot chunk_id (cx * 64) (cy * 64) (cz * 64) [content_id] in
   let scene_nodes := [chunk_node; content_node] in
   let interaction_zones :=
     if String.eqb (content_type config) "creature" then
       let '(r1, rng) := next_range rng 10 30 in
       let '(r2, rng) := next_range rng 3 8 in
       [ {| Zone.type := "awareness"; Zone.radius := r1;
            Zone.trigger := "proximity" |};
         {| Zone.type := "combat"; Zone.radius := r2;
            Zone.trigger := "aggression" |} ]
     else [] in
   let export_manifest :=
     {| format := "fbx"; meshes := 1;
        materials := len (textures assets);
        manifest_animations := len (animations assets);
        lod_levels := len lods;
        total_vertices := vertex_count;
        total_triangles := tri_count |} in
   Ok ({| scene_graph := scene_nodes;
          interaction_zones := interaction_zones;
          export_manifest := export_manifest;
          export_format := "fbx" |}, lods))%res.

Definition layer_5_world_integration (config : GenerationConfig)
    (mesh : Mesh) (assets : Assets) : Py Scene :=
  (seed <- lift (dict_get (layer_seeds config) 5) ;;
   let rng := SeededRNG_init seed in
   print [Lit "[Layer 5] World integration (seed="; PInt seed; Lit ")"] ;;;
   '(scene, lods) <- lift (layer_5_build config rng mesh assets) ;;
   print [Lit "[Layer 5] Scene: "; PInt (len (scene_graph scene));
          Lit " nodes, "; PInt (len lods); Lit " LODs, ";
          PInt (len (interaction_zones scene)); Lit " interaction zones"] ;;;
   ret scene)%py.

(* ---------------------------------------------------------------- *)
(** * Pipeline *)
(* ---------------------------------------------------------------- *)

Definition run_pipeline (master_seed : Z) (content_type : string)
    (density : float) (chunk_coords : Z * Z * Z) (output_format : string)
  : Py Result :=
  (print [Lit "=== GENESIS Generation Pipeline ==="] ;;;
   print [Lit "  Seed: "; PInt master_seed] ;;;
   print [Lit "  Type: "; PStr content_type] ;;;
   print [Lit "  Chunk: "; PTriple chunk_coords] ;;;
   print [] ;;;
   config <- lift (GenerationConfig_init master_seed content_type density
                                         chunk_coords) ;;
   print (Lit "[Layer 0] Configuration: " :: to_dict config) ;;;
   points <- layer_1_spatial_distribution config ;;
   skeleton <- layer_2_skeleton_topology config points ;;
   mesh <- layer_3_mesh_geometry config skeleton ;;
   assets <- layer_4_assets_animation config mesh skeleton ;;
   scene <- layer_5_world_integration config mesh assets ;;
   let result :=
     {| res_config := config;
        res_points := len points;
        res_skeleton_joints := len (joints skeleton);
        res_skeleton_bones := len (bones skeleton);
        res_mesh_vertices := len (vertices mesh);
        res_mesh_triangles := triangle_count mesh;
        res_assets_textures := len (textures assets);
        res_assets_rig_joints := joint_count (rig assets);
        res_assets_animations := len (animations assets);
        res_scene_nodes := len (scene_graph scene);
        res_scene_interaction_zones := len (interaction_zones scene);
        res_scene_export_format := export_format scene;
        res_output_format := output_format |} in
   print [] ;;;
   print [Lit "=== Pipeline Complete ==="] ;;;
   ret result)%py.

End Layers.

(** CPython's [main] default for [output_format]. *)
Definition default_output_format : string := "fbx".


(* ------------------------------------------------------------------ *)
(** * Notions the statements use *)
(* ------------------------------------------------------------------ *)

(** The invariant of [GenerationConfig]: the six layer seeds, keyed 0 to 5. *)
Definition well_formed (config : GenerationConfig) : Prop :=
  map fst (layer_seeds config) = [0; 1; 2; 3; 4; 5].

(** The value under a successful outcome. *)
Definition res_map {A B} (f : A -> B) (r : res A) : res B :=
  match r with
  | Ok a => Ok (f a)
  | Raise e => Raise e
  end.

(** [n] successive calls of [next_u64]. *)
Fixpoint advance (n : nat) (rng : SeededRNG) : SeededRNG :=
  match n with
  | O => rng
  | S k => advance k (snd (next_u64 rng))
  end.

Definition word64 (x : Z) : Prop := 0 <= x < 2 ^ 64.

(** The invariant of the generator: a non-zero 64-bit state. *)
Definition live (rng : SeededRNG) : Prop :=
  word64 (state rng) /\ state rng <> 0.


(** A sample platform, to run the model on concrete inputs: [pow] squares
    exactly (2 is the only exponent the source passes), [cos] and [sin]
    are their Taylor polynomials of degree 6 and 7.  Every theorem below
    holds for every platform. *)
Definition sample_libm : Libm :=
  {| libm_cos := fun x =>
       let x2 := (x * x)%float in
       (1 - x2 / 2 + x2 * x2 / 24 - x2 * x2 * x2 / 720)%float;
     libm_sin := fun x =>
       let x2 := (x * x)%float in
       (x - x * x2 / 6 + x * x2 * x2 / 120 - x * x2 * x2 * x2 / 5040)%float;
     libm_pow := fun x _ => (x * x)%float |}.


(** A value that is not negative: a zero, a positive number, plus
    infinity, or a NaN. *)
Definition not_negative (x : spec_float) : Prop :=
  match x with
  | S754_zero _ => True
  | S754_infinity s => s = false
  | S754_nan => True
  | S754_finite s _ _ => s = false
  end.

(** The bound check of Layer 3: both endpoints are positions of [joints]. *)
Definition bone_in_range (joints : list Joint.t) (b : Bone.t) : bool :=
  (Bone.from b <? List.length joints)%nat && (Bone.to b <? List.length joints)%nat.

(** The number of bones of a skeleton that pass the bound check. *)
Definition in_range_bones (skeleton : Skeleton) : Z :=
  len (filter (bone_in_range (joints skeleton)) (bones skeleton)).

(** The two weights of a skinning entry are the roundings of [1 - t] and
    [t] for a ring [seg] of 0 to 6, [t = seg / 6], and add up to 1. *)
Definition weight_ok (sw : Weight.t) : Prop :=
  (Weight.weight_from sw + Weight.weight_to sw)%float = 1%float
  /\ exists seg, In seg (range 7)
       /\ Weight.weight_from sw = PyFloat.round4 (1 - PyFloat.int_truediv seg 6)
       /\ Weight.weight_to sw = PyFloat.round4 (PyFloat.int_truediv seg 6).

(** The six indices of the two triangles of one quad. *)
Definition quad (base_v next_base rad : Z) : list Z :=
  let r_next := (rad + 1) mod 8 in
  [ base_v + rad; next_base + rad; next_base + r_next;
    base_v + rad; next_base + r_next; base_v + r_next ].

(** The state of the mesh lists after [k] rings of a bone that started
    with [V0] vertices and [I0] indices: eight vertices a ring, weights
    aligned, 48 indices for each of the first six rings, every index below
    the end of the ring that follows the last one with triangles. *)
Definition rings_done (V0 I0 : nat) (k : nat) (acc : MeshAcc) : Prop :=
  List.length (acc_vertices acc) = (V0 + 8 * k)%nat
  /\ List.length (acc_weights acc) = List.length (acc_vertices acc)
  /\ Forall weight_ok (acc_weights acc)
  /\ List.length (acc_indices acc) = (I0 + 48 * Nat.min k 6)%nat
  /\ Forall (fun i => 0 <= i < Z.of_nat (V0 + 8 * Nat.min (k + 1) 7))
            (acc_indices acc).

(** The state of the mesh lists after [c] bones passed the bound check. *)
Definition tubes_done (c : nat) (acc : MeshAcc) : Prop :=
  List.length (acc_vertices acc) = (56 * c)%nat
  /\ List.length (acc_weights acc) = List.length (acc_vertices acc)
  /\ Forall weight_ok (acc_weights acc)
  /\ List.length (acc_indices acc) = (288 * c)%nat
  /\ Forall (fun i => 0 <= i < len (acc_vertices acc)) (acc_indices acc).

(** The configuration of the end-to-end example: master seed 42, a
    creature, density 0.75, chunk (0, 0, 0), with its six derived seeds. *)
Definition sample_config : GenerationConfig :=
  {| master_seed := 42;
     content_type := "creature";
     density := 0.75;
     chunk_coords := (0, 0, 0);
     layer_seeds :=
       [ (0, 17880187134830815598); (1, 1555674305951359366);
         (2, 7909412308143596468); (3, 12323819054022680770);
         (4, 12928413990214956240); (5, 5217564415343412206) ] |}.

Definition sample_point (x y z : float) : Point.t :=
  {| Point.x := x; Point.y := y; Point.z := z;
     Point.scale := 1; Point.rotation := 0; Point.type := "creature" |}.

(** Three points, at the corners of a right triangle. *)
Definition sample_points : list Point.t :=
  [ sample_point 0 0 0; sample_point 3 0 0; sample_point 0 4 0 ].

(** A skeleton over them with two bones in range and one whose far
    endpoint is not a joint. *)
Definition sample_skeleton : Skeleton :=
  {| joints := map as_joint sample_points;
     bones :=
       [ {| Bone.from := 0; Bone.to := 1; Bone.length := 3; Bone.stiffness := 0.5 |};
         {| Bone.from := 0; Bone.to := 2; Bone.length := 4; Bone.stiffness := 0.5 |};
         {| Bone.from := 1; Bone.to := 7; Bone.length := 1; Bone.stiffness := 0.5 |} ] |}.

(** ** Bones as a graph over the joints *)

(** Two joints are adjacent when a bone joins them, in either direction. *)
Definition adjacent (bs : list Bone.t) (u v : nat) : Prop :=
  exists b, In b bs
    /\ ((Bone.from b = u /\ Bone.to b = v) \/ (Bone.from b = v /\ Bone.to b = u)).

(** Joined by a path of bones. *)
Definition linked (bs : list Bone.t) : nat -> nat -> Prop :=
  clos_refl_trans nat (adjacent bs).

(** Every two of the [n] joints are joined by a path. *)
Definition connected (n : nat) (bs : list Bone.t) : Prop :=
  forall u v, (u < n)%nat -> (v < n)%nat -> linked bs u v.

(** The bones but the one at position [k]. *)
Definition without (k : nat) (bs : list Bone.t) : list Bone.t :=
  firstn k bs ++ skipn (S k) bs.

(** No cycle: every bone is a bridge, that is, no path of other bones
    joins its two endpoints (a loop or a doubled bone is a cycle too). *)
Definition acyclic (bs : list Bone.t) : Prop :=
  forall k b, nth_error bs k = Some b ->
              ~ linked (without k bs) (Bone.from b) (Bone.to b).

(** Every bone that Layer 2 may have to measure has a distance below
    infinity: the coordinates are finite and the squares do not overflow. *)
Definition finite_distances {L : Libm} (pts : list Point.t) : Prop :=
  forall i j p q,
    i <> j -> nth_error pts i = Some p -> nth_error pts j = Some q ->
    exists d, _distance p q = Ok d /\ (d <? infinity)%float = true.

Definition count_true (l : list bool) : nat :=
  List.length (filter (fun b => b) l).

(** The running minimum names a pair to join: a finite distance from an
    in-tree point to an out-of-tree point. *)
Definition candidate (in_tree : list bool) (b : Best) : Prop :=
  (best_dist b <? infinity)%float = true
  /\ nth_error in_tree (best_i b) = Some true
  /\ nth_error in_tree (best_j b) = Some false.

(** The running minimum during a scan: still infinite, or a candidate. *)
Definition scan_state (in_tree : list bool) (b : Best) : Prop :=
  best_dist b = infinity \/ candidate in_tree b.

(** The state after [k] rounds of the tree growth over [n] points: the
    root and [k] more points are in the tree, joined by [k] bones that
    link each of them to the root without a cycle. *)
Definition grown (n k : nat) (in_tree : list bool) (bs : list Bone.t) : Prop :=
  List.length in_tree = n
  /\ nth_error in_tree 0 = Some true
  /\ count_true in_tree = S k
  /\ List.length bs = k
  /\ (forall b, In b bs ->
        nth_error in_tree (Bone.from b) = Some true
        /\ nth_error in_tree (Bone.to b) = Some true)
  /\ (forall v, nth_error in_tree v = Some true -> linked bs 0%nat v)
  /\ acyclic bs.

(** Two points as Layer 1 places them when the chunk offset overflows
    (chunk x = 2^1020): their x coordinate is infinite. *)
Definition far_points : list Point.t :=
  [ sample_point infinity 1 0; sample_point infinity 2 0 ].

(** The bounding spheres of the content nodes of a scene. *)
Definition content_spheres (scene : Scene) : list Sphere.t :=
  flat_map (fun node =>
              match node with
              | ContentNode _ _ _ sphere _ _ => [sphere]
              | ChunkRoot _ _ _ _ _ => []
              end)
           (scene_graph scene).

(** A value [int()] accepts: a zero or a finite number. *)
Definition finite_or_zero (x : spec_float) : Prop :=
  match x with
  | S754_zero _ | S754_finite _ _ _ => True
  | S754_infinity _ | S754_nan => False
  end.

Definition empty_mesh : Mesh :=
  {| vertices := []; indices := []; skinning_weights := []; triangle_count := 0 |}.

Definition empty_assets : Assets :=
  {| textures := []; rig := {| joint_count := 0; rig_joints := [] |};
     animations := [] |}.

(** A positive double of at most 1, as a normal number: a mantissa of
    53 bits and an exponent from -85 to -52 (the value 1 itself). *)
Definition unit_shape (x : spec_float) : Prop :=
  exists m e, x = S754_finite false m e
    /\ 2 ^ 52 <= Zpos m < 2 ^ 53
    /\ (- 85 <= e < - 52 \/ (e = - 52 /\ Zpos m = 2 ^ 52)).

(** The low 32 bits of the first output of the Layer 1 generator, for a
    master seed and a chunk. *)
Definition first_draw (master_seed : Z) (chunk_coords : Z * Z * Z) : res Z :=
  let '(cx, cy, cz) := chunk_coords in
  res_map (fun seed => Z.land (fst (next_u64 (SeededRNG_init seed))) 0xFFFFFFFF)
          (derive_layer_seed master_seed 1 cx cy cz).









(** The arguments of [math.sin] and [math.cos] in the keyframes of the two
    clips, for the joints 0 to 15: none is infinite, and each joint number
    converts to a double. *)
Definition keyframe_angles_finite : bool :=
  forallb (fun frames =>
    forallb (fun f =>
      forallb (fun j =>
        negb (is_infinity (PyFloat.lit j))
        && negb (is_infinity (2 * PyFloat.pi * PyFloat.int_truediv f frames
                              + PyFloat.lit j * 0.5))
        && negb (is_infinity (2 * PyFloat.pi * PyFloat.int_truediv f frames
                              + PyFloat.lit j * 0.3)))
      (range 16))
    (range_step frames 5))
  [30; 60].

(** The summary of a clip: name, frames per second, total frames,
    keyframe count and the frames of its keyframes. *)
Definition clip_summary (c : Clip.t) : string * Z * Z * Z * list Z :=
  (Clip.name c, Clip.fps c, Clip.total_frames c, Clip.keyframe_count c,
   map Keyframe.frame (Clip.keyframes c)).

(** The rig joint Layer 4 makes of the bone at position [i]. *)
Definition rig_joint_of (ib : nat * Bone.t) : RigJoint.t :=
  {| RigJoint.id := Z.of_nat (fst ib);
     RigJoint.name := "bone_" ++ PyStr.of_int_03d (Z.of_nat (fst ib));
     RigJoint.length := Bone.length (snd ib);
     RigJoint.stiffness := Bone.stiffness (snd ib) |}.

(** The entry of the LOD table for a level: the counts are halved at
    each level, rounded down, and never below 1. *)
Definition lod_entry (vertex_count tri_count : Z) (level : Z) (distance : float)
  : Lod.t :=
  {| Lod.level := level;
     Lod.distance := distance;
     Lod.triangle_count := Z.max 1 (tri_count / 2 ^ level);
     Lod.vertex_count := Z.max 1 (vertex_count / 2 ^ level) |}.

(** The LOD table of a mesh with the given counts. *)
Definition lod_table (vertex_count tri_count : Z) : list Lod.t :=
  [ lod_entry vertex_count tri_count 0 0;
    lod_entry vertex_count tri_count 1 50;
    lod_entry vertex_count tri_count 2 100 ].

(** The running minimum of a scan names no pair yet, or a pair from an
    in-tree point to an out-of-tree point. *)
Definition pair_state (in_tree : list bool) (b : Best) : Prop :=
  best_dist b = infinity
  \/ (nth_error in_tree (best_i b) = Some true
      /\ nth_error in_tree (best_j b) = Some false).

(** The bones in the order Layer 2 appends them: each hangs a joint that
    is neither the root nor a joint already hung, from the root or from a
    joint hung by an earlier bone. *)
Definition rooted (bs : list Bone.t) : Prop :=
  forall k b, nth_error bs k = Some b ->
    Bone.to b <> 0%nat
    /\ Bone.from b <> Bone.to b
    /\ (forall b', In b' (firstn k bs) -> Bone.to b' <> Bone.to b)
    /\ (Bone.from b = 0%nat
        \/ exists b', In b' (firstn k bs) /\ Bone.to b' = Bone.from b).

(** The state of the tree growth after [k] rounds, whatever the
    distances: the flagged points are the root and the joints hung so
    far, and the bones are a tree over them. *)
Definition tree_so_far (n k : nat) (in_tree : list bool) (bs : list Bone.t)
  : Prop :=
  List.length in_tree = n
  /\ nth_error in_tree 0 = Some true
  /\ count_true in_tree = S (List.length bs)
  /\ (List.length bs <= k)%nat
  /\ (forall v, nth_error in_tree v = Some true <->
                v = 0%nat \/ exists b, In b bs /\ Bone.to b = v)
  /\ (forall b, In b bs -> nth_error in_tree (Bone.from b) = Some true)
  /\ (forall v, nth_error in_tree v = Some true -> linked bs 0%nat v)
  /\ acyclic bs
  /\ rooted bs.

(** The number of bone ends at joint [i]. *)
Fixpoint degree (bs : list Bone.t) (i : nat) : Z :=
  match bs with
  | [] => 0
  | b :: bs' =>
      (if (Bone.from b =? i)%nat then 1 else 0)
      + (if (Bone.to b =? i)%nat then 1 else 0)
      + degree bs' i
  end.

Definition sumZ (l : list Z) : Z := fold_right Z.add 0 l.

(** The joint Layer 2 makes of the point at position [i]. *)
Definition joint_of (bs : list Bone.t) (i : nat) (p : Point.t) : Joint.t :=
  {| Joint.point := p;
     Joint.joint_type := Some (classify (degree bs i));
     Joint.connectivity := Some (degree bs i) |}.

(* ------------------------------------------------------------------ *)
(** * Properties *)
(* ------------------------------------------------------------------ *)

(** ** The generator *)

Section Xorshift.

Lemma mask64_ones : mask64 = Z.ones 64.
Proof. reflexivity. Qed.

Lemma land_mask64_word x : word64 (Z.land x mask64).
Proof.
  unfold word64. rewrite mask64_ones, Z.land_ones by lia.
  apply Z.mod_pos_bound. lia.
Qed.

Lemma land_mask64_id x : word64 x -> Z.land x mask64 = x.
Proof.
  unfold word64. intros H. rewrite mask64_ones, Z.land_ones by lia.
  apply Z.mod_small. exact H.
Qed.

Lemma lxor_word x y : word64 x -> word64 y -> word64 (Z.lxor x y).
Proof.
  unfold word64. intros [Hx0 Hx] [Hy0 Hy]. split.
  - apply Z.lxor_nonneg. tauto.
  - destruct (Z.eq_dec (Z.lxor x y) 0) as [E | NE]; [rewrite E; lia |].
    assert (0 < Z.lxor x y) by (pose proof (proj2 (Z.lxor_nonneg x y) (conj (fun _ => Hy0) (fun _ => Hx0))); lia).
    apply Z.log2_lt_pow2; [assumption |].
    pose proof (Z.log2_lxor x y Hx0 Hy0) as Hl.
    assert (Z.log2 x < 64).
    { destruct (Z.eq_dec x 0) as [-> | ]; [simpl; lia |].
      apply Z.log2_lt_pow2; lia. }
    assert (Z.log2 y < 64).
    { destruct (Z.eq_dec y 0) as [-> | ]; [simpl; lia |].
      apply Z.log2_lt_pow2; lia. }
    lia.
Qed.

(** A left xorshift step has no fixed point but zero: the lowest set bit
    of [x] survives. *)
Lemma xor_shl_nonzero k x :
  0 < k -> x <> 0 -> Z.lxor x (Z.land (Z.shiftl x k) mask64) <> 0.
Proof.
  intros Hk Hx H. apply Z.lxor_eq in H. apply Hx.
  apply Z.bits_inj_0. intros n.
  destruct (Z.lt_ge_cases n 0) as [Hn | Hn]; [apply Z.testbit_neg_r; exact Hn |].
  pattern n. apply Z_lt_induction; [| exact Hn]. clear n Hn.
  intros n IH.
  destruct (Z.lt_ge_cases n 0) as [Hn | Hn]; [apply Z.testbit_neg_r; exact Hn |].
  rewrite H, Z.land_spec, Z.shiftl_spec by exact Hn.
  destruct (Z.lt_ge_cases (n - k) 0) as [Hs | Hs].
  - rewrite Z.testbit_neg_r by exact Hs. reflexivity.
  - rewrite IH by lia. reflexivity.
Qed.

(** A right xorshift step has no fixed point but zero: the shifted word
    is strictly smaller. *)
Lemma xor_shr_nonzero k x :
  0 < k -> word64 x -> x <> 0 -> Z.lxor x (Z.land (Z.shiftr x k) mask64) <> 0.
Proof.
  intros Hk [Hx0 Hx] Hne H. apply Z.lxor_eq in H.
  assert (Hs : 0 <= Z.shiftr x k < x).
  { rewrite Z.shiftr_div_pow2 by lia. split.
    - apply Z.div_pos; [lia | apply Z.pow_pos_nonneg; lia].
    - apply Z.div_lt; [lia |].
      pose proof (Z.pow_le_mono_r 2 1 k ltac:(lia) ltac:(lia)) as Hp.
      change (2 ^ 1) with 2 in Hp. lia. }
  rewrite land_mask64_id in H by (unfold word64; lia).
  lia.
Qed.

Lemma xorshift64_word s : word64 (xorshift64 s).
Proof.
  unfold xorshift64.
  repeat (apply lxor_word; [| apply land_mask64_word]).
  apply land_mask64_word.
Qed.

Lemma xorshift64_nonzero s : Z.land s mask64 <> 0 -> xorshift64 s <> 0.
Proof.
  intros Hs. unfold xorshift64.
  apply xor_shl_nonzero; [lia |].
  apply xor_shr_nonzero; [lia | |].
  - apply lxor_word; apply land_mask64_word.
  - apply xor_shl_nonzero; [lia | exact Hs].
Qed.

Lemma next_u64_live rng : live rng -> live (snd (next_u64 rng)).
Proof.
  intros [Hw Hn]. unfold next_u64, live. simpl. split.
  - apply xorshift64_word.
  - apply xorshift64_nonzero. rewrite land_mask64_id; assumption.
Qed.

Lemma advance_live n : forall rng, live rng -> live (advance n rng).
Proof.
  induction n as [| n IH]; intros rng H; simpl; [exact H |].
  apply IH, next_u64_live, H.
Qed.

End Xorshift.

(** C7. A generator built from seed 0 starts in state 1, and after any
    number of [next_u64] calls its state is not 0. *)
Theorem zero_seed_never_zero :
  state (SeededRNG_init 0) = 1
  /\ forall n : nat, state (advance n (SeededRNG_init 0)) <> 0.
Proof.
  split; [reflexivity |].
  intros n. apply advance_live.
  unfold live, word64. simpl. lia.
Qed.

(** ** Determinism *)

Section Steady.






End Steady.


Section LayersSteady.
Context {L : Libm}.







End LayersSteady.


(** ** The end-to-end example at density 0 *)



(** A draw of exactly 0 is not above the density 0: for the master seed
    6154285203 the one draw of Layer 1 is 0, and the run keeps a point. *)
Lemma density_zero_point_kept (L : Libm) (output_format : string) (w : World) :
  first_draw 6154285203 (0, 0, 0) = Ok 0
  /\ res_map (fun r => (res_points r, res_skeleton_joints r, res_skeleton_bones r,
                        res_mesh_vertices r, res_mesh_triangles r,
                        res_scene_interaction_zones r))
       (outcome (run_pipeline 6154285203 "creature" 0 (0, 0, 0) output_format w))
     = Ok (1, 1, 0, 0, 0, 2).
Proof. split; vm_compute; reflexivity. Qed.

(** ** Signs of sums of squares *)

Section FloatSigns.

Lemma binary_round_aux_sign sx mx ex lx :
  match binary_round_aux prec emax sx mx ex lx with
  | S754_zero s | S754_infinity s | S754_finite s _ _ => s = sx
  | S754_nan => True
  end.
Proof.
  unfold binary_round_aux.
  destruct (shr_fexp prec emax mx ex lx) as [mrs' e'].
  destruct (shr_fexp prec emax _ e' loc_Exact) as [mrs'' e''].
  destruct (shr_m mrs''); [reflexivity | | exact I].
  destruct (e'' <=? emax - prec); reflexivity.
Qed.

Lemma binary_round_aux_not_negative mx ex lx :
  not_negative (binary_round_aux prec emax false mx ex lx).
Proof.
  pose proof (binary_round_aux_sign false mx ex lx) as H.
  destruct (binary_round_aux prec emax false mx ex lx); simpl; auto.
Qed.

Lemma SFmul_square_not_negative x : not_negative (SFmul prec emax x x).
Proof.
  destruct x as [s | s | | s m e]; simpl; auto.
  - destruct s; reflexivity.
  - replace (xorb s s) with false by (destruct s; reflexivity).
    apply binary_round_aux_not_negative.
Qed.

Lemma SFadd_not_negative x y :
  not_negative x -> not_negative y -> not_negative (SFadd prec emax x y).
Proof.
  destruct x as [sx | sx | | sx mx ex]; destruct y as [sy | sy | | sy my ey];
    simpl; intros Hx Hy; subst; auto.
  all: try (destruct sx, sy; simpl; auto; fail).
  - reflexivity.
  - destruct (shl_align mx ex _) as [m1 e1].
    destruct (shl_align my ey _) as [m2 e2]. simpl.
    unfold binary_round.
    destruct (shl_align _ _ _) as [mz ez].
    apply binary_round_aux_not_negative.
Qed.

Lemma not_negative_ltb_zero x :
  not_negative (Prim2SF x) -> (x <? 0)%float = false.
Proof.
  intros H. rewrite ltb_spec. change (Prim2SF 0) with (S754_zero false).
  destruct (Prim2SF x) as [s | s | | s m e]; simpl in *; subst; reflexivity.
Qed.

(** A sum of three squares never compares below zero. *)
Lemma sum_of_squares_not_negative (a b c : float) :
  (a * a + b * b + c * c <? 0)%float = false.
Proof.
  apply not_negative_ltb_zero.
  rewrite !add_spec, !mul_spec.
  repeat apply SFadd_not_negative; apply SFmul_square_not_negative.
Qed.

End FloatSigns.

(** ** Loops *)

Section Loops.

(** A loop whose body never raises, with an invariant indexed by the
    number of items done. *)
Lemma for_res_invariant_from {A St} (body : St -> A -> res St)
    (P : nat -> St -> Prop) (xs : list A) :
  forall (k0 : nat) (s : St),
    P k0 s ->
    (forall k x s, nth_error xs k = Some x -> P (k0 + k)%nat s ->
                   exists s', body s x = Ok s' /\ P (S (k0 + k)) s') ->
    exists s', for_res xs body s = Ok s' /\ P (k0 + List.length xs)%nat s'.
Proof.
  induction xs as [| x xs IH]; intros k0 s H0 Hstep; simpl.
  - exists s. rewrite Nat.add_0_r. auto.
  - destruct (Hstep 0%nat x s eq_refl) as [s1 [E1 H1]];
      [rewrite Nat.add_0_r; exact H0 |].
    rewrite E1. rewrite Nat.add_0_r in H1.
    destruct (IH (S k0) s1 H1) as [s' [E' H']].
    + intros k y t Hy Ht.
      replace (S k0 + k)%nat with (k0 + S k)%nat in * by lia.
      apply (Hstep (S k) y t Hy Ht).
    + exists s'. replace (k0 + S (List.length xs))%nat
        with (S k0 + List.length xs)%nat by lia. auto.
Qed.

Lemma for_res_invariant {A St} (body : St -> A -> res St)
    (P : nat -> St -> Prop) (xs : list A) (s : St) :
  P 0%nat s ->
  (forall k x s, nth_error xs k = Some x -> P k s ->
                 exists s', body s x = Ok s' /\ P (S k) s') ->
  exists s', for_res xs body s = Ok s' /\ P (List.length xs) s'.
Proof.
  intros H0 Hstep.
  apply (for_res_invariant_from body P xs 0 s H0). exact Hstep.
Qed.

Lemma nth_error_seq_inv a n k x :
  nth_error (seq a n) k = Some x -> x = (a + k)%nat /\ (k < n)%nat.
Proof.
  revert a k. induction n as [| n IH]; intros a k H; simpl in H.
  - destruct k; discriminate.
  - destruct k as [| k]; simpl in H.
    + injection H as <-. lia.
    + apply IH in H. lia.
Qed.

Lemma nth_error_range_inv n k x :
  nth_error (range n) k = Some x -> x = Z.of_nat k /\ (k < Z.to_nat n)%nat.
Proof.
  unfold range. intros H. rewrite nth_error_map in H.
  destruct (nth_error (seq 0 (Z.to_nat n)) k) as [i |] eqn:E; [| discriminate].
  apply nth_error_seq_inv in E. injection H as <-. destruct E as [-> Hk].
  auto.
Qed.

Lemma length_range n : List.length (range n) = Z.to_nat n.
Proof. unfold range. rewrite length_map, length_seq. reflexivity. Qed.

Lemma nth_error_combine_seq {A} (xs : list A) k i x :
  nth_error (combine (seq 0 (List.length xs)) xs) k = Some (i, x) ->
  i = k /\ nth_error xs k = Some x.
Proof.
  assert (G : forall a (ys : list A) k i x,
             nth_error (combine (seq a (List.length ys)) ys) k = Some (i, x) ->
             i = (a + k)%nat /\ nth_error ys k = Some x).
  { intros a ys. revert a. induction ys as [| y ys IH]; intros a j i' x' H; simpl in H.
    - destruct j; discriminate.
    - destruct j as [| j]; simpl in H.
      + injection H as <- <-. split; [lia | reflexivity].
      + apply IH in H. destruct H as [-> H]. split; [lia | exact H]. }
  intros H. apply G in H. exact H.
Qed.

Lemma length_combine_seq {A} (xs : list A) :
  List.length (combine (seq 0 (List.length xs)) xs) = List.length xs.
Proof. rewrite length_combine, length_seq. apply Nat.min_id. Qed.

Lemma index_ok {A} (xs : list A) i :
  (i < List.length xs)%nat -> exists a, index xs i = Ok a /\ nth_error xs i = Some a.
Proof.
  intros H. unfold index.
  destruct (nth_error xs i) as [a |] eqn:E; [eauto |].
  apply nth_error_None in E. lia.
Qed.

Lemma firstn_succ_snoc {A} (xs : list A) k x :
  nth_error xs k = Some x -> firstn (S k) xs = firstn k xs ++ [x].
Proof.
  revert k. induction xs as [| y xs IH]; intros k H.
  - destruct k; discriminate.
  - destruct k as [| k]; simpl in *.
    + injection H as ->. reflexivity.
    + f_equal. apply IH. exact H.
Qed.

End Loops.

(** ** Configurations *)

Lemma dict_get_keys (d : list (Z * Z)) (k : Z) :
  In k (map fst d) -> exists v, dict_get d k = Ok v.
Proof.
  induction d as [| [k' v] d IH]; simpl; intros H; [contradiction |].
  destruct (k' =? k) eqn:E; [eauto |].
  destruct H as [H | H]; [apply Z.eqb_neq in E; contradiction | auto].
Qed.

Lemma well_formed_seed config k :
  well_formed config -> 0 <= k <= 5 ->
  exists seed, dict_get (layer_seeds config) k = Ok seed.
Proof.
  intros H Hk. apply dict_get_keys. rewrite H. simpl. lia.
Qed.

(** ** The constructor of the configuration never raises *)

Section ConfigFacts.

Lemma round_length st kw : List.length (SHA256.round st kw) = List.length st.
Proof.
  destruct st as [| a [| b [| c [| d [| e [| f [| g [| h [| i t]]]]]]]]];
    reflexivity.
Qed.

Lemma compress_length h block :
  List.length (SHA256.compress h block) = List.length h.
Proof.
  unfold SHA256.compress.
  rewrite length_map, length_combine.
  assert (H : forall kws st,
             List.length (fold_left SHA256.round kws st) = List.length st).
  { induction kws as [| kw kws IH]; intros st; simpl; [reflexivity |].
    rewrite IH. apply round_length. }
  rewrite H. apply Nat.min_id.
Qed.

Lemma digest_length msg : List.length (SHA256.digest msg) = 8%nat.
Proof.
  unfold SHA256.digest.
  assert (H : forall bs h,
             List.length (fold_left SHA256.compress bs h) = List.length h).
  { induction bs as [| b bs IH]; intros h; simpl; [reflexivity |].
    rewrite IH. apply compress_length. }
  rewrite H. reflexivity.
Qed.

Lemma hex_value_digit d :
  0 <= d < 16 -> PyStr.hex_value (PyStr.hex_digit d) = Some d.
Proof.
  intros Hd.
  assert (H : d = 0 \/ d = 1 \/ d = 2 \/ d = 3 \/ d = 4 \/ d = 5 \/ d = 6
              \/ d = 7 \/ d = 8 \/ d = 9 \/ d = 10 \/ d = 11 \/ d = 12
              \/ d = 13 \/ d = 14 \/ d = 15) by lia.
  repeat (destruct H as [-> | H]; [reflexivity |]). subst d. reflexivity.
Qed.

Lemma nibble_range x : 0 <= Z.land x 0xF < 16.
Proof.
  change 0xF with (Z.ones 4). rewrite Z.land_ones by lia.
  apply Z.mod_pos_bound. lia.
Qed.

(** The hash of any message starts with 16 hexadecimal digits, which
    [int(_, 16)] reads. *)
Lemma int_of_hexdigest_ok msg :
  exists s, PyStr.int_base16 (substring 0 16 (SHA256.hexdigest msg)) = Ok s.
Proof.
  unfold SHA256.hexdigest.
  pose proof (digest_length msg) as Hl.
  destruct (SHA256.digest msg)
    as [| a [| b [| c [| d [| e [| f [| g [| h [| i t]]]]]]]]]; try discriminate.
  unfold SHA256.hex32.
  cbn [map seq string_of_list_ascii String.concat String.append substring
       Nat.sub Z.of_nat Pos.of_succ_nat Pos.succ Z.mul Pos.mul PyStr.int_base16
       PyStr.int_base16_from].
  repeat rewrite (hex_value_digit _ (nibble_range _)).
  cbn [PyStr.int_base16_from].
  repeat rewrite (hex_value_digit _ (nibble_range _)).
  eexists. reflexivity.
Qed.

Lemma derive_layer_seed_ok master_seed layer_id cx cy cz :
  exists s, derive_layer_seed master_seed layer_id cx cy cz = Ok s.
Proof. unfold derive_layer_seed. apply int_of_hexdigest_ok. Qed.

(** The constructor returns a well-formed configuration that holds its
    four arguments. *)
Lemma GenerationConfig_init_ok ms ct d cc :
  exists config,
    GenerationConfig_init ms ct d cc = Ok config
    /\ well_formed config
    /\ master_seed config = ms /\ content_type config = ct
    /\ density config = d /\ chunk_coords config = cc
    /\ forall k, 0 <= k <= 5 ->
         dict_get (layer_seeds config) k
         = derive_layer_seed ms k (fst (fst cc)) (snd (fst cc)) (snd cc).
Proof.
  destruct cc as [[cx cy] cz]. unfold GenerationConfig_init.
  change (range 6) with [0; 1; 2; 3; 4; 5].
  destruct (derive_layer_seed_ok ms 0 cx cy cz) as [s0 E0].
  destruct (derive_layer_seed_ok ms 1 cx cy cz) as [s1 E1].
  destruct (derive_layer_seed_ok ms 2 cx cy cz) as [s2 E2].
  destruct (derive_layer_seed_ok ms 3 cx cy cz) as [s3 E3].
  destruct (derive_layer_seed_ok ms 4 cx cy cz) as [s4 E4].
  destruct (derive_layer_seed_ok ms 5 cx cy cz) as [s5 E5].
  cbn [for_res]. unfold res_bind.
  rewrite E0, E1, E2, E3, E4, E5. cbn [app].
  eexists. split; [reflexivity |]. repeat split.
  intros k Hk. cbn [layer_seeds fst snd].
  assert (H : k = 0 \/ k = 1 \/ k = 2 \/ k = 3 \/ k = 4 \/ k = 5) by lia.
  destruct H as [-> | [-> | [-> | [-> | [-> | ->]]]]]; symmetry; assumption.
Qed.

End ConfigFacts.

(** ** A density whose product with 16 overflows *)

Lemma overflowing_density :
  PyFloat.to_int (1e308 * 16)%float = Raise OverflowError.
Proof. vm_compute. reflexivity. Qed.

(** C9. At density 1e308, a finite value outside [0, 1], the product
    [density * 16] is infinite and [int()] raises [OverflowError] in
    Layer 1: whatever the master seed, the content type and the chunk,
    the run does not complete. *)
Theorem huge_density_raises :
  forall (L : Libm) (master_seed : Z) (content_type : string)
         (chunk_coords : Z * Z * Z) (output_format : string) (w : World),
    PyFloat.is_finite 1e308 = true
    /\ outcome (run_pipeline master_seed content_type 1e308 chunk_coords
                             output_format w)
       = Raise OverflowError.
Proof.
  intros L ms ct cc fmt w. split; [reflexivity |].
  destruct (GenerationConfig_init_ok ms ct 1e308%float cc)
    as (config & Einit & Hwf & _ & _ & Hd & _ & _).
  destruct (well_formed_seed config 1 Hwf ltac:(lia)) as [seed Hseed].
  unfold run_pipeline, layer_1_spatial_distribution, layer_1_grid, outcome,
    bind, print, lift.
  rewrite Einit, Hseed, Hd, overflowing_density. reflexivity.
Qed.

(** ** Layer 3: the mesh of a skeleton *)

Section MeshFacts.
Context {L : Libm}.
Import PyFloat.

Lemma ring_angle_ok rad k :
  nth_error (range radial_divisions) k = Some rad ->
  of_int rad = Ok (lit rad)
  /\ is_infinity (2 * pi * lit rad / lit radial_divisions)%float = false.
Proof.
  intros H. apply nth_error_range_inv in H. destruct H as [-> Hk].
  change (Z.to_nat radial_divisions) with 8%nat in Hk.
  do 8 (destruct k as [| k]; [vm_compute; auto |]). lia.
Qed.

Lemma ring_vertex_ok bone_idx t px py pz radius acc rad k :
  nth_error (range radial_divisions) k = Some rad ->
  exists v,
    ring_vertex bone_idx t px py pz radius acc rad
    = Ok {| acc_vertices := acc_vertices acc ++ [v];
            acc_indices := acc_indices acc;
            acc_weights := acc_weights acc ++
              [ {| Weight.bone := bone_idx;
                   Weight.weight_from := round4 (1 - t);
                   Weight.weight_to := round4 t |} ] |}.
Proof.
  intros H. destruct (ring_angle_ok rad k H) as [E1 E2].
  unfold ring_vertex, math_cos, math_sin.
  rewrite E1. unfold res_bind. rewrite E2.
  eexists. reflexivity.
Qed.

(** One ring: eight vertices, each with the weight entry of the ring. *)
Lemma ring_loop_ok bone_idx t px py pz radius acc :
  exists vs,
    List.length vs = 8%nat
    /\ for_res (range radial_divisions)
               (ring_vertex bone_idx t px py pz radius) acc
       = Ok {| acc_vertices := acc_vertices acc ++ vs;
               acc_indices := acc_indices acc;
               acc_weights := acc_weights acc ++
                 repeat {| Weight.bone := bone_idx;
                           Weight.weight_from := round4 (1 - t);
                           Weight.weight_to := round4 t |} 8 |}.
Proof.
  set (w := {| Weight.bone := bone_idx;
               Weight.weight_from := round4 (1 - t);
               Weight.weight_to := round4 t |}).
  destruct (for_res_invariant
              (ring_vertex bone_idx t px py pz radius)
              (fun k acc' => exists vs, List.length vs = k /\
                 acc' = {| acc_vertices := acc_vertices acc ++ vs;
                           acc_indices := acc_indices acc;
                           acc_weights := acc_weights acc ++ repeat w k |})
              (range radial_divisions) acc) as [acc' [E [vs [Hl ->]]]].
  - exists []. split; [reflexivity |]. simpl. rewrite !app_nil_r.
    destruct acc; reflexivity.
  - intros k rad s Hk [vs [Hl ->]].
    destruct (ring_vertex_ok bone_idx t px py pz radius
                {| acc_vertices := acc_vertices acc ++ vs;
                   acc_indices := acc_indices acc;
                   acc_weights := acc_weights acc ++ repeat w k |} rad k Hk)
      as [v Ev].
    eexists. split; [exact Ev |].
    exists (vs ++ [v]). split; [rewrite length_app; simpl; lia |].
    simpl. rewrite <- !app_assoc. f_equal. f_equal.
    change (w :: repeat w k) with (repeat w (S k)).
    rewrite <- repeat_cons. reflexivity.
  - exists vs. split; [exact Hl | exact E].
Qed.

Lemma fold_ring_quad base_v next_base xs :
  forall acc,
    fold_left (ring_quad base_v next_base) xs acc
    = {| acc_vertices := acc_vertices acc;
         acc_indices := acc_indices acc ++ flat_map (quad base_v next_base) xs;
         acc_weights := acc_weights acc |}.
Proof.
  induction xs as [| x xs IH]; intros acc; simpl.
  - rewrite app_nil_r. destruct acc; reflexivity.
  - rewrite IH. unfold ring_quad, quad, radial_divisions.
    cbn [acc_vertices acc_indices acc_weights flat_map].
    rewrite <- app_assoc. reflexivity.
Qed.

Lemma quads_length base_v next_base :
  List.length (flat_map (quad base_v next_base) (range radial_divisions)) = 48%nat.
Proof. reflexivity. Qed.

Lemma quads_bound base_v :
  Forall (fun i => base_v <= i < base_v + 16)
         (flat_map (quad base_v (base_v + 8)) (range radial_divisions)).
Proof.
  apply Forall_flat_map. apply Forall_forall. intros rad Hin.
  apply In_nth_error in Hin. destruct Hin as [k Hk].
  apply nth_error_range_inv in Hk. destruct Hk as [-> Hk].
  change (Z.to_nat radial_divisions) with 8%nat in Hk.
  pose proof (Z.mod_pos_bound (Z.of_nat k + 1) 8 ltac:(lia)) as Hm.
  unfold quad. repeat constructor; lia.
Qed.

Lemma weight_ok_ring bone_idx k :
  (k < 7)%nat ->
  weight_ok {| Weight.bone := bone_idx;
               Weight.weight_from :=
                 round4 (1 - int_truediv (Z.of_nat k) segments_per_bone);
               Weight.weight_to :=
                 round4 (int_truediv (Z.of_nat k) segments_per_bone) |}.
Proof.
  intros Hk. unfold weight_ok. simpl. split.
  - do 7 (destruct k as [| k]; [vm_compute; reflexivity |]). lia.
  - exists (Z.of_nat k). split; [lia | split; reflexivity].
Qed.

(** One more ring of a bone. *)
Lemma bone_ring_ok bone_idx j_from dx dy dz base_radius V0 I0 k acc :
  (k < 7)%nat ->
  rings_done V0 I0 k acc ->
  exists acc',
    bone_ring bone_idx j_from dx dy dz base_radius acc (Z.of_nat k) = Ok acc'
    /\ rings_done V0 I0 (S k) acc'.
Proof.
  intros Hk (HV & HW & HWok & HI & HIb).
  unfold bone_ring.
  match goal with
  | |- context [for_res _ (ring_vertex ?i ?t ?px ?py ?pz ?r) acc] =>
      destruct (ring_loop_ok i t px py pz r acc) as [vs [Hvs E]]
  end.
  rewrite E. unfold res_bind.
  assert (HWok' : Forall weight_ok
            (acc_weights acc ++
             repeat {| Weight.bone := bone_idx;
                       Weight.weight_from :=
                         round4 (1 - int_truediv (Z.of_nat k) segments_per_bone);
                       Weight.weight_to :=
                         round4 (int_truediv (Z.of_nat k) segments_per_bone) |} 8)).
  { apply Forall_app. split; [exact HWok |].
    apply Forall_forall. intros w Hw. apply repeat_spec in Hw. subst w.
    apply weight_ok_ring. exact Hk. }
  destruct (Z.of_nat k <? segments_per_bone) eqn:Hseg.
  - apply Z.ltb_lt in Hseg. unfold segments_per_bone in Hseg.
    eexists. split; [reflexivity |].
    rewrite fold_ring_quad. unfold rings_done. cbn [acc_vertices acc_indices acc_weights].
    rewrite !length_app, !repeat_length, quads_length, Hvs, HV, HW, HV, HI.
    repeat split; try lia.
    + exact HWok'.
    + apply Forall_app. split.
      * eapply Forall_impl; [| exact HIb]. cbv beta. intros i Hi. lia.
      * unfold len. cbn [acc_vertices acc_indices acc_weights]. rewrite length_app, Hvs, HV.
        replace (Z.of_nat (V0 + 8 * k + 8) - radial_divisions + radial_divisions)
          with (Z.of_nat (V0 + 8 * k + 8) - radial_divisions + 8)
          by reflexivity.
        eapply Forall_impl; [| apply quads_bound]. cbv beta. intros i Hi.
        unfold radial_divisions in Hi. lia.
  - apply Z.ltb_ge in Hseg. unfold segments_per_bone in Hseg.
    assert (k = 6%nat) by lia. subst k.
    eexists. split; [reflexivity |].
    unfold rings_done. cbn [acc_vertices acc_indices acc_weights].
    rewrite !length_app, !repeat_length, Hvs, HV, HW, HV, HI.
    repeat split; try lia.
    + exact HWok'.
    + eapply Forall_impl; [| exact HIb]. cbv beta. intros i Hi. lia.
Qed.

(** The seven rings of a bone. *)
Lemma bone_rings_ok bone_idx j_from dx dy dz base_radius c acc :
  tubes_done c acc ->
  exists acc',
    for_res (range (segments_per_bone + 1))
            (bone_ring bone_idx j_from dx dy dz base_radius) acc = Ok acc'
    /\ tubes_done (S c) acc'.
Proof.
  intros (HV & HW & HWok & HI & HIb).
  destruct (for_res_invariant
              (bone_ring bone_idx j_from dx dy dz base_radius)
              (rings_done (56 * c) (288 * c))
              (range (segments_per_bone + 1)) acc)
    as [acc' [E (HV' & HW' & HWok' & HI' & HIb')]].
  - unfold rings_done. cbn [acc_vertices acc_indices acc_weights]. repeat split; try lia; try assumption.
    eapply Forall_impl; [| exact HIb]. cbv beta. unfold len. intros i Hi. lia.
  - intros k seg s Hk Hs. apply nth_error_range_inv in Hk.
    destruct Hk as [-> Hk]. apply bone_ring_ok; assumption.
  - exists acc'. split; [exact E |].
    rewrite length_range in *. change (Z.to_nat (segments_per_bone + 1)) with 7%nat in *.
    unfold tubes_done. repeat split; try lia; try assumption.
    eapply Forall_impl; [| exact HIb']. cbv beta. unfold len. intros i Hi. lia.
Qed.

Lemma bound_check_in_range joints bone :
  (List.length joints <=? Bone.from bone)%nat
  || (List.length joints <=? Bone.to bone)%nat
  = negb (bone_in_range joints bone).
Proof.
  unfold bone_in_range.
  destruct (Nat.leb_spec (List.length joints) (Bone.from bone));
    destruct (Nat.leb_spec (List.length joints) (Bone.to bone));
    destruct (Nat.ltb_spec (Bone.from bone) (List.length joints));
    destruct (Nat.ltb_spec (Bone.to bone) (List.length joints));
    simpl; try reflexivity; lia.
Qed.

(** One bone: nothing when an endpoint fails the bound check, a tube of
    seven rings otherwise. *)
Lemma bone_tube_ok joints rng acc bone_idx bone c :
  tubes_done c acc ->
  exists rng' acc',
    bone_tube joints (rng, acc) (bone_idx, bone) = Ok (rng', acc')
    /\ tubes_done (if bone_in_range joints bone then S c else c) acc'.
Proof.
  intros H. unfold bone_tube. rewrite bound_check_in_range.
  destruct (bone_in_range joints bone) eqn:Hin; cbn [negb].
  - unfold bone_in_range in Hin. apply andb_prop in Hin. destruct Hin as [Hf Ht].
    apply Nat.ltb_lt in Hf, Ht.
    destruct (index_ok joints _ Hf) as [j_from [Ef _]].
    destruct (index_ok joints _ Ht) as [j_to [Et _]].
    rewrite Ef, Et. unfold res_bind at 1 2. unfold math_sqrt.
    rewrite sum_of_squares_not_negative. unfold res_bind at 1.
    destruct (next_range rng 0.1 0.5) as [base_radius rng'].
    match goal with
    | |- context [for_res _ (bone_ring ?i ?j ?dx ?dy ?dz ?r) acc] =>
        destruct (bone_rings_ok i j dx dy dz r c acc H) as [acc' [E H']]
    end.
    rewrite E. simpl. eauto.
  - eauto.
Qed.

(** The whole mesh: every bone that passes the bound check adds 56
    vertices, 56 weights and 288 indices, the others add nothing. *)
Lemma layer_3_build_ok rng skeleton :
  exists mesh,
    layer_3_build rng skeleton = Ok mesh
    /\ len (vertices mesh) = 56 * in_range_bones skeleton
    /\ List.length (skinning_weights mesh) = List.length (vertices mesh)
    /\ Forall weight_ok (skinning_weights mesh)
    /\ len (indices mesh) = 288 * in_range_bones skeleton
    /\ Forall (fun i => 0 <= i < len (vertices mesh)) (indices mesh)
    /\ triangle_count mesh = 96 * in_range_bones skeleton.
Proof.
  unfold layer_3_build.
  set (count k := List.length (filter (bone_in_range (joints skeleton))
                                      (firstn k (bones skeleton)))).
  destruct (for_res_invariant
              (bone_tube (joints skeleton))
              (fun k st => tubes_done (count k) (snd st))
              (combine (seq 0 (List.length (bones skeleton))) (bones skeleton))
              (rng, {| acc_vertices := []; acc_indices := []; acc_weights := [] |}))
    as [[rng' acc'] [E H]].
  - unfold tubes_done, count. simpl. repeat split; constructor.
  - intros k [i bone] [r acc] Hk Hacc. simpl in Hacc.
    apply nth_error_combine_seq in Hk. destruct Hk as [-> Hk].
    destruct (bone_tube_ok (joints skeleton) r acc k bone _ Hacc) as [r' [acc1 [E1 H1]]].
    exists (r', acc1). split; [exact E1 |]. simpl.
    unfold count. rewrite (firstn_succ_snoc (bones skeleton) k bone Hk), filter_app, length_app. simpl.
    destruct (bone_in_range (joints skeleton) bone); simpl.
    + fold (count k). replace (count k + 1)%nat with (S (count k)) by lia. exact H1.
    + fold (count k). rewrite Nat.add_0_r. exact H1.
  - rewrite E. unfold res_bind. eexists. split; [reflexivity |].
    rewrite length_combine_seq in H. unfold count in H.
    rewrite firstn_all in H. cbn [snd] in H.
    destruct H as (HV & HW & HWok & HI & HIb).
    unfold in_range_bones, len in *.
    cbn [vertices indices skinning_weights triangle_count].
    set (c := List.length (filter (bone_in_range (joints skeleton))
                                  (bones skeleton))) in *.
    rewrite HV, HI. repeat split; try assumption; try lia.
    + rewrite HV in HIb. exact HIb.
    + replace (Z.of_nat (288 * c)) with (96 * Z.of_nat c * 3) by lia.
      rewrite Z.div_mul by lia. reflexivity.
Qed.

(** The function itself: its two [print]s around [layer_3_build]. *)
Lemma layer_3_runs config skeleton w :
  well_formed config ->
  exists seed mesh w',
    dict_get (layer_seeds config) 3 = Ok seed
    /\ layer_3_build (SeededRNG_init seed) skeleton = Ok mesh
    /\ layer_3_mesh_geometry config skeleton w = (Ok mesh, w').
Proof.
  intros Hwf.
  destruct (well_formed_seed config 3 Hwf ltac:(lia)) as [seed Es].
  destruct (layer_3_build_ok (SeededRNG_init seed) skeleton) as [mesh [Em _]].
  exists seed, mesh. eexists. split; [exact Es | split; [exact Em |]].
  unfold layer_3_mesh_geometry, bind, lift, print, ret.
  rewrite Es, Em. reflexivity.
Qed.

End MeshFacts.

(** The test vector of the standard for the message "abc". *)
Example sha256_abc :
  SHA256.hexdigest (PyStr.encode "abc")
  = "ba7816bf8f01cfea414140de5dae2223b00361a396177a9cb410ff61f20015ad"%string.
Proof. vm_compute. reflexivity. Qed.

Example sample_config_built :
  GenerationConfig_init 42 "creature" 0.75 (0, 0, 0) = Ok sample_config.
Proof. vm_compute. reflexivity. Qed.







(** ** Trees of bones *)

Section BoneGraphs.

Lemma adjacent_sym bs u v : adjacent bs u v -> adjacent bs v u.
Proof. intros [b [Hb H]]. exists b. tauto. Qed.

Lemma linked_refl bs u : linked bs u u.
Proof. apply rt_refl. Qed.

Lemma linked_trans bs u v t : linked bs u v -> linked bs v t -> linked bs u t.
Proof. intros H1 H2. eapply rt_trans; eassumption. Qed.

Lemma linked_sym bs u v : linked bs u v -> linked bs v u.
Proof.
  intros H. induction H as [x y H | x | x y z _ IH1 _ IH2].
  - apply rt_step, adjacent_sym, H.
  - apply rt_refl.
  - eapply rt_trans; eassumption.
Qed.

Lemma adjacent_mono bs bs' u v :
  incl bs bs' -> adjacent bs u v -> adjacent bs' u v.
Proof. intros Hi [b [Hb H]]. exists b. split; [apply Hi, Hb | exact H]. Qed.

Lemma linked_mono bs bs' u v : incl bs bs' -> linked bs u v -> linked bs' u v.
Proof.
  intros Hi H. induction H as [x y H | x | x y z _ IH1 _ IH2].
  - apply rt_step. eapply adjacent_mono; eassumption.
  - apply rt_refl.
  - eapply rt_trans; eassumption.
Qed.

(** A path ends where it starts or at an endpoint of a bone. *)
Lemma linked_touch bs u v :
  linked bs u v ->
  u = v \/ exists b, In b bs /\ (Bone.from b = v \/ Bone.to b = v).
Proof.
  intros H. apply clos_rt_rtn1 in H. induction H as [| y z Hyz _ _].
  - left. reflexivity.
  - right. destruct Hyz as [b [Hb H]]. exists b. split; [exact Hb | tauto].
Qed.

(** A joint hanging from a single bone adds no path between the others. *)
Lemma linked_leaf bs e i j :
  Bone.from e = i -> Bone.to e = j -> i <> j ->
  (forall b, In b bs -> Bone.from b <> j /\ Bone.to b <> j) ->
  forall u v,
    linked (bs ++ [e]) u v -> u <> j ->
    (v <> j -> linked bs u v) /\ (v = j -> linked bs u i).
Proof.
  intros Hf Ht Hij Hfree u v H Hu.
  apply clos_rt_rtn1 in H. induction H as [| y z Hyz _ IH].
  - split; [intros _; apply rt_refl | intros E; contradiction].
  - destruct IH as [IH1 IH2].
    destruct Hyz as [b [Hb Hends]].
    apply in_app_or in Hb. destruct Hb as [Hb | [<- | []]].
    + destruct (Hfree b Hb) as [Hbf Hbt].
      assert (Hy : y <> j) by (destruct Hends as [[<- _] | [_ <-]]; assumption).
      assert (Hz : z <> j) by (destruct Hends as [[_ <-] | [<- _]]; assumption).
      split; [intros _ | intros E; contradiction].
      eapply rt_trans; [apply IH1, Hy |].
      apply rt_step. exists b. split; assumption.
    + rewrite Hf, Ht in Hends. destruct Hends as [[<- <-] | [<- <-]].
      * split; [intros E; exfalso; apply E; reflexivity | intros _].
        apply IH1. exact Hij.
      * split; [intros _ | intros E; exfalso; apply Hij; exact E].
        apply IH2. reflexivity.
Qed.

Lemma without_incl k bs : incl (without k bs) bs.
Proof.
  unfold without. intros b Hb. apply in_app_or in Hb. destruct Hb as [Hb | Hb].
  - rewrite <- (firstn_skipn k bs). apply in_or_app. left. exact Hb.
  - rewrite <- (firstn_skipn (S k) bs). apply in_or_app. right. exact Hb.
Qed.

Lemma without_snoc_old k bs e :
  (k < List.length bs)%nat -> without k (bs ++ [e]) = without k bs ++ [e].
Proof.
  intros Hk. unfold without.
  rewrite firstn_app, skipn_app.
  replace (k - List.length bs)%nat with 0%nat by lia.
  replace (S k - List.length bs)%nat with 0%nat by lia.
  simpl. rewrite app_nil_r, app_assoc. reflexivity.
Qed.

Lemma without_snoc_new bs e : without (List.length bs) (bs ++ [e]) = bs.
Proof.
  unfold without.
  rewrite firstn_app, skipn_app, Nat.sub_diag, firstn_all.
  replace (S (List.length bs) - List.length bs)%nat with 1%nat by lia.
  rewrite (skipn_all2 bs) by lia. simpl. rewrite !app_nil_r. reflexivity.
Qed.

(** Hanging a new joint from a bone keeps a bone list acyclic. *)
Lemma acyclic_snoc bs e :
  acyclic bs ->
  Bone.from e <> Bone.to e ->
  (forall b, In b bs -> Bone.from b <> Bone.to e /\ Bone.to b <> Bone.to e) ->
  acyclic (bs ++ [e]).
Proof.
  intros Hac Hne Hfree k b Hk Hlink.
  destruct (Nat.lt_ge_cases k (List.length bs)) as [Hlt | Hge].
  - rewrite nth_error_app1 in Hk by exact Hlt.
    rewrite (without_snoc_old k bs e Hlt) in Hlink.
    assert (Hb : In b bs) by (eapply nth_error_In; eassumption).
    destruct (Hfree b Hb) as [Hbf Hbt].
    assert (Hfree' : forall b', In b' (without k bs) ->
              Bone.from b' <> Bone.to e /\ Bone.to b' <> Bone.to e).
    { intros b' Hb'. apply Hfree, (without_incl k bs), Hb'. }
    destruct (linked_leaf (without k bs) e (Bone.from e) (Bone.to e)
                eq_refl eq_refl Hne Hfree' _ _ Hlink Hbf) as [H1 _].
    apply (Hac k b Hk), H1, Hbt.
  - rewrite nth_error_app2 in Hk by exact Hge.
    destruct (k - List.length bs)%nat as [| d] eqn:Ed; simpl in Hk.
    + injection Hk as <-.
      assert (k = List.length bs) by lia. subst k.
      rewrite without_snoc_new in Hlink.
      apply linked_touch in Hlink. destruct Hlink as [E | [b [Hb Hend]]].
      * contradiction.
      * destruct (Hfree b Hb) as [Hbf Hbt]. tauto.
    + destruct d; discriminate.
Qed.

Lemma acyclic_nil : acyclic [].
Proof. intros k b H. destruct k; discriminate. Qed.

End BoneGraphs.

(** ** Lists of flags *)

Section Flags.

Lemma nth_error_list_set {A} (l : list A) j v i :
  nth_error (list_set l j v) i
  = if (i =? j)%nat then (if (j <? List.length l)%nat then Some v else None)
    else nth_error l i.
Proof.
  revert j i. induction l as [| a l IH]; intros j i; simpl.
  - destruct (i =? j)%nat; destruct i; reflexivity.
  - destruct j as [| j]; destruct i as [| i]; simpl; try reflexivity.
    rewrite IH. destruct (i =? j)%nat; [| reflexivity].
    destruct (Nat.ltb_spec j (List.length l));
      destruct (Nat.ltb_spec (S j) (S (List.length l))); try reflexivity; lia.
Qed.

Lemma length_list_set {A} (l : list A) j v :
  List.length (list_set l j v) = List.length l.
Proof.
  revert j. induction l as [| a l IH]; intros j; simpl; [reflexivity |].
  destruct j; simpl; [reflexivity | rewrite IH; reflexivity].
Qed.

Lemma count_true_set l j :
  nth_error l j = Some false -> count_true (list_set l j true) = S (count_true l).
Proof.
  unfold count_true. revert j. induction l as [| a l IH]; intros j H.
  - destruct j; discriminate.
  - destruct j as [| j]; simpl in *.
    + injection H as ->. reflexivity.
    + destruct a; simpl; rewrite (IH j H); reflexivity.
Qed.

Lemma count_true_repeat_false n : count_true (repeat false n) = 0%nat.
Proof. unfold count_true. induction n; simpl; auto. Qed.

Lemma count_true_le l : (count_true l <= List.length l)%nat.
Proof. unfold count_true. apply filter_length_le. Qed.

(** Fewer flags set than flags: one is not set. *)
Lemma count_true_room l :
  (count_true l < List.length l)%nat -> exists j, nth_error l j = Some false.
Proof.
  unfold count_true. induction l as [| a l IH]; simpl; intros H; [lia |].
  destruct a.
  - simpl in H. destruct IH as [j Hj]; [lia |]. exists (S j). exact Hj.
  - exists 0%nat. reflexivity.
Qed.

(** As many flags set as flags: all are set. *)
Lemma count_true_full l :
  count_true l = List.length l ->
  forall v, (v < List.length l)%nat -> nth_error l v = Some true.
Proof.
  induction l as [| a l IH]; simpl; intros H v Hv; [lia |].
  pose proof (count_true_le l) as Hle. unfold count_true in *. simpl in H.
  destruct a; simpl in H.
  - destruct v as [| v]; simpl; [reflexivity |]. apply IH; lia.
  - lia.
Qed.

End Flags.

(** ** Layer 2: the tree growth *)

Section SkeletonFacts.
Context {L : Libm}.
Import PyFloat.

Variable subset : list Point.t.
Variable in_tree : list bool.
Let n := List.length subset.
Hypothesis Hlen : List.length in_tree = n.
Hypothesis Hfinite : finite_distances subset.

(** The inner loop, for an in-tree [i]: once an out-of-tree [j] has been
    passed, the running minimum is a candidate. *)
Lemma scan_inner_loop i b :
  nth_error in_tree i = Some true ->
  scan_state in_tree b ->
  exists b',
    for_res (seq 0 n) (scan_inner subset in_tree i) b = Ok b'
    /\ scan_state in_tree b'
    /\ ((exists j, nth_error in_tree j = Some false) -> candidate in_tree b').
Proof.
  intros Hi Hb.
  destruct (for_res_invariant
              (scan_inner subset in_tree i)
              (fun k b' => scan_state in_tree b'
                 /\ ((exists j, (j < k)%nat /\ nth_error in_tree j = Some false)
                     -> candidate in_tree b'))
              (seq 0 n) b) as [b' [E [Hs Hc]]].
  - split; [exact Hb |]. intros [j [Hj _]]. lia.
  - intros k j c Hk [Hs Hc].
    apply nth_error_seq_inv in Hk. destruct Hk as [Hj Hkn]. simpl in Hj. subst j.
    unfold scan_inner.
    destruct (index_ok in_tree k ltac:(lia)) as [in_j [Ej Hj]].
    rewrite Ej. unfold res_bind at 1.
    destruct in_j.
    + eexists. split; [reflexivity |]. split; [exact Hs |].
      intros [j [Hlt Hf]]. apply Hc. exists j. split; [| exact Hf].
      destruct (Nat.eq_dec j k) as [-> | Hne]; [congruence | lia].
    + assert (Hin : (i < n)%nat).
      { rewrite <- Hlen. apply nth_error_Some. congruence. }
      destruct (index_ok subset i Hin) as [p_i [Ei Hpi]].
      destruct (index_ok subset k Hkn) as [p_j [Ek Hpj]].
      rewrite Ei, Ek. unfold res_bind at 1 2.
      assert (Hik : i <> k) by congruence.
      destruct (Hfinite i k p_i p_j Hik Hpi Hpj) as [d [Ed Hd]].
      rewrite Ed. unfold res_bind.
      destruct (d <? best_dist c)%float eqn:Hlt.
      * eexists. split; [reflexivity |].
        assert (candidate in_tree {| best_dist := d; best_i := i; best_j := k |})
          by (unfold candidate; simpl; auto).
        split; [right; assumption | intros _; assumption].
      * eexists. split; [reflexivity |]. split; [exact Hs |]. intros _.
        destruct Hs as [Hinf | Hcand]; [| exact Hcand].
        rewrite Hinf in Hlt. congruence.
  - rewrite length_seq in Hc. exists b'. split; [exact E |]. split; [exact Hs |].
    intros [j Hj]. apply Hc. exists j. split; [| exact Hj].
    rewrite <- Hlen. apply nth_error_Some. congruence.
Qed.

(** The whole scan: with an in-tree point and an out-of-tree point, it
    ends on a candidate. *)
Lemma scan_outer_loop :
  (exists i, nth_error in_tree i = Some true) ->
  (exists j, nth_error in_tree j = Some false) ->
  exists b,
    for_res (seq 0 n) (scan_outer subset in_tree n)
            {| best_dist := infinity; best_i := 0; best_j := 0 |} = Ok b
    /\ candidate in_tree b.
Proof.
  intros [i0 Hi0] Hout.
  destruct (for_res_invariant
              (scan_outer subset in_tree n)
              (fun k b => scan_state in_tree b
                 /\ ((exists i, (i < k)%nat /\ nth_error in_tree i = Some true)
                     -> candidate in_tree b))
              (seq 0 n) {| best_dist := infinity; best_i := 0; best_j := 0 |})
    as [b [E [Hs Hc]]].
  - split; [left; reflexivity |]. intros [i [Hi _]]. lia.
  - intros k i c Hk [Hs Hc].
    apply nth_error_seq_inv in Hk. destruct Hk as [Hi Hkn]. simpl in Hi. subst i.
    unfold scan_outer.
    destruct (index_ok in_tree k ltac:(lia)) as [in_i [Ei Hi]].
    rewrite Ei. unfold res_bind.
    destruct in_i; simpl.
    + destruct (scan_inner_loop k c Hi Hs) as [b' [E' [Hs' Hc']]].
      exists b'. split; [exact E' |]. split; [exact Hs' |].
      intros _. apply Hc', Hout.
    + eexists. split; [reflexivity |]. split; [exact Hs |].
      intros [i [Hlt Ht]]. apply Hc. exists i. split; [| exact Ht].
      destruct (Nat.eq_dec i k) as [-> | Hne]; [congruence | lia].
  - rewrite length_seq in Hc. exists b. split; [exact E |].
    apply Hc. exists i0. split; [| exact Hi0].
    rewrite <- Hlen. apply nth_error_Some. congruence.
Qed.

End SkeletonFacts.

Section TreeGrowth.
Context {L : Libm}.
Import PyFloat.

(** One round joins one more point and keeps the tree a tree. *)
Lemma prim_round_ok subset rng in_tree bs k x :
  finite_distances subset ->
  (S k < List.length subset)%nat ->
  grown (List.length subset) k in_tree bs ->
  exists rng' in_tree' bs',
    prim_round subset (List.length subset) (rng, in_tree, bs) x
    = Ok (rng', in_tree', bs')
    /\ grown (List.length subset) (S k) in_tree' bs'.
Proof.
  intros Hfin Hk (Hlen & Hroot & Hcount & Hbs & Hends & Hlink & Hac).
  destruct (scan_outer_loop subset in_tree Hlen Hfin) as [b [E (Hd & Hi & Hj)]].
  - exists 0%nat. exact Hroot.
  - apply count_true_room. lia.
  - unfold prim_round. rewrite E. unfold res_bind at 1. rewrite Hd.
    assert (Hjn : (best_j b < List.length in_tree)%nat)
      by (apply nth_error_Some; congruence).
    unfold list_assign. apply Nat.ltb_lt in Hjn. rewrite Hjn.
    apply Nat.ltb_lt in Hjn. unfold res_bind.
    destruct (next_range rng 0.3 1) as [s rng'].
    eexists _, _, _. split; [reflexivity |].
    set (e := {| Bone.from := best_i b; Bone.to := best_j b;
                 Bone.length := round4 (best_dist b);
                 Bone.stiffness := round4 s |}).
    assert (Hset : forall v, nth_error in_tree v = Some true ->
                     nth_error (list_set in_tree (best_j b) true) v = Some true).
    { intros v Hv. rewrite nth_error_list_set.
      destruct (v =? best_j b)%nat eqn:Ev; [| exact Hv].
      apply Nat.ltb_lt in Hjn. rewrite Hjn. reflexivity. }
    assert (Hnew : nth_error (list_set in_tree (best_j b) true) (best_j b) = Some true).
    { rewrite nth_error_list_set, Nat.eqb_refl.
      apply Nat.ltb_lt in Hjn. rewrite Hjn. reflexivity. }
    unfold grown. repeat split.
    + rewrite length_list_set. exact Hlen.
    + apply Hset, Hroot.
    + rewrite (count_true_set in_tree (best_j b) Hj), Hcount. reflexivity.
    + rewrite length_app, Hbs. simpl. lia.
    + apply in_app_or in H. destruct H as [H | [<- | []]].
      * apply Hset, (Hends b0 H).
      * simpl. apply Hset, Hi.
    + apply in_app_or in H. destruct H as [H | [<- | []]].
      * apply Hset, (Hends b0 H).
      * simpl. exact Hnew.
    + intros v Hv. rewrite nth_error_list_set in Hv.
      destruct (v =? best_j b)%nat eqn:Ev.
      * apply Nat.eqb_eq in Ev. subst v.
        eapply rt_trans.
        -- apply (linked_mono bs (bs ++ [e])); [apply incl_appl, incl_refl |].
           apply Hlink, Hi.
        -- apply rt_step. exists e. split; [apply in_or_app; right; left; reflexivity |].
           left. split; reflexivity.
      * apply (linked_mono bs (bs ++ [e])); [apply incl_appl, incl_refl |].
        apply Hlink, Hv.
    + apply acyclic_snoc; [exact Hac | |].
      * simpl. intros Eij. rewrite Eij in Hi. congruence.
      * intros b' Hb'. destruct (Hends b' Hb') as [Hf Ht]. simpl.
        split; intros Eq; rewrite Eq in *; congruence.
Qed.

(** The [n - 1] rounds. *)
Lemma prim_rounds_ok subset rng :
  finite_distances subset ->
  (2 <= List.length subset)%nat ->
  exists rng' in_tree bs,
    for_res (seq 0 (List.length subset - 1))
            (prim_round subset (List.length subset))
            (rng, list_set (repeat false (List.length subset)) 0 true, [])
    = Ok (rng', in_tree, bs)
    /\ grown (List.length subset) (List.length subset - 1) in_tree bs.
Proof.
  intros Hfin Hn.
  set (n := List.length subset) in *.
  destruct (for_res_invariant
              (prim_round subset n)
              (fun k st => grown n k (snd (fst st)) (snd st))
              (seq 0 (n - 1))
              (rng, list_set (repeat false n) 0 true, []))
    as [[[rng' in_tree] bs] [E H]].
  - unfold grown. cbn [fst snd]. repeat split.
    + rewrite length_list_set, repeat_length. reflexivity.
    + rewrite nth_error_list_set, repeat_length. cbn [Nat.eqb].
      destruct (Nat.ltb_spec 0 n); [reflexivity | lia].
    + rewrite count_true_set, count_true_repeat_false; [reflexivity |].
      destruct n; [lia | reflexivity].
    + contradiction.
    + contradiction.
    + intros v Hv. rewrite nth_error_list_set in Hv.
      destruct (v =? 0)%nat eqn:Ev.
      * apply Nat.eqb_eq in Ev. subst v. apply rt_refl.
      * exfalso. destruct (nth_error (repeat false n) v) as [f |] eqn:Ef;
          [| discriminate].
        apply nth_error_In, repeat_spec in Ef. congruence.
    + apply acyclic_nil.
  - intros k x [[r it] bs] Hk Hg. cbn [fst snd] in Hg.
    apply nth_error_seq_inv in Hk. destruct Hk as [_ Hk].
    destruct (prim_round_ok subset r it bs k x Hfin ltac:(unfold n in *; lia) Hg)
      as (r' & it' & bs' & E' & Hg').
    exists (r', it', bs'). split; [exact E' | exact Hg'].
  - rewrite length_seq in H. simpl in H. eauto.
Qed.

(** Counting degrees: every endpoint is a position of the counters. *)
Lemma count_degrees_ok n bs :
  (forall b, In b bs -> (Bone.from b < n)%nat /\ (Bone.to b < n)%nat) ->
  exists connectivity,
    count_degrees n bs = Ok connectivity /\ List.length connectivity = n.
Proof.
  intros Hends. unfold count_degrees.
  destruct (for_res_invariant
              (fun connectivity bone =>
                 (connectivity <- bump connectivity (Bone.from bone) ;;
                  bump connectivity (Bone.to bone))%res)
              (fun _ c => List.length c = n)
              bs (repeat 0 n)) as [c [E H]].
  - apply repeat_length.
  - intros k b c Hk Hc. apply nth_error_In in Hk.
    destruct (Hends b Hk) as [Hf Ht].
    assert (Hbump : forall c i, List.length c = n -> (i < n)%nat ->
               exists c', bump c i = Ok c' /\ List.length c' = n).
    { intros c0 i Hc0 Hi. unfold bump.
      destruct (index_ok c0 i ltac:(lia)) as [v [Ev _]]. rewrite Ev.
      unfold res_bind, list_assign.
      destruct (Nat.ltb_spec i (List.length c0)); [| lia].
      eexists. split; [reflexivity |]. rewrite length_list_set. exact Hc0. }
    destruct (Hbump c (Bone.from b) Hc Hf) as [c1 [E1 H1]].
    destruct (Hbump c1 (Bone.to b) H1 Ht) as [c2 [E2 H2]].
    exists c2. rewrite E1. unfold res_bind. split; assumption.
  - exists c. split; assumption.
Qed.

(** One classified joint per point. *)
Lemma make_joints_ok subset connectivity :
  List.length connectivity = List.length subset ->
  exists js,
    make_joints subset connectivity = Ok js
    /\ List.length js = List.length subset.
Proof.
  intros Hc. unfold make_joints.
  destruct (for_res_invariant
              (fun joints ipt =>
                 (c <- index connectivity (fst ipt) ;;
                  Ok (joints ++ [ {| Joint.point := snd ipt;
                                     Joint.joint_type := Some (classify c);
                                     Joint.connectivity := Some c |} ]))%res)
              (fun k js => List.length js = k)
              (combine (seq 0 (List.length subset)) subset) []) as [js [E H]].
  - reflexivity.
  - intros k [i p] js Hk Hjs. apply nth_error_combine_seq in Hk.
    destruct Hk as [-> Hk]. simpl.
    assert (Hkn : (k < List.length connectivity)%nat).
    { rewrite Hc. apply nth_error_Some. congruence. }
    destruct (index_ok connectivity k Hkn) as [c [Ec _]]. rewrite Ec.
    eexists. split; [reflexivity |]. rewrite length_app, Hjs. simpl. lia.
  - rewrite length_combine_seq in H. exists js. split; assumption.
Qed.

(** Everything between the two [print]s of Layer 2. *)
Lemma layer_2_build_ok rng points :
  (2 <= List.length points)%nat ->
  finite_distances (firstn 256 points) ->
  exists skeleton,
    layer_2_build rng points = Ok skeleton
    /\ List.length (joints skeleton) = List.length (firstn 256 points)
    /\ grown (List.length (firstn 256 points))
             (List.length (firstn 256 points) - 1)
             (repeat true (List.length (firstn 256 points)))
             (bones skeleton).
Proof.
  intros Hn Hfin. unfold layer_2_build.
  set (subset := firstn 256 points) in *.
  assert (Hn' : (2 <= List.length subset)%nat).
  { unfold subset. rewrite length_firstn. lia. }
  unfold list_assign. rewrite repeat_length.
  destruct (Nat.ltb_spec 0 (List.length subset)); [| lia].
  unfold res_bind at 1.
  destruct (prim_rounds_ok subset rng Hfin Hn') as (rng' & in_tree & bs & E & Hg).
  rewrite E. unfold res_bind at 1.
  pose proof Hg as (Hlen & _ & Hcount & _ & Hends & _).
  assert (Hall : forall v, (v < List.length subset)%nat ->
                   nth_error in_tree v = Some true).
  { rewrite <- Hlen. apply count_true_full. rewrite Hcount, Hlen. lia. }
  assert (Hin : in_tree = repeat true (List.length subset)).
  { apply nth_error_ext. intros v.
    destruct (Nat.lt_ge_cases v (List.length subset)) as [Hv | Hv].
    - rewrite (Hall v Hv). symmetry. apply nth_error_repeat. exact Hv.
    - rewrite (proj2 (nth_error_None _ _)) by lia.
      symmetry. apply nth_error_None. rewrite repeat_length. exact Hv. }
  destruct (count_degrees_ok (List.length subset) bs) as [c [Ec Hc]].
  { intros b Hb. destruct (Hends b Hb) as [Hf Ht].
    split; rewrite <- Hlen; apply nth_error_Some; congruence. }
  rewrite Ec. unfold res_bind at 1.
  destruct (make_joints_ok subset c Hc) as [js [Ej Hjs]].
  rewrite Ej. unfold res_bind.
  eexists. split; [reflexivity |]. simpl. split; [exact Hjs |].
  rewrite <- Hin. exact Hg.
Qed.

End TreeGrowth.

(** C3, as stated, fails: on two points whose x coordinate is infinite
    the only distance is a NaN, no pair is ever selected, and Layer 2
    returns no bone where the claim says one. *)
Lemma skeleton_bones_counterexample :
  res_map (fun sk => (len (joints sk), len (bones sk)))
    (outcome (layer_2_skeleton_topology (L := sample_libm) sample_config
                                        far_points []))
  = Ok (2, 0).
Proof. vm_compute. reflexivity. Qed.

(** C3, amended. For every point list of at least 2 points whose first
    256 points are at finite distances of one another, Layer 2 returns,
    for the [n] points it keeps, [n] joints and exactly [n - 1] bones;
    every bone endpoint is below [n]; the bones connect the [n] joints and
    form no cycle. *)
Theorem skeleton_is_spanning_tree :
  forall (L : Libm) (config : GenerationConfig) (points : list Point.t)
         (w : World),
    well_formed config ->
    (2 <= List.length points)%nat ->
    finite_distances (firstn 256 points) ->
    exists (skeleton : Skeleton) (w' : World),
      layer_2_skeleton_topology config points w = (Ok skeleton, w')
      /\ let n := List.length (firstn 256 points) in
         List.length (joints skeleton) = n
         /\ List.length (bones skeleton) = (n - 1)%nat
         /\ (forall b, In b (bones skeleton) ->
               (Bone.from b < n)%nat /\ (Bone.to b < n)%nat)
         /\ connected n (bones skeleton)
         /\ acyclic (bones skeleton).
Proof.
  intros L config points w Hwf Hn Hfin.
  destruct (well_formed_seed config 2 Hwf ltac:(lia)) as [seed Es].
  destruct (layer_2_build_ok (SeededRNG_init seed) points Hn Hfin)
    as (sk & Eb & Hj & Hg).
  exists sk. eexists. split.
  - unfold layer_2_skeleton_topology, bind, lift, print, ret.
    rewrite Es.
    destruct (Z.ltb_spec (len points) 2) as [Hlt | _]; [unfold len in Hlt; lia |].
    rewrite Eb. reflexivity.
  - cbv zeta. destruct Hg as (_ & _ & _ & Hbs & Hends & Hlink & Hac).
    repeat split; try assumption.
    + destruct (Hends b H) as [Hf _].
      assert (Hs : nth_error (repeat true (List.length (firstn 256 points)))
                             (Bone.from b) <> None) by congruence.
      apply nth_error_Some in Hs. rewrite repeat_length in Hs. exact Hs.
    + destruct (Hends b H) as [_ Ht].
      assert (Hs : nth_error (repeat true (List.length (firstn 256 points)))
                             (Bone.to b) <> None) by congruence.
      apply nth_error_Some in Hs. rewrite repeat_length in Hs. exact Hs.
    + intros u v Hu Hv.
      apply (linked_trans (bones sk) u 0%nat v).
      * apply linked_sym, Hlink, nth_error_repeat, Hu.
      * apply Hlink, nth_error_repeat, Hv.
Qed.

Lemma sample_points_finite :
  finite_distances (L := sample_libm) (firstn 256 sample_points).
Proof.
  intros i j p q Hij Hp Hq.
  destruct i as [| [| [| i]]]; destruct j as [| [| [| j]]];
    simpl in Hp, Hq; try discriminate; try (exfalso; apply Hij; reflexivity);
    try (destruct i; discriminate); try (destruct j; discriminate);
    injection Hp as <-; injection Hq as <-;
    eexists; (split; [vm_compute; reflexivity | vm_compute; reflexivity]).
Qed.

Lemma skeleton_is_spanning_tree_witness :
  well_formed sample_config
  /\ (2 <= List.length sample_points)%nat
  /\ finite_distances (L := sample_libm) (firstn 256 sample_points)
  /\ exists (skeleton : Skeleton) (w' : World),
       layer_2_skeleton_topology (L := sample_libm) sample_config sample_points []
       = (Ok skeleton, w')
       /\ let n := List.length (firstn 256 sample_points) in
          List.length (joints skeleton) = n
          /\ List.length (bones skeleton) = (n - 1)%nat
          /\ (forall b, In b (bones skeleton) ->
                (Bone.from b < n)%nat /\ (Bone.to b < n)%nat)
          /\ connected n (bones skeleton)
          /\ acyclic (bones skeleton).
Proof.
  split; [reflexivity |].
  split; [simpl; lia |].
  split; [exact sample_points_finite |].
  apply (skeleton_is_spanning_tree sample_libm sample_config sample_points []).
  - reflexivity.
  - simpl. lia.
  - exact sample_points_finite.
Defined.

(** ** Magnitudes of doubles *)

Section FloatMagnitude.
Import PyFloat.

Lemma digits2_size p : digits2_pos p = Pos.size p.
Proof. induction p as [p IH | p IH |]; simpl; rewrite ?IH; reflexivity. Qed.

(** A mantissa of [D] digits lies in [[2^(D-1), 2^D)]. *)
Lemma digits2_bounds p :
  2 ^ (Zpos (digits2_pos p) - 1) <= Zpos p < 2 ^ Zpos (digits2_pos p).
Proof.
  rewrite digits2_size.
  pose proof (Pos.size_gt p) as Hgt. pose proof (Pos.size_le p) as Hle.
  apply Pos2Z.pos_lt_pos in Hgt. apply Pos2Z.pos_le_pos in Hle.
  rewrite Pos2Z.inj_pow in Hgt, Hle.
  split; [| exact Hgt].
  replace (Zpos (Pos.size p)) with (Zpos (Pos.size p) - 1 + 1) in Hle by lia.
  rewrite Z.pow_add_r in Hle by lia. change (2 ^ 1) with 2 in Hle.
  change (Zpos p~0) with (2 * Zpos p) in Hle. lia.
Qed.

Lemma digits2_le p D : Zpos p < 2 ^ D -> Zpos (digits2_pos p) <= D.
Proof.
  intros H. destruct (digits2_bounds p) as [Hlo _].
  destruct (Z.le_gt_cases (Zpos (digits2_pos p)) D) as [Hle | Hgt]; [exact Hle |].
  assert (2 ^ D <= 2 ^ (Zpos (digits2_pos p) - 1)).
  { destruct (Z.lt_ge_cases D 0) as [Hneg | Hpos].
    - rewrite (Z.pow_neg_r 2 D Hneg). apply Z.pow_nonneg. lia.
    - apply Z.pow_le_mono_r; lia. }
  lia.
Qed.

Lemma digits2_unique p D :
  2 ^ (D - 1) <= Zpos p < 2 ^ D -> Zpos (digits2_pos p) = D.
Proof.
  intros [Hlo Hhi]. pose proof (digits2_le p D Hhi) as Hle.
  destruct (digits2_bounds p) as [_ Hp].
  destruct (Z.eq_dec (Zpos (digits2_pos p)) D) as [E | NE]; [exact E |].
  assert (2 ^ Zpos (digits2_pos p) <= 2 ^ (D - 1))
    by (apply Z.pow_le_mono_r; lia).
  lia.
Qed.

Lemma iter_xO_value p d : Zpos (Pos.iter xO p d) = Zpos p * 2 ^ Zpos d.
Proof.
  induction d as [| d IH] using Pos.peano_ind.
  - simpl. lia.
  - rewrite Pos.iter_succ, Pos2Z.inj_succ, Z.pow_succ_r by lia.
    change (Zpos (Pos.iter xO p d)~0) with (2 * Zpos (Pos.iter xO p d)).
    rewrite IH. lia.
Qed.

Lemma shr_record_of_loc_m m l : shr_m (shr_record_of_loc m l) = m.
Proof. destruct l as [| []]; reflexivity. Qed.

Lemma loc_of_shr_record_of_loc m l :
  loc_of_shr_record (shr_record_of_loc m l) = l.
Proof. destruct l as [| []]; reflexivity. Qed.

Lemma round_nearest_even_range m l :
  m <= round_nearest_even m l <= m + 1.
Proof.
  unfold round_nearest_even. destruct l as [| []]; try lia.
  destruct (Z.even m); lia.
Qed.

(** Rounding a mantissa of exactly 53 digits: it is kept, or bumped by
    one, and a bump to [2^53] is renormalised to [2^52]. *)
Lemma binary_round_aux_53 s q e l :
  2 ^ 52 <= q < 2 ^ 53 -> - 1074 <= e <= 970 ->
  let q' := round_nearest_even q l in
  binary_round_aux prec emax s q e l
  = if q' <? 2 ^ 53 then S754_finite s (Z.to_pos q') e
    else S754_finite s (Z.to_pos (2 ^ 52)) (e + 1).
Proof.
  intros Hq He q'.
  pose proof (round_nearest_even_range q l) as Hr. fold q' in Hr.
  destruct q as [| p | p]; try lia.
  unfold binary_round_aux, shr_fexp.
  assert (Hd : Zdigits2 (Zpos p) = 53) by (apply digits2_unique; exact Hq).
  rewrite Hd.
  assert (Hf : fexp prec emax (53 + e) - e = 0)
    by (unfold fexp, emin, prec, emax; lia).
  rewrite Hf. unfold shr at 1.
  rewrite shr_record_of_loc_m, loc_of_shr_record_of_loc. fold q'.
  destruct (Z.ltb_spec q' (2 ^ 53)) as [Hlt | Hge].
  - destruct q' as [| p' | p'] eqn:Eq; try lia.
    assert (Hd' : Zdigits2 (Zpos p') = 53) by (apply digits2_unique; lia).
    rewrite Hd', Hf. unfold shr. cbn [shr_m shr_record_of_loc].
    destruct (Z.leb_spec e (emax - prec)) as [_ | Hbad];
      [reflexivity | unfold emax, prec in Hbad; lia].
  - assert (Eq : q' = 2 ^ 53) by lia. rewrite Eq.
    change (Zdigits2 (2 ^ 53)) with 54.
    assert (Hf' : fexp prec emax (54 + e) - e = 1)
      by (unfold fexp, emin, prec, emax; lia).
    rewrite Hf'. cbn.
    destruct (Z.leb_spec (e + 1) 971) as [_ | Hbad]; [reflexivity | lia].
Qed.


(** The double of a non-negative integer below [2^63] is its normal form. *)
Lemma lit_spec n :
  0 <= n < 2 ^ 63 -> Prim2SF (lit n) = binary_normalize prec emax n 0 false.
Proof.
  intros Hn. unfold lit, of_int_unchecked.
  pose proof (of_uint63_spec (Uint63.of_Z n)) as H.
  rewrite Uint63.of_Z_spec, Z.mod_small in H by exact Hn.
  rewrite <- H, SF2Prim_Prim2SF. reflexivity.
Qed.

(** A positive integer below [2^53] converts exactly: its [k] digits,
    shifted up to 53, with exponent [k - 53]. *)
Lemma binary_normalize_pos p :
  Zpos p < 2 ^ 53 ->
  let k := Zpos (digits2_pos p) in
  binary_normalize prec emax (Zpos p) 0 false
  = S754_finite false (Z.to_pos (Zpos p * 2 ^ (53 - k))) (k - 53).
Proof.
  intros Hp k.
  assert (Hk : 1 <= k <= 53).
  { unfold k. split; [lia | apply digits2_le; exact Hp]. }
  destruct (digits2_bounds p) as [Hlo Hhi]. fold k in Hlo, Hhi.
  assert (Hm : 2 ^ 52 <= Zpos p * 2 ^ (53 - k) < 2 ^ 53).
  { assert (E52 : 2 ^ 52 = 2 ^ (k - 1) * 2 ^ (53 - k))
      by (rewrite <- Z.pow_add_r by lia; f_equal; lia).
    assert (E53 : 2 ^ 53 = 2 ^ k * 2 ^ (53 - k))
      by (rewrite <- Z.pow_add_r by lia; f_equal; lia).
    assert (0 < 2 ^ (53 - k)) by (apply Z.pow_pos_nonneg; lia).
    rewrite E52, E53. split.
    - apply Z.mul_le_mono_nonneg_r; lia.
    - apply Z.mul_lt_mono_pos_r; lia. }
  unfold binary_normalize, binary_round.
  assert (Hf : fexp prec emax (Zpos (digits2_pos p) + 0) = k - 53)
    by (fold k; unfold fexp, emin, prec, emax; lia).
  rewrite Hf. unfold shl_align.
  assert (Hr : forall m, Zpos m = Zpos p * 2 ^ (53 - k) ->
             binary_round_aux prec emax false (Zpos m) (k - 53) loc_Exact
             = S754_finite false (Z.to_pos (Zpos p * 2 ^ (53 - k))) (k - 53)).
  { intros m Em. rewrite (binary_round_aux_53 false (Zpos m) (k - 53) loc_Exact)
      by (rewrite ?Em; lia).
    cbn [round_nearest_even]. rewrite Em.
    destruct (Z.ltb_spec (Zpos p * 2 ^ (53 - k)) (2 ^ 53)); [reflexivity | lia]. }
  destruct (k - 53 - 0) as [| d | d] eqn:Ed; try lia.
  - assert (Ek : k - 53 = 0) by lia. rewrite Ek in Hr |- *.
    apply Hr. replace (53 - k) with 0 by lia. lia.
  - apply Hr. rewrite iter_xO_value. f_equal. f_equal. lia.
Qed.

(** The quotient of a positive integer of 32 bits by [0xFFFFFFFF] is a
    positive double of at most 1. *)
Lemma int_truediv_shape n :
  0 < n <= 0xFFFFFFFF -> unit_shape (Prim2SF (int_truediv n 0xFFFFFFFF)).
Proof.
  intros Hn.
  destruct (Z.eq_dec n 0xFFFFFFFF) as [-> | Hnd].
  { exists 4503599627370496%positive, (-52). split; [vm_compute; reflexivity |].
    split; [lia | right; split; reflexivity]. }
  destruct n as [| p | p]; try lia.
  unfold int_truediv. rewrite div_spec.
  rewrite (lit_spec (Zpos p)) by lia.
  rewrite binary_normalize_pos by lia.
  set (k := Zpos (digits2_pos p)).
  assert (Hk : 1 <= k <= 32).
  { unfold k. split; [lia | apply digits2_le; lia]. }
  destruct (digits2_bounds p) as [Hlo Hhi]. fold k in Hlo, Hhi.
  set (mn := Zpos p * 2 ^ (53 - k)).
  assert (E52 : 2 ^ 52 = 2 ^ (k - 1) * 2 ^ (53 - k))
    by (rewrite <- Z.pow_add_r by lia; f_equal; lia).
  assert (E53 : 2 ^ 53 = 2 ^ k * 2 ^ (53 - k))
    by (rewrite <- Z.pow_add_r by lia; f_equal; lia).
  assert (Hpow : 2 ^ 21 <= 2 ^ (53 - k)) by (apply Z.pow_le_mono_r; lia).
  assert (Hmn : 2 ^ 52 <= mn < 2 ^ 53).
  { unfold mn. rewrite E52, E53. split.
    - apply Z.mul_le_mono_nonneg_r; lia.
    - apply Z.mul_lt_mono_pos_r; lia. }
  assert (Hmn' : mn < 0xFFFFFFFF * 2 ^ 21).
  { unfold mn. destruct (Z.eq_dec k 32) as [Ek | Ek].
    - rewrite Ek. change (53 - 32) with 21. apply Z.mul_lt_mono_pos_r; lia.
    - assert (2 ^ 22 <= 2 ^ (53 - k)) by (apply Z.pow_le_mono_r; lia).
      assert (Zpos p * 2 ^ (53 - k) <= (2 ^ k - 1) * 2 ^ (53 - k))
        by (apply Z.mul_le_mono_nonneg_r; lia).
      change (2 ^ 53) with 9007199254740992 in *.
      change (2 ^ 22) with 4194304 in *. change (2 ^ 21) with 2097152 in *.
      lia. }
  change (Prim2SF (lit 0xFFFFFFFF))
    with (S754_finite false 9007199252643840 (-21)).
  destruct mn as [| m | m] eqn:Em; try lia.
  unfold SF64div, SFdiv, SFdiv_core_binary.
  assert (Hd1 : Zdigits2 (Zpos (Z.to_pos (Zpos m))) = 53)
    by (apply digits2_unique; simpl; exact Hmn).
  rewrite Hd1. change (Zdigits2 (Zpos 9007199252643840)) with 53.
  assert (He' : Z.min (fexp prec emax (53 + (k - 53) - (53 + -21)))
                      (k - 53 - -21) = k - 85)
    by (unfold fexp, emin, prec, emax; lia).
  rewrite He'.
  replace (k - 53 - -21 - (k - 85)) with 53 by lia.
  cbn [Z.to_pos xorb].
  rewrite Z.shiftl_mul_pow2 by lia.
  pose proof (Z_div_mod (Zpos m * 2 ^ 53) (Zpos 9007199252643840) ltac:(lia)) as Hdiv.
  destruct (Z.div_eucl (Zpos m * 2 ^ 53) (Zpos 9007199252643840)) as [q r].
  destruct Hdiv as [Hdiv Hrem].
  assert (Hq : 2 ^ 52 <= q < 2 ^ 53).
  { change (2 ^ 21) with 2097152 in *. change (2 ^ 52) with 4503599627370496 in *.
    change (2 ^ 53) with 9007199254740992 in *. nia. }
  rewrite binary_round_aux_53 by lia.
  pose proof (round_nearest_even_range q
                (new_location (Zpos 9007199252643840) r)) as Hr.
  set (q' := round_nearest_even q (new_location (Zpos 9007199252643840) r)) in *.
  destruct (Z.ltb_spec q' (2 ^ 53)).
  - exists (Z.to_pos q'), (k - 85). split; [reflexivity |].
    rewrite Z2Pos.id by lia. split; [lia |]. left. lia.
  - exists (Z.to_pos (2 ^ 52)), (k - 85 + 1). split; [reflexivity |].
    split; [simpl; lia |].
    destruct (Z.eq_dec k 32) as [Ek | Ek]; [right | left; lia].
    split; [lia | reflexivity].
Qed.

(** Such a double is above 0 and at most 1. *)
Lemma unit_shape_bounds x :
  unit_shape (Prim2SF x) ->
  (0 <? x)%float = true /\ (0 <=? x)%float = true /\ (x <=? 1)%float = true.
Proof.
  intros (m & e & E & Hm & He).
  rewrite ltb_spec, !leb_spec, E.
  change (Prim2SF 0) with (S754_zero false).
  change (Prim2SF 1) with (S754_finite false 4503599627370496 (-52)).
  split; [reflexivity |]. split; [reflexivity |].
  unfold SFleb, SFcompare.
  destruct He as [He | [-> Hm1]].
  - destruct (Z.compare_spec e (-52)); try lia; reflexivity.
  - cbn [Z.compare Pos.compare]. injection Hm1 as ->. reflexivity.
Qed.

(** The quotient of an integer of 32 bits by [0xFFFFFFFF] lies between 0
    and 1, both included. *)
Lemma int_truediv_unit n :
  0 <= n <= 0xFFFFFFFF ->
  (0 <=? int_truediv n 0xFFFFFFFF)%float = true
  /\ (int_truediv n 0xFFFFFFFF <=? 1)%float = true.
Proof.
  intros Hn.
  destruct (Z.eq_dec n 0) as [-> | Hn0]; [split; vm_compute; reflexivity |].
  destruct (unit_shape_bounds _ (int_truediv_shape n ltac:(lia))) as (_ & H0 & H1).
  split; assumption.
Qed.

End FloatMagnitude.

(** ** The range of [next_float] *)

(** C6, as stated, fails: from the state 13875032176021185972 the next
    output is 0xFFFFFFFF, and [next_float] returns exactly 1. *)
Lemma next_float_one_counterexample :
  fst (next_u64 (SeededRNG_init 13875032176021185972)) = 0xFFFFFFFF
  /\ fst (next_float (SeededRNG_init 13875032176021185972)) = 1%float
  /\ (fst (next_float (SeededRNG_init 13875032176021185972)) <? 1)%float = false.
Proof. repeat split; vm_compute; reflexivity. Qed.

(** C6, amended. For every generator state, [next_float] divides the low
    32 bits of [next_u64] by 0xFFFFFFFF and returns a value of the closed
    interval [[0, 1]]; the value is 1 when the 32 bits are all ones. *)
Theorem next_float_closed_unit :
  forall rng : SeededRNG,
    let low := Z.land (fst (next_u64 rng)) 0xFFFFFFFF in
    let v := fst (next_float rng) in
    v = PyFloat.int_truediv low 0xFFFFFFFF
    /\ (0 <=? v)%float = true
    /\ (v <=? 1)%float = true
    /\ (low = 0xFFFFFFFF -> v = 1%float).
Proof.
  intros rng low v.
  assert (Hv : v = PyFloat.int_truediv low 0xFFFFFFFF).
  { unfold v, low, next_float. destruct (next_u64 rng) as [u rng']. reflexivity. }
  assert (Hlow : 0 <= low <= 0xFFFFFFFF).
  { unfold low. change 0xFFFFFFFF with (Z.ones 32).
    rewrite Z.land_ones by lia.
    pose proof (Z.mod_pos_bound (fst (next_u64 rng)) (2 ^ 32) ltac:(lia)).
    change (Z.ones 32) with (2 ^ 32 - 1). lia. }
  destruct (int_truediv_unit low Hlow) as [H0 H1].
  rewrite Hv. repeat split; try assumption.
  intros ->. vm_compute. reflexivity.
Qed.

(** ** Finite products: the LOD counts of Layer 5 *)

Section FiniteProducts.
Import PyFloat.

Lemma shr_1_spec mrs :
  0 <= shr_m mrs ->
  0 <= shr_m (shr_1 mrs)
  /\ Zdigits2 (shr_m (shr_1 mrs)) = Z.max (Zdigits2 (shr_m mrs) - 1) 0.
Proof.
  destruct mrs as [m r s]. cbn [shr_m]. intros Hm.
  destruct m as [| p | p]; try lia; [cbn; lia |].
  destruct p as [p | p |]; cbn [shr_1 shr_m Zdigits2 digits2_pos];
    rewrite ?Pos2Z.inj_succ; lia.
Qed.

Lemma iter_shr_1_spec p :
  forall mrs,
    0 <= shr_m mrs ->
    0 <= shr_m (iter_pos shr_1 p mrs)
    /\ Zdigits2 (shr_m (iter_pos shr_1 p mrs))
       = Z.max (Zdigits2 (shr_m mrs) - Zpos p) 0.
Proof.
  induction p as [p IH | p IH |]; intros mrs Hm; cbn [iter_pos].
  - destruct (shr_1_spec mrs Hm) as [H1 D1].
    destruct (IH _ H1) as [H2 D2]. destruct (IH _ H2) as [H3 D3].
    split; [exact H3 |]. rewrite D3, D2, D1. lia.
  - destruct (IH _ Hm) as [H2 D2]. destruct (IH _ H2) as [H3 D3].
    split; [exact H3 |]. rewrite D3, D2. lia.
  - apply shr_1_spec. exact Hm.
Qed.

Lemma shr_spec mrs e n :
  0 <= shr_m mrs ->
  0 <= shr_m (fst (shr mrs e n))
  /\ snd (shr mrs e n) = e + Z.max n 0
  /\ Zdigits2 (shr_m (fst (shr mrs e n)))
     = Z.max (Zdigits2 (shr_m mrs) - Z.max n 0) 0.
Proof.
  intros Hm. unfold shr. destruct n as [| p | p]; cbn [fst snd].
  - assert (0 <= Zdigits2 (shr_m mrs)) by (destruct (shr_m mrs); cbn; lia). lia.
  - destruct (iter_shr_1_spec p mrs Hm) as [H D]. rewrite D. lia.
  - assert (0 <= Zdigits2 (shr_m mrs)) by (destruct (shr_m mrs); cbn; lia). lia.
Qed.

Lemma Zdigits2_succ m : 0 <= m -> Zdigits2 (m + 1) <= Zdigits2 m + 1.
Proof.
  intros Hm. destruct m as [| p | p]; try lia; [cbn; lia |].
  change (Zpos p + 1) with (Zpos (p + 1)). cbn [Zdigits2].
  apply digits2_le. destruct (digits2_bounds p) as [_ Hp].
  rewrite Z.pow_add_r by lia. rewrite Pos2Z.inj_add. lia.
Qed.

(** A positive mantissa and an exponent well inside the range round to
    a zero or a finite number: no overflow, no NaN. *)
Lemma binary_round_aux_finite s m e l :
  0 < m -> e <= 970 -> Zdigits2 m + e <= 1023 ->
  finite_or_zero (binary_round_aux prec emax s m e l).
Proof.
  intros Hm He Hd. unfold binary_round_aux, shr_fexp.
  set (n1 := fexp prec emax (Zdigits2 m + e) - e).
  pose proof (shr_spec (shr_record_of_loc m l) e n1) as H1.
  rewrite shr_record_of_loc_m in H1. specialize (H1 ltac:(lia)).
  destruct (shr (shr_record_of_loc m l) e n1) as [mrs1 e1].
  cbn [fst snd] in H1. destruct H1 as (Hm1 & He1 & Hd1).
  set (m2 := round_nearest_even (shr_m mrs1) (loc_of_shr_record mrs1)).
  pose proof (round_nearest_even_range (shr_m mrs1) (loc_of_shr_record mrs1)) as Hr.
  fold m2 in Hr.
  assert (Hd2 : Zdigits2 m2 <= Zdigits2 (shr_m mrs1) + 1).
  { assert (Hc : m2 = shr_m mrs1 \/ m2 = shr_m mrs1 + 1) by lia.
    destruct Hc as [-> | ->]; [lia | apply Zdigits2_succ; exact Hm1]. }
  set (n2 := fexp prec emax (Zdigits2 m2 + e1) - e1).
  pose proof (shr_spec (shr_record_of_loc m2 loc_Exact) e1 n2) as H2.
  rewrite shr_record_of_loc_m in H2. specialize (H2 ltac:(lia)).
  destruct (shr (shr_record_of_loc m2 loc_Exact) e1 n2) as [mrs2 e2].
  cbn [fst snd] in H2. destruct H2 as (Hm2 & He2 & _).
  assert (Hbound : e2 <= emax - prec).
  { unfold n1, n2, fexp, emin, prec, emax in *. lia. }
  destruct (shr_m mrs2) as [| p | p]; try lia; cbn; [exact I |].
  destruct (Z.leb_spec e2 971); [exact I | unfold emax, prec in Hbound; lia].
Qed.

Lemma to_int_ok x : finite_or_zero (Prim2SF x) -> exists z, to_int x = Ok z.
Proof.
  unfold to_int. destruct (Prim2SF x); cbn; intros H; try contradiction; eauto.
Qed.

Lemma finite_not_infinity x s m e :
  Prim2SF x = S754_finite s m e -> is_infinity x = false.
Proof.
  unfold Prim2SF. destruct (is_nan x); [discriminate |].
  destruct (is_zero x); [discriminate |].
  destruct (is_infinity x); [discriminate | reflexivity].
Qed.

(** A count below [2^53] converts to a double, and its product with 1,
    1/2 or 1/4 converts back to an integer. *)
Lemma scaled_count_ok t r er :
  0 <= t < 2 ^ 53 ->
  Prim2SF r = S754_finite false 4503599627370496 er -> - 60 <= er <= - 52 ->
  of_int t = Ok (lit t) /\ exists z, to_int (lit t * r) = Ok z.
Proof.
  intros Ht Hr Her.
  destruct t as [| p | p]; try lia.
  - split; [vm_compute; reflexivity |]. apply to_int_ok.
    rewrite mul_spec, Hr. change (Prim2SF (lit 0)) with (S754_zero false).
    exact I.
  - pose proof (lit_spec (Zpos p) ltac:(lia)) as Hl.
    rewrite binary_normalize_pos in Hl by lia.
    set (k := Zpos (digits2_pos p)) in *.
    assert (Hk : 1 <= k <= 53).
    { unfold k. split; [lia | apply digits2_le; lia]. }
    destruct (digits2_bounds p) as [Hlo Hhi]. fold k in Hlo, Hhi.
    assert (Hm : 0 < Zpos p * 2 ^ (53 - k) < 2 ^ 53).
    { assert (E53 : 2 ^ 53 = 2 ^ k * 2 ^ (53 - k))
        by (rewrite <- Z.pow_add_r by lia; f_equal; lia).
      assert (0 < 2 ^ (53 - k)) by (apply Z.pow_pos_nonneg; lia).
      rewrite E53. split; [lia | apply Z.mul_lt_mono_pos_r; lia]. }
    destruct (Zpos p * 2 ^ (53 - k)) as [| m | m] eqn:Em; try lia.
    cbn [Z.to_pos] in Hl. split.
    + unfold of_int. fold (lit (Zpos p)).
      rewrite (finite_not_infinity _ _ _ _ Hl). reflexivity.
    + apply to_int_ok. rewrite mul_spec, Hl, Hr.
      unfold SF64mul, SFmul. apply binary_round_aux_finite; [lia | lia |].
      cbn [Zdigits2].
      assert (Zpos (digits2_pos (m * 4503599627370496)) <= 105).
      { apply digits2_le. rewrite Pos2Z.inj_mul.
        change (2 ^ 105) with (2 ^ 53 * 4503599627370496).
        apply Z.mul_lt_mono_pos_r; lia. }
      lia.
Qed.

End FiniteProducts.

(** ** Layer 5: the bounding sphere *)

Section SceneFacts.
Import PyFloat.

Lemma lod_constants level k :
  nth_error (range 3) k = Some level ->
  exists fp fl er,
    of_int (2 ^ level) = Ok fp /\ of_int level = Ok fl
    /\ Prim2SF (1 / fp) = S754_finite false 4503599627370496 er
    /\ - 60 <= er <= - 52.
Proof.
  intros H. apply nth_error_range_inv in H. destruct H as [-> Hk].
  change (Z.to_nat 3) with 3%nat in Hk.
  destruct k as [| [| [| k]]]; [| | | lia].
  - exists 1%float, 0%float, (-52). repeat split; try lia; vm_compute; reflexivity.
  - exists 2%float, 1%float, (-53). repeat split; try lia; vm_compute; reflexivity.
  - exists 4%float, 2%float, (-54). repeat split; try lia; vm_compute; reflexivity.
Qed.

Lemma lod_ok vertex_count tri_count acc level k :
  0 <= vertex_count < 2 ^ 53 -> 0 <= tri_count < 2 ^ 53 ->
  nth_error (range 3) k = Some level ->
  exists entry, lod vertex_count tri_count acc level = Ok (acc ++ [entry]).
Proof.
  intros Hv Ht Hk.
  destruct (lod_constants level k Hk) as (fp & fl & er & Efp & Efl & Er & Her).
  destruct (scaled_count_ok tri_count (1 / fp) er Ht Er Her) as [Et [t Ett]].
  destruct (scaled_count_ok vertex_count (1 / fp) er Hv Er Her) as [Ev [v Evv]].
  unfold lod. rewrite Efp. unfold res_bind at 1. rewrite Efl. unfold res_bind at 1.
  rewrite Et. unfold res_bind at 1. rewrite Ett. unfold res_bind at 1.
  rewrite Ev. unfold res_bind at 1. rewrite Evv. unfold res_bind.
  eexists. reflexivity.
Qed.

(** Layer 5 between its two [print]s: the two scene nodes, the second
    being the content node with its sphere. *)
Lemma layer_5_build_ok config rng mesh assets :
  0 <= triangle_count mesh < 2 ^ 53 ->
  len (vertices mesh) < 2 ^ 53 ->
  exists scene lods,
    layer_5_build config rng mesh assets = Ok (scene, lods)
    /\ content_spheres scene
       = [ {| Sphere.cx := fst (fst (chunk_coords config)) * 64 + 32;
              Sphere.cy := snd (fst (chunk_coords config)) * 64 + 32;
              Sphere.cz := snd (chunk_coords config) * 64;
              Sphere.radius := 45 |} ]
    /\ len (interaction_zones scene)
       = if String.eqb (content_type config) "creature" then 2 else 0.
Proof.
  intros Ht Hv. unfold layer_5_build.
  destruct (chunk_coords config) as [[cx cy] cz]. cbn [fst snd].
  destruct (for_res_invariant
              (lod (len (vertices mesh)) (triangle_count mesh))
              (fun _ _ => True) (range 3) []) as [lods [E _]].
  - exact I.
  - intros k level acc Hk _.
    assert (Hv' : 0 <= len (vertices mesh) < 2 ^ 53) by (unfold len in *; lia).
    destruct (lod_ok (len (vertices mesh)) (triangle_count mesh) acc level k
                Hv' Ht Hk) as [entry Ee].
    eexists. split; [exact Ee | exact I].
  - rewrite E. unfold res_bind. eexists _, _. split; [reflexivity |].
    split; [reflexivity |]. cbn [interaction_zones].
    destruct (String.eqb (content_type config) "creature"); [| reflexivity].
    destruct (next_range rng 10 30) as [r1 rng1].
    destruct (next_range rng1 3 8) as [r2 rng2]. reflexivity.
Qed.

End SceneFacts.

(** ** The run of a creature at density 0 *)

Section EmptyRun.
Context {L : Libm}.
Import PyFloat.

Lemma low_bits_range u : 0 <= Z.land u 0xFFFFFFFF <= 0xFFFFFFFF.
Proof.
  change 0xFFFFFFFF with (Z.ones 32). rewrite Z.land_ones by lia.
  pose proof (Z.mod_pos_bound u (2 ^ 32) ltac:(lia)).
  change (Z.ones 32) with (2 ^ 32 - 1). lia.
Qed.

(** A draw times a palette length converts to an integer. *)
Lemma scaled_draw_ok rng :
  exists k, to_int (fst (next_float rng) * lit 3) = Ok k.
Proof.
  unfold next_float. destruct (next_u64 rng) as [u rng']. cbn [fst].
  apply to_int_ok. rewrite mul_spec.
  change (Prim2SF (lit 3)) with (S754_finite false 6755399441055744 (-51)).
  pose proof (low_bits_range u) as Hu.
  destruct (Z.eq_dec (Z.land u 0xFFFFFFFF) 0) as [-> | Hn].
  - change (Prim2SF (int_truediv 0 0xFFFFFFFF)) with (S754_zero false). exact I.
  - destruct (int_truediv_shape (Z.land u 0xFFFFFFFF) ltac:(lia))
      as (m & e & E & Hm & He).
    rewrite E. unfold SF64mul, SFmul.
    apply binary_round_aux_finite; [lia | lia |].
    cbn [Zdigits2].
    assert (Zpos (digits2_pos (m * 6755399441055744)) <= 106).
    { apply digits2_le. rewrite Pos2Z.inj_mul.
      change (2 ^ 106) with (2 ^ 53 * 2 ^ 53).
      apply Z.mul_lt_mono_nonneg; lia. }
    lia.
Qed.

Lemma palette_of_length ct : List.length (palette_of ct) = 3%nat.
Proof.
  unfold palette_of.
  destruct (String.eqb ct "creature"); [reflexivity |].
  destruct (String.eqb ct "vegetation"); [reflexivity |].
  destruct (String.eqb ct "mineral"); reflexivity.
Qed.











Lemma bind_print {B} l (k : unit -> Py B) w :
  bind (print l) k w = k tt (w ++ [l]).
Proof. reflexivity. Qed.

Lemma bind_lift_ok {A B} (a : A) (k : A -> Py B) w :
  bind (lift (Ok a)) k w = k a w.
Proof. reflexivity. Qed.


End EmptyRun.



(** C8, as stated, fails: for chunk (0, 0, 0) the sphere of the content
    node is centred at (32, 32, 0), not at the chunk centre (32, 32, 32):
    the z coordinate is [cz * 64], without the half chunk. *)
Lemma bounding_sphere_counterexample :
  res_map content_spheres
    (outcome (layer_5_world_integration sample_config
                                        empty_mesh empty_assets []))
  = Ok [ {| Sphere.cx := 32; Sphere.cy := 32; Sphere.cz := 0;
            Sphere.radius := 45 |} ]
  /\ 0 <> 0 * 64 + 32.
Proof. split; [vm_compute; reflexivity | lia]. Qed.

(** C8, amended. For every chunk coordinate (cx, cy, cz), Layer 5 returns
    a scene whose content node carries a bounding sphere of radius 45
    centred at (cx * 64 + 32, cy * 64 + 32, cz * 64): the centre of the
    chunk footprint in x and y, at the height the points are spread
    around.  (The LOD table needs the two counts of the mesh to convert to
    doubles: counts below 2^53.) *)
Theorem bounding_sphere_of_content_node :
  forall (config : GenerationConfig) (mesh : Mesh) (assets : Assets)
         (w : World) (cx cy cz : Z),
    well_formed config ->
    chunk_coords config = (cx, cy, cz) ->
    0 <= triangle_count mesh < 2 ^ 53 ->
    len (vertices mesh) < 2 ^ 53 ->
    exists (scene : Scene) (w' : World),
      layer_5_world_integration config mesh assets w = (Ok scene, w')
      /\ content_spheres scene
         = [ {| Sphere.cx := cx * 64 + 32;
                Sphere.cy := cy * 64 + 32;
                Sphere.cz := cz * 64;
                Sphere.radius := 45 |} ].
Proof.
  intros config mesh assets w cx cy cz Hwf Hc Ht Hv.
  destruct (well_formed_seed config 5 Hwf ltac:(lia)) as [seed Es].
  destruct (layer_5_build_ok config (SeededRNG_init seed) mesh assets Ht Hv)
    as (scene & lods & Eb & Hs & _).
  rewrite Hc in Hs. cbn [fst snd] in Hs.
  exists scene. eexists. split; [| exact Hs].
  unfold layer_5_world_integration, bind, lift, print, ret.
  rewrite Es, Eb. reflexivity.
Qed.

Lemma bounding_sphere_of_content_node_witness :
  well_formed sample_config
  /\ chunk_coords sample_config = (0, 0, 0)
  /\ 0 <= triangle_count empty_mesh < 2 ^ 53
  /\ len (vertices empty_mesh) < 2 ^ 53
  /\ exists (scene : Scene) (w' : World),
       layer_5_world_integration sample_config empty_mesh
                                 empty_assets [] = (Ok scene, w')
       /\ content_spheres scene
          = [ {| Sphere.cx := 0 * 64 + 32;
                 Sphere.cy := 0 * 64 + 32;
                 Sphere.cz := 0 * 64;
                 Sphere.radius := 45 |} ].
Proof.
  split; [reflexivity |].
  split; [reflexivity |].
  split; [simpl; lia |].
  split; [reflexivity |].
  apply (bounding_sphere_of_content_node sample_config empty_mesh
           empty_assets [] 0 0 0).
  - reflexivity.
  - reflexivity.
  - simpl. lia.
  - reflexivity.
Defined.

(** * Further properties of the code *)

(** ** Layer 0: seeds and configurations *)

Section SeedFacts.



End SeedFacts.



(** ** The generator beyond seed 0 *)

Section GeneratorFacts.

Lemma advance_snoc n : forall rng,
  advance (S n) rng = snd (next_u64 (advance n rng)).
Proof.
  induction n as [| n IH]; intros rng; [reflexivity |].
  change (advance (S (S n)) rng) with (advance (S n) (snd (next_u64 rng))).
  rewrite IH. reflexivity.
Qed.

Lemma next_u64_output rng : fst (next_u64 rng) = state (snd (next_u64 rng)).
Proof. reflexivity. Qed.

Lemma land_mask64_mod s : Z.land s mask64 = s mod 2 ^ 64.
Proof. rewrite mask64_ones, Z.land_ones by lia. reflexivity. Qed.

(** Every output of a generator whose seed is not a multiple of [2^64]. *)
Lemma outputs_live seed n :
  seed mod 2 ^ 64 <> 0 ->
  live (snd (next_u64 (advance n (SeededRNG_init seed)))).
Proof.
  intros Hs. rewrite <- advance_snoc.
  change (advance (S n) (SeededRNG_init seed))
    with (advance n (snd (next_u64 (SeededRNG_init seed)))).
  apply advance_live. unfold next_u64, live. cbn [snd state]. split.
  - apply xorshift64_word.
  - apply xorshift64_nonzero. rewrite land_mask64_mod.
    unfold SeededRNG_init. cbn [state].
    destruct (Z.eqb_spec seed 0) as [-> | _]; [| exact Hs].
    exfalso. apply Hs. reflexivity.
Qed.

Lemma xorshift64_masked_zero s : s mod 2 ^ 64 = 0 -> xorshift64 s = 0.
Proof.
  intros H. unfold xorshift64. rewrite land_mask64_mod, H. reflexivity.
Qed.

(** Every output of a generator whose seed is a non-zero multiple of
    [2^64]. *)
Lemma outputs_stuck seed n :
  seed <> 0 -> seed mod 2 ^ 64 = 0 ->
  state (snd (next_u64 (advance n (SeededRNG_init seed)))) = 0.
Proof.
  intros Hne Hs. induction n as [| n IH].
  - cbn [advance]. unfold next_u64. cbn [snd state]. apply xorshift64_masked_zero.
    unfold SeededRNG_init. cbn [state].
    destruct (Z.eqb_spec seed 0); [contradiction | exact Hs].
  - rewrite advance_snoc. unfold next_u64 at 1. cbn [snd state].
    rewrite IH. reflexivity.
Qed.

(** *** The three xorshift steps are one to one *)

Lemma word64_high_bits x n : word64 x -> 64 <= n -> Z.testbit x n = false.
Proof.
  intros [H0 H] Hn. rewrite <- (Z.mod_small x (2 ^ 64)) by lia.
  apply Z.mod_pow2_bits_high. lia.
Qed.

Lemma mask64_low_bits n : 0 <= n < 64 -> Z.testbit mask64 n = true.
Proof. intros Hn. rewrite mask64_ones. apply Z.ones_spec_low. exact Hn. Qed.

Lemma xorb_cancel_r a b c : xorb a c = xorb b c -> a = b.
Proof. destruct a, b, c; simpl; congruence. Qed.

Lemma xor_shl_inj k x y :
  0 < k -> word64 x -> word64 y ->
  Z.lxor x (Z.land (Z.shiftl x k) mask64)
  = Z.lxor y (Z.land (Z.shiftl y k) mask64) ->
  x = y.
Proof.
  intros Hk Hx Hy H. apply Z.bits_inj'. intros n Hn.
  pattern n. apply Z_lt_induction; [| exact Hn]. clear n Hn.
  intros n IH.
  destruct (Z.lt_ge_cases n 0) as [Hneg | Hn];
    [rewrite !Z.testbit_neg_r by exact Hneg; reflexivity |].
  destruct (Z.lt_ge_cases n 64) as [Hlt | Hge];
    [| rewrite !word64_high_bits by assumption; reflexivity].
  assert (Hb : Z.testbit (Z.lxor x (Z.land (Z.shiftl x k) mask64)) n
               = Z.testbit (Z.lxor y (Z.land (Z.shiftl y k) mask64)) n)
    by (rewrite H; reflexivity).
  rewrite !Z.lxor_spec, !Z.land_spec, !Z.shiftl_spec in Hb by exact Hn.
  destruct (Z.lt_ge_cases (n - k) 0) as [Hs | Hs].
  - rewrite !(Z.testbit_neg_r _ (n - k)) in Hb by exact Hs.
    apply xorb_cancel_r in Hb. exact Hb.
  - rewrite (IH (n - k)) in Hb by lia.
    apply xorb_cancel_r in Hb. exact Hb.
Qed.

Lemma xor_shr_inj k x y :
  0 < k -> word64 x -> word64 y ->
  Z.lxor x (Z.land (Z.shiftr x k) mask64)
  = Z.lxor y (Z.land (Z.shiftr y k) mask64) ->
  x = y.
Proof.
  intros Hk Hx Hy H.
  assert (Hall : forall m : nat, forall n, 64 - Z.of_nat m <= n ->
                   Z.testbit x n = Z.testbit y n).
  { induction m as [| m IH]; intros n Hn.
    - rewrite !word64_high_bits by (assumption || lia). reflexivity.
    - destruct (Z.lt_ge_cases n 0) as [Hneg | Hn0];
        [rewrite !Z.testbit_neg_r by exact Hneg; reflexivity |].
      assert (Hb : Z.testbit (Z.lxor x (Z.land (Z.shiftr x k) mask64)) n
                   = Z.testbit (Z.lxor y (Z.land (Z.shiftr y k) mask64)) n)
        by (rewrite H; reflexivity).
      rewrite !Z.lxor_spec, !Z.land_spec, !Z.shiftr_spec in Hb by exact Hn0.
      rewrite (IH (n + k)) in Hb by lia.
      apply xorb_cancel_r in Hb. exact Hb. }
  apply Z.bits_inj'. intros n Hn. apply (Hall 64%nat). lia.
Qed.

Lemma xorshift64_inj x y :
  word64 x -> word64 y -> xorshift64 x = xorshift64 y -> x = y.
Proof.
  intros Hx Hy H. unfold xorshift64 in H.
  rewrite (land_mask64_id x Hx), (land_mask64_id y Hy) in H.
  apply xor_shl_inj in H; [| lia | |];
    try (apply lxor_word; [| apply land_mask64_word];
         apply lxor_word; [assumption | apply land_mask64_word]).
  apply xor_shr_inj in H; [| lia | |];
    try (apply lxor_word; [assumption | apply land_mask64_word]).
  apply xor_shl_inj in H; [exact H | lia | assumption | assumption].
Qed.

End GeneratorFacts.

(** X3. A generator whose seed is not a multiple of [2^64] never reaches
    the state 0: every value [next_u64] returns, which is also the new
    state, is a non-zero 64-bit word. *)
Theorem nonzero_seed_outputs :
  forall (seed : Z) (n : nat),
    seed mod 2 ^ 64 <> 0 ->
    let rng := advance n (SeededRNG_init seed) in
    0 < fst (next_u64 rng) < 2 ^ 64
    /\ state (snd (next_u64 rng)) = fst (next_u64 rng).
Proof.
  intros seed n Hs rng.
  destruct (outputs_live seed n Hs) as [[H0 H1] Hne]. fold rng in H0, H1, Hne.
  rewrite next_u64_output. split; [lia | reflexivity].
Qed.

Lemma nonzero_seed_outputs_witness :
  42 mod 2 ^ 64 <> 0
  /\ let rng := advance 3 (SeededRNG_init 42) in
     0 < fst (next_u64 rng) < 2 ^ 64
     /\ state (snd (next_u64 rng)) = fst (next_u64 rng).
Proof.
  split; [vm_compute; discriminate |].
  apply (nonzero_seed_outputs 42 3). vm_compute. discriminate.
Defined.

(** X4. The guard of the constructor only replaces the seed 0: a seed
    that is a non-zero multiple of [2^64] is masked to 0 by the first
    [next_u64], and the generator then returns 0 from [next_u64] and 0.0
    from [next_float] for ever. *)
Theorem masked_seed_outputs :
  forall (seed : Z) (n : nat),
    seed <> 0 -> seed mod 2 ^ 64 = 0 ->
    let rng := advance n (SeededRNG_init seed) in
    fst (next_u64 rng) = 0 /\ fst (next_float rng) = 0%float.
Proof.
  intros seed n Hne Hs rng.
  pose proof (outputs_stuck seed n Hne Hs) as H. fold rng in H.
  rewrite <- next_u64_output in H. split; [exact H |].
  unfold next_float. destruct (next_u64 rng) as [u r]. cbn [fst] in *.
  rewrite H. reflexivity.
Qed.

Lemma masked_seed_outputs_witness :
  2 ^ 64 <> 0 /\ 2 ^ 64 mod 2 ^ 64 = 0
  /\ let rng := advance 2 (SeededRNG_init (2 ^ 64)) in
     fst (next_u64 rng) = 0 /\ fst (next_float rng) = 0%float.
Proof.
  split; [vm_compute; discriminate |]. split; [reflexivity |].
  apply (masked_seed_outputs (2 ^ 64) 2); [vm_compute; discriminate | reflexivity].
Defined.

(** X5. [next_u64] is one to one on 64-bit states: two generators in
    different states return different values, and so stay in different
    states. *)
Theorem next_u64_one_to_one :
  forall r1 r2 : SeededRNG,
    word64 (state r1) -> word64 (state r2) -> state r1 <> state r2 ->
    fst (next_u64 r1) <> fst (next_u64 r2)
    /\ state (snd (next_u64 r1)) <> state (snd (next_u64 r2)).
Proof.
  intros r1 r2 H1 H2 Hne.
  assert (H : xorshift64 (state r1) <> xorshift64 (state r2)).
  { intros E. apply Hne. apply xorshift64_inj; assumption. }
  split; exact H.
Qed.

Lemma next_u64_one_to_one_witness :
  word64 (state (SeededRNG_init 1)) /\ word64 (state (SeededRNG_init 2))
  /\ state (SeededRNG_init 1) <> state (SeededRNG_init 2)
  /\ fst (next_u64 (SeededRNG_init 1)) <> fst (next_u64 (SeededRNG_init 2))
  /\ state (snd (next_u64 (SeededRNG_init 1)))
     <> state (snd (next_u64 (SeededRNG_init 2))).
Proof.
  assert (W1 : word64 (state (SeededRNG_init 1))) by (vm_compute; split; congruence).
  assert (W2 : word64 (state (SeededRNG_init 2))) by (vm_compute; split; congruence).
  assert (N : state (SeededRNG_init 1) <> state (SeededRNG_init 2))
    by (vm_compute; discriminate).
  split; [exact W1 |]. split; [exact W2 |]. split; [exact N |].
  apply (next_u64_one_to_one (SeededRNG_init 1) (SeededRNG_init 2) W1 W2 N).
Defined.

(** ** The two extreme values of [next_float] *)

Section UnitInterval.
Import PyFloat.

(** The quotient of a positive integer below [0xFFFFFFFF] by
    [0xFFFFFFFF] is a double strictly between 0 and 1. *)
Lemma int_truediv_inside n :
  0 < n < 0xFFFFFFFF ->
  (0 <? int_truediv n 0xFFFFFFFF)%float = true
  /\ (int_truediv n 0xFFFFFFFF <? 1)%float = true.
Proof.
  intros Hn.
  destruct n as [| p | p]; try lia.
  rewrite !ltb_spec. unfold int_truediv. rewrite div_spec.
  rewrite (lit_spec (Zpos p)) by lia.
  rewrite binary_normalize_pos by lia.
  set (k := Zpos (digits2_pos p)).
  assert (Hk : 1 <= k <= 32).
  { unfold k. split; [lia | apply digits2_le; lia]. }
  destruct (digits2_bounds p) as [Hlo Hhi]. fold k in Hlo, Hhi.
  set (mn := Zpos p * 2 ^ (53 - k)).
  assert (E52 : 2 ^ 52 = 2 ^ (k - 1) * 2 ^ (53 - k))
    by (rewrite <- Z.pow_add_r by lia; f_equal; lia).
  assert (E53 : 2 ^ 53 = 2 ^ k * 2 ^ (53 - k))
    by (rewrite <- Z.pow_add_r by lia; f_equal; lia).
  assert (Hpow : 2 ^ 21 <= 2 ^ (53 - k)) by (apply Z.pow_le_mono_r; lia).
  assert (Hmn : 2 ^ 52 <= mn < 2 ^ 53).
  { unfold mn. rewrite E52, E53. split.
    - apply Z.mul_le_mono_nonneg_r; lia.
    - apply Z.mul_lt_mono_pos_r; lia. }
  assert (Hmn' : mn < 0xFFFFFFFF * 2 ^ 21).
  { unfold mn. destruct (Z.eq_dec k 32) as [Ek | Ek].
    - rewrite Ek. change (53 - 32) with 21. apply Z.mul_lt_mono_pos_r; lia.
    - assert (2 ^ 22 <= 2 ^ (53 - k)) by (apply Z.pow_le_mono_r; lia).
      assert (Zpos p * 2 ^ (53 - k) <= (2 ^ k - 1) * 2 ^ (53 - k))
        by (apply Z.mul_le_mono_nonneg_r; lia).
      change (2 ^ 53) with 9007199254740992 in *.
      change (2 ^ 22) with 4194304 in *. change (2 ^ 21) with 2097152 in *.
      lia. }
  assert (Hmn32 : k = 32 -> mn <= 0xFFFFFFFE * 2 ^ 21).
  { intros Ek. unfold mn. rewrite Ek. change (53 - 32) with 21.
    apply Z.mul_le_mono_nonneg_r; lia. }
  change (Prim2SF (lit 0xFFFFFFFF))
    with (S754_finite false 9007199252643840 (-21)).
  change (Prim2SF 0) with (S754_zero false).
  change (Prim2SF 1) with (S754_finite false 4503599627370496 (-52)).
  destruct mn as [| m | m] eqn:Em; try lia.
  unfold SF64div, SFdiv, SFdiv_core_binary.
  assert (Hd1 : Zdigits2 (Zpos (Z.to_pos (Zpos m))) = 53)
    by (apply digits2_unique; simpl; exact Hmn).
  rewrite Hd1. change (Zdigits2 (Zpos 9007199252643840)) with 53.
  assert (He' : Z.min (fexp prec emax (53 + (k - 53) - (53 + -21)))
                      (k - 53 - -21) = k - 85)
    by (unfold fexp, emin, prec, emax; lia).
  rewrite He'.
  replace (k - 53 - -21 - (k - 85)) with 53 by lia.
  cbn [Z.to_pos xorb].
  rewrite Z.shiftl_mul_pow2 by lia.
  pose proof (Z_div_mod (Zpos m * 2 ^ 53) (Zpos 9007199252643840) ltac:(lia)) as Hdiv.
  destruct (Z.div_eucl (Zpos m * 2 ^ 53) (Zpos 9007199252643840)) as [q r].
  destruct Hdiv as [Hdiv Hrem].
  assert (Hq : 2 ^ 52 <= q < 2 ^ 53).
  { change (2 ^ 21) with 2097152 in *. change (2 ^ 52) with 4503599627370496 in *.
    change (2 ^ 53) with 9007199254740992 in *. nia. }
  assert (Hq32 : k = 32 -> q + 1 < 2 ^ 53).
  { intros Ek. specialize (Hmn32 Ek).
    change (2 ^ 21) with 2097152 in *. change (2 ^ 52) with 4503599627370496 in *.
    change (2 ^ 53) with 9007199254740992 in *. lia. }
  rewrite binary_round_aux_53 by lia.
  pose proof (round_nearest_even_range q
                (new_location (Zpos 9007199252643840) r)) as Hr.
  set (q' := round_nearest_even q (new_location (Zpos 9007199252643840) r)) in *.
  destruct (Z.ltb_spec q' (2 ^ 53)).
  - split; [reflexivity |].
    destruct (Z.eq_dec k 32) as [Ek | Ek].
    + unfold SFltb, SFcompare.
      destruct (Z.compare_spec (k - 85) (-52)); try lia; reflexivity.
    + unfold SFltb, SFcompare.
      destruct (Z.compare_spec (k - 85) (-52)); try lia; reflexivity.
  - split; [reflexivity |].
    assert (k <> 32) by (intros Ek; specialize (Hq32 Ek); lia).
    unfold SFltb, SFcompare.
    destruct (Z.compare_spec (k - 85 + 1) (-52)); try lia; reflexivity.
Qed.

End UnitInterval.

(** X6. [next_float] returns 0.0 exactly when the low 32 bits of the
    output are all zero and 1.0 exactly when they are all one; for every
    other output its value is strictly between 0 and 1. *)
Theorem next_float_extremes :
  forall rng : SeededRNG,
    let low := Z.land (fst (next_u64 rng)) 0xFFFFFFFF in
    let v := fst (next_float rng) in
    (0 <? v)%float = negb (low =? 0)
    /\ (v <? 1)%float = negb (low =? 0xFFFFFFFF)
    /\ (low = 0 -> v = 0%float)
    /\ (low = 0xFFFFFFFF -> v = 1%float).
Proof.
  intros rng low v.
  assert (Hv : v = PyFloat.int_truediv low 0xFFFFFFFF).
  { unfold v, low, next_float. destruct (next_u64 rng) as [u rng']. reflexivity. }
  pose proof (low_bits_range (fst (next_u64 rng))) as Hlow. fold low in Hlow.
  rewrite Hv.
  destruct (Z.eqb_spec low 0) as [-> | H0].
  { repeat split; try (vm_compute; reflexivity). intros H. discriminate H. }
  destruct (Z.eqb_spec low 0xFFFFFFFF) as [-> | H1].
  { repeat split; try (vm_compute; reflexivity). intros H. discriminate H. }
  destruct (int_truediv_inside low ltac:(lia)) as [Ha Hb].
  rewrite Ha, Hb. repeat split; intros; contradiction.
Qed.
(** ** Cache keys *)

Section CacheKeys.


Lemma append_empty_r s : (s ++ "")%string = s.
Proof. induction s as [| c s IH]; simpl; [reflexivity | rewrite IH; reflexivity]. Qed.

Lemma append_assoc_string s t u : ((s ++ t) ++ u)%string = (s ++ (t ++ u))%string.
Proof. induction s as [| c s IH]; simpl; [reflexivity | rewrite IH; reflexivity]. Qed.






End CacheKeys.


(** X8. The fields of a cache key are joined by colons without
    escaping: a piece that follows a colon at the end of the generation
    version can move to the front of the content type, and likewise from
    the content type to the parameter hash, without changing the key. *)
Theorem cache_key_fields_not_separated :
  forall (master_seed : Z) (chunk_coords : Z * Z * Z) (a b c d : string),
    compute_cache_key master_seed chunk_coords (a ++ ":" ++ b) c d
    = compute_cache_key master_seed chunk_coords a (b ++ ":" ++ c) d
    /\ compute_cache_key master_seed chunk_coords a (b ++ ":" ++ c) d
       = compute_cache_key master_seed chunk_coords a b (c ++ ":" ++ d).
Proof.
  intros ms cc a b c d. unfold compute_cache_key.
  split; do 2 f_equal; rewrite !append_assoc_string; reflexivity.
Qed.
(** ** Layer 3: the index buffer and the skinning table in closed form *)

Section MeshTables.
Context {L : Libm}.
Import PyFloat.


Lemma range_of_nat k : range (Z.of_nat k) = map Z.of_nat (seq 0 k).
Proof. unfold range. rewrite Nat2Z.id. reflexivity. Qed.








End MeshTables.

Section MeshTableFacts.




End MeshTableFacts.





(** ** Layer 4: textures, rig and clips *)

Section AssetFacts.
Context {L : Libm}.
Import PyFloat.

(** One texel: the palette index is always a position of the palette. *)
Lemma texel_appends ct rng texels x :
  exists rng' t,
    texel (palette_of ct) (rng, texels) x = Ok (rng', texels ++ [t]).
Proof.
  unfold texel.
  destruct (scaled_draw_ok rng) as [k Ek].
  destruct (next_float rng) as [u rng1]. cbn [fst] in Ek.
  unfold len. rewrite palette_of_length.
  change (Z.of_nat 3) with 3. rewrite Ek. unfold res_bind at 1.
  destruct (index_ok (palette_of ct) (Z.to_nat (k mod 3))) as [base [Eb _]].
  { rewrite palette_of_length.
    pose proof (Z.mod_pos_bound k 3 ltac:(lia)). lia. }
  rewrite Eb. unfold res_bind.
  destruct (next_range rng1 (-0.05) 0.05) as [noise rng2].
  destruct base as [[b0 b1] b2]. eexists _, _. reflexivity.
Qed.

Lemma texel_row ct rng texels :
  exists rng' texels',
    for_res (range tex_size) (texel (palette_of ct)) (rng, texels)
    = Ok (rng', texels')
    /\ List.length texels' = (List.length texels + 64)%nat.
Proof.
  destruct (for_res_invariant (texel (palette_of ct))
              (fun k st => List.length (snd st) = (List.length texels + k)%nat)
              (range tex_size) (rng, texels)) as [[rng' texels'] [E H]].
  - cbn [snd]. lia.
  - intros k x [r ts] _ Hk. cbn [snd] in Hk.
    destruct (texel_appends ct r ts x) as (r' & t & Et).
    eexists. split; [exact Et |]. cbn [snd]. rewrite length_app, Hk. simpl. lia.
  - exists rng', texels'. split; [exact E |]. exact H.
Qed.

Lemma texel_grid ct rng :
  exists rng' texels,
    for_res (range tex_size)
      (fun st _ => for_res (range tex_size) (texel (palette_of ct)) st)
      (rng, []) = Ok (rng', texels)
    /\ List.length texels = 4096%nat.
Proof.
  destruct (for_res_invariant
              (fun (st : SeededRNG * list Texel.t) (_ : Z) =>
                 for_res (range tex_size) (texel (palette_of ct)) st)
              (fun k st => List.length (snd st) = (64 * k)%nat)
              (range tex_size) (rng, [])) as [[rng' texels] [E H]].
  - reflexivity.
  - intros k x [r ts] _ Hk. cbn [snd] in Hk.
    destruct (texel_row ct r ts) as (r' & ts' & Er & Hl).
    eexists. split; [exact Er |]. cbn [snd]. lia.
  - exists rng', texels. split; [exact E |]. exact H.
Qed.

Lemma keyframe_angles : keyframe_angles_finite = true.
Proof. vm_compute. reflexivity. Qed.

Lemma frames_of_clip clip_name :
  In clip_name ["idle"; "walk"]%string ->
  In (if String.eqb clip_name "idle" then 30 else 60) [30; 60].
Proof.
  intros [<- | [<- | []]]; cbn; auto.
Qed.

(** One transform: the angles are finite. *)
Lemma bone_transform_ok clip_name f acc j :
  In clip_name ["idle"; "walk"]%string ->
  let frames := if String.eqb clip_name "idle" then 30 else 60 in
  In f (range_step frames 5) -> In j (range 16) ->
  exists tr,
    bone_transform clip_name (int_truediv f frames) acc j = Ok (acc ++ [tr])
    /\ Transform.joint tr = j /\ Transform.rz tr = 0.
Proof.
  intros Hc frames Hf Hj.
  pose proof keyframe_angles as H. unfold keyframe_angles_finite in H.
  rewrite forallb_forall in H. specialize (H frames (frames_of_clip clip_name Hc)).
  rewrite forallb_forall in H. specialize (H f Hf).
  rewrite forallb_forall in H. specialize (H j Hj).
  apply andb_prop in H. destruct H as [H H3].
  apply andb_prop in H. destruct H as [H1 H2].
  apply negb_true_iff in H1, H2, H3.
  unfold bone_transform, of_int, math_sin, math_cos.
  fold (lit j). rewrite H1. unfold res_bind at 1.
  rewrite H2. unfold res_bind at 1. rewrite H3. unfold res_bind.
  eexists. split; [reflexivity |]. split; reflexivity.
Qed.

Lemma range_incl a b : 0 <= a <= b -> incl (range a) (range b).
Proof.
  intros H j Hj. apply In_nth_error in Hj. destruct Hj as [k Hk].
  apply nth_error_range_inv in Hk. destruct Hk as [-> Hk].
  unfold range. apply in_map, in_seq. lia.
Qed.

(** The transforms of one keyframe: one per rig joint, at most 16. *)
Lemma keyframe_transforms_ok clip_name f n :
  In clip_name ["idle"; "walk"]%string ->
  let frames := if String.eqb clip_name "idle" then 30 else 60 in
  In f (range_step frames 5) -> 0 <= n ->
  exists trs,
    for_res (range (Z.min n 16))
            (bone_transform clip_name (int_truediv f frames)) [] = Ok trs
    /\ map Transform.joint trs = range (Z.min n 16).
Proof.
  intros Hc frames Hf Hn.
  destruct (for_res_invariant
              (bone_transform clip_name (int_truediv f frames))
              (fun k trs => map Transform.joint trs
                            = firstn k (range (Z.min n 16)))
              (range (Z.min n 16)) []) as [trs [E H]].
  - reflexivity.
  - intros k j acc Hk Hacc.
    assert (Hj : In j (range 16)).
    { apply (range_incl (Z.min n 16) 16); [lia |].
      eapply nth_error_In; exact Hk. }
    destruct (bone_transform_ok clip_name f acc j Hc Hf Hj) as (tr & Et & Hjt & _).
    eexists. split; [exact Et |].
    rewrite map_app, Hacc, (firstn_succ_snoc _ _ _ Hk). cbn [map].
    rewrite Hjt. reflexivity.
  - rewrite firstn_all in H. exists trs. split; assumption.
Qed.

(** One clip: a keyframe every fifth frame. *)
Lemma clip_ok n acc clip_name :
  In clip_name ["idle"; "walk"]%string -> 0 <= n ->
  let frames := if String.eqb clip_name "idle" then 30 else 60 in
  exists c,
    clip n acc clip_name = Ok (acc ++ [c])
    /\ clip_summary c
       = (clip_name, 30, frames, len (range_step frames 5), range_step frames 5)
    /\ Forall (fun kf => map Transform.joint (Keyframe.transforms kf)
                         = range (Z.min n 16))
              (Clip.keyframes c).
Proof.
  intros Hc Hn frames. unfold clip. fold frames.
  destruct (for_res_invariant
              (fun keyframes f =>
                 (bone_transforms <-
                    for_res (range (Z.min n 16))
                      (bone_transform clip_name (int_truediv f frames)) [] ;;
                  Ok (keyframes ++ [ {| Keyframe.frame := f;
                                        Keyframe.transforms := bone_transforms |} ]))%res)
              (fun k kfs =>
                 map Keyframe.frame kfs = firstn k (range_step frames 5)
                 /\ Forall (fun kf => map Transform.joint (Keyframe.transforms kf)
                                      = range (Z.min n 16)) kfs)
              (range_step frames 5) []) as [kfs [E [Hf Ht]]].
  - split; [reflexivity | constructor].
  - intros k f kfs Hk [Hfr Htr].
    destruct (keyframe_transforms_ok clip_name f n Hc
                (nth_error_In _ _ Hk) Hn) as (trs & Et & Hj).
    fold frames in Et. rewrite Et. unfold res_bind.
    eexists. split; [reflexivity |]. split.
    + rewrite map_app, Hfr, (firstn_succ_snoc _ _ _ Hk). reflexivity.
    + apply Forall_app. split; [exact Htr |]. constructor; [exact Hj | constructor].
  - rewrite E. unfold res_bind. eexists. split; [reflexivity |].
    rewrite firstn_all in Hf. unfold clip_summary.
    cbn [Clip.name Clip.fps Clip.total_frames Clip.keyframe_count Clip.keyframes].
    split; [| exact Ht].
    rewrite Hf. unfold len. rewrite <- Hf, length_map. reflexivity.
Qed.

(** Layer 4 between its two [print]s, for every skeleton. *)
Lemma layer_4_build_ok config rng skeleton :
  exists assets texture idle walk,
    layer_4_build config rng skeleton = Ok assets
    /\ textures assets = [texture]
    /\ Texture.name texture = (content_type config ++ "_diffuse")%string
    /\ Texture.width texture = 64 /\ Texture.height texture = 64
    /\ Texture.pixel_count texture = 4096
    /\ List.length (Texture.sample texture) = 4%nat
    /\ joint_count (rig assets) = len (bones skeleton)
    /\ rig_joints (rig assets)
       = map rig_joint_of
             (combine (seq 0 (List.length (bones skeleton))) (bones skeleton))
    /\ animations assets = [idle; walk]
    /\ clip_summary idle = ("idle"%string, 30, 30, 6, [0; 5; 10; 15; 20; 25])
    /\ clip_summary walk
       = ("walk"%string, 30, 60, 12, [0; 5; 10; 15; 20; 25; 30; 35; 40; 45; 50; 55])
    /\ Forall (fun kf => map Transform.joint (Keyframe.transforms kf)
                         = range (Z.min (len (bones skeleton)) 16))
              (Clip.keyframes idle ++ Clip.keyframes walk).
Proof.
  unfold layer_4_build.
  destruct (texel_grid (content_type config) rng) as (rng' & texels & E & Hl).
  rewrite E. unfold res_bind at 1.
  set (ibs := combine (seq 0 (List.length (bones skeleton))) (bones skeleton)).
  assert (Hn : len (map rig_joint_of ibs) = len (bones skeleton)).
  { unfold len, ibs. rewrite length_map, length_combine_seq. reflexivity. }
  change (map (fun ib : nat * Bone.t =>
                 {| RigJoint.id := Z.of_nat (fst ib);
                    RigJoint.name := "bone_" ++ PyStr.of_int_03d (Z.of_nat (fst ib));
                    RigJoint.length := Bone.length (snd ib);
                    RigJoint.stiffness := Bone.stiffness (snd ib) |}) ibs)
    with (map rig_joint_of ibs).
  rewrite Hn. cbn [for_res].
  assert (H0 : 0 <= len (bones skeleton)) by (unfold len; lia).
  destruct (clip_ok (len (bones skeleton)) [] "idle"%string
              ltac:(cbn; auto) H0) as (idle & Ei & Si & Ti).
  rewrite Ei. cbn [app].
  destruct (clip_ok (len (bones skeleton)) [idle] "walk"%string
              ltac:(cbn; auto) H0) as (walk & Ew & Sw & Tw).
  rewrite Ew. cbn [app]. unfold res_bind.
  eexists _, _, idle, walk. split; [reflexivity |].
  cbn [textures rig animations joint_count rig_joints].
  split; [reflexivity |].
  cbn [Texture.name Texture.width Texture.height Texture.pixel_count
       Texture.sample].
  repeat split; try reflexivity; try assumption.
  all: try (unfold len; rewrite Hl; reflexivity).
  all: try (rewrite length_firstn, Hl; reflexivity).
  all: try exact Si; try exact Sw.
  apply Forall_app. split; assumption.
Qed.

End AssetFacts.

(** X11. Layer 4 never raises, whatever the skeleton and the generator
    draw.  It returns one texture of 64 by 64 texels with a sample of
    four, one rig joint per bone (numbered and named after the position
    of the bone, with its length and stiffness), and the two clips
    idle (30 frames, 6 keyframes) and walk (60 frames, 12 keyframes),
    keyed every fifth frame; each keyframe moves the first rig joints
    only, 16 at most. *)
Theorem layer_4_assets_shape :
  forall (L : Libm) (config : GenerationConfig) (mesh : Mesh)
         (skeleton : Skeleton) (w : World),
    well_formed config ->
    exists (assets : Assets) (w' : World) texture idle walk,
      layer_4_assets_animation config mesh skeleton w = (Ok assets, w')
      /\ textures assets = [texture]
      /\ Texture.name texture = (content_type config ++ "_diffuse")%string
      /\ Texture.width texture = 64 /\ Texture.height texture = 64
      /\ Texture.pixel_count texture = 4096
      /\ List.length (Texture.sample texture) = 4%nat
      /\ joint_count (rig assets) = len (bones skeleton)
      /\ rig_joints (rig assets)
         = map rig_joint_of
               (combine (seq 0 (List.length (bones skeleton))) (bones skeleton))
      /\ animations assets = [idle; walk]
      /\ clip_summary idle = ("idle"%string, 30, 30, 6, [0; 5; 10; 15; 20; 25])
      /\ clip_summary walk
         = ("walk"%string, 30, 60, 12,
            [0; 5; 10; 15; 20; 25; 30; 35; 40; 45; 50; 55])
      /\ Forall (fun kf => map Transform.joint (Keyframe.transforms kf)
                           = range (Z.min (len (bones skeleton)) 16))
                (Clip.keyframes idle ++ Clip.keyframes walk).
Proof.
  intros L config mesh skeleton w Hwf.
  destruct (well_formed_seed config 4 Hwf ltac:(lia)) as [seed Es].
  destruct (layer_4_build_ok config (SeededRNG_init seed) skeleton)
    as (assets & texture & idle & walk & Eb & H).
  exists assets. eexists. exists texture, idle, walk. split; [| exact H].
  unfold layer_4_assets_animation, bind, lift, print, ret.
  rewrite Es, Eb. reflexivity.
Qed.

Lemma layer_4_assets_shape_witness :
  well_formed sample_config
  /\ exists (assets : Assets) (w' : World) texture idle walk,
       layer_4_assets_animation (L := sample_libm) sample_config empty_mesh
                                sample_skeleton [] = (Ok assets, w')
       /\ textures assets = [texture]
       /\ Texture.name texture = (content_type sample_config ++ "_diffuse")%string
       /\ Texture.width texture = 64 /\ Texture.height texture = 64
       /\ Texture.pixel_count texture = 4096
       /\ List.length (Texture.sample texture) = 4%nat
       /\ joint_count (rig assets) = len (bones sample_skeleton)
       /\ rig_joints (rig assets)
          = map rig_joint_of
                (combine (seq 0 (List.length (bones sample_skeleton)))
                         (bones sample_skeleton))
       /\ animations assets = [idle; walk]
       /\ clip_summary idle = ("idle"%string, 30, 30, 6, [0; 5; 10; 15; 20; 25])
       /\ clip_summary walk
          = ("walk"%string, 30, 60, 12,
             [0; 5; 10; 15; 20; 25; 30; 35; 40; 45; 50; 55])
       /\ Forall (fun kf => map Transform.joint (Keyframe.transforms kf)
                            = range (Z.min (len (bones sample_skeleton)) 16))
                 (Clip.keyframes idle ++ Clip.keyframes walk).
Proof.
  split; [reflexivity |].
  apply (layer_4_assets_shape sample_libm sample_config empty_mesh
           sample_skeleton []).
  reflexivity.
Defined.

(** ** Layer 5: the LOD table *)

Section LodFacts.
Import PyFloat.

Lemma shr_1_even b :
  0 <= b ->
  shr_1 {| shr_m := 2 * b; shr_r := false; shr_s := false |}
  = {| shr_m := b; shr_r := false; shr_s := false |}.
Proof. intros Hb. destruct b as [| q | q]; [reflexivity | reflexivity | lia]. Qed.

(** Shifting out [p] zero bits is exact. *)
Lemma iter_shr_1_exact p :
  forall a, 0 <= a ->
    iter_pos shr_1 p {| shr_m := a * 2 ^ Zpos p; shr_r := false; shr_s := false |}
    = {| shr_m := a; shr_r := false; shr_s := false |}.
Proof.
  induction p as [p IH | p IH |]; intros a Ha; cbn [iter_pos].
  - replace (a * 2 ^ Zpos p~1) with (2 * ((a * 2 ^ Zpos p) * 2 ^ Zpos p)).
    + rewrite shr_1_even by (apply Z.mul_nonneg_nonneg; [apply Z.mul_nonneg_nonneg |];
                              try lia; apply Z.pow_nonneg; lia).
      rewrite IH by (apply Z.mul_nonneg_nonneg; [lia | apply Z.pow_nonneg; lia]).
      apply IH. exact Ha.
    + replace (Zpos p~1) with (Zpos p + Zpos p + 1) by lia.
      rewrite !Z.pow_add_r by lia. change (2 ^ 1) with 2. ring.
  - replace (a * 2 ^ Zpos p~0) with ((a * 2 ^ Zpos p) * 2 ^ Zpos p).
    + rewrite IH by (apply Z.mul_nonneg_nonneg; [lia | apply Z.pow_nonneg; lia]).
      apply IH. exact Ha.
    + replace (Zpos p~0) with (Zpos p + Zpos p) by lia.
      rewrite !Z.pow_add_r by lia. ring.
  - change (2 ^ 1) with 2. rewrite Z.mul_comm. apply shr_1_even. exact Ha.
Qed.

(** The product of a normal double by a power of two [2^(-k)] that keeps
    it normal: the exponent moves, the mantissa stays. *)
Lemma scale_exact m e k :
  2 ^ 52 <= Zpos m < 2 ^ 53 -> 0 <= k -> - 1074 <= e - k -> e - k <= 971 ->
  SFmul prec emax (S754_finite false m e)
        (S754_finite false 4503599627370496 (- 52 - k))
  = S754_finite false m (e - k).
Proof.
  intros Hm Hk Hlo Hhi. unfold SFmul. cbn [xorb].
  unfold binary_round_aux, shr_fexp.
  assert (Hd : Zdigits2 (Zpos (m * 4503599627370496)) = 105).
  { apply digits2_unique. rewrite Pos2Z.inj_mul.
    change (Zpos 4503599627370496) with (2 ^ 52).
    change (2 ^ (105 - 1)) with (2 ^ 52 * 2 ^ 52).
    change (2 ^ 105) with (2 ^ 53 * 2 ^ 52). split.
    - apply Z.mul_le_mono_nonneg_r; lia.
    - apply Z.mul_lt_mono_pos_r; lia. }
  rewrite Hd.
  assert (Hf : fexp prec emax (105 + (e + (- 52 - k))) - (e + (- 52 - k)) = 52)
    by (unfold fexp, emin, prec, emax; lia).
  rewrite Hf. unfold shr at 1. cbn [shr_record_of_loc].
  rewrite Pos2Z.inj_mul. change (Zpos 4503599627370496) with (2 ^ Zpos 52).
  rewrite iter_shr_1_exact by lia.
  cbn [shr_m loc_of_shr_record round_nearest_even].
  assert (Hd' : Zdigits2 (Zpos m) = 53) by (apply digits2_unique; exact Hm).
  rewrite Hd'.
  assert (Hf' : fexp prec emax (53 + (e + (- 52 - k) + 52))
                - (e + (- 52 - k) + 52) = 0)
    by (unfold fexp, emin, prec, emax; lia).
  rewrite Hf'. cbn [shr shr_record_of_loc shr_m].
  destruct (Z.leb_spec (e + (- 52 - k) + 52) (emax - prec)) as [_ | Hbad];
    [| unfold emax, prec in Hbad; lia].
  f_equal. lia.
Qed.

Lemma lod_constants_exact level k :
  nth_error (range 3) k = Some level ->
  exists fp,
    of_int (2 ^ level) = Ok fp /\ of_int level = Ok (lit level)
    /\ (lit level * 50)%float = nth k [0; 50; 100]%float 0%float
    /\ Prim2SF (1 / fp) = S754_finite false 4503599627370496 (- 52 - level)
    /\ 0 <= level <= 2.
Proof.
  intros H. apply nth_error_range_inv in H. destruct H as [-> Hk].
  change (Z.to_nat 3) with 3%nat in Hk.
  destruct k as [| [| [| k]]]; [| | | lia].
  - exists 1%float. repeat split; try lia; vm_compute; reflexivity.
  - exists 2%float. repeat split; try lia; vm_compute; reflexivity.
  - exists 4%float. repeat split; try lia; vm_compute; reflexivity.
Qed.

(** A count below [2^53], scaled by [2^(-level)] and truncated, is the
    quotient of the count by [2^level]. *)
Lemma scaled_count_exact t r level :
  0 <= t < 2 ^ 53 -> 0 <= level <= 2 ->
  Prim2SF r = S754_finite false 4503599627370496 (- 52 - level) ->
  of_int t = Ok (lit t) /\ to_int (lit t * r) = Ok (t / 2 ^ level).
Proof.
  intros Ht Hlev Hr.
  destruct t as [| p | p]; try lia.
  - split; [vm_compute; reflexivity |]. unfold to_int.
    rewrite mul_spec, Hr. change (Prim2SF (lit 0)) with (S754_zero false).
    cbn [SF64mul SFmul xorb]. rewrite Zdiv_0_l. reflexivity.
  - pose proof (lit_spec (Zpos p) ltac:(lia)) as Hl.
    rewrite binary_normalize_pos in Hl by lia.
    set (d := Zpos (digits2_pos p)) in *.
    assert (Hd : 1 <= d <= 53).
    { unfold d. split; [lia | apply digits2_le; lia]. }
    destruct (digits2_bounds p) as [Hlo Hhi]. fold d in Hlo, Hhi.
    assert (Hpow : 0 < 2 ^ (53 - d)) by (apply Z.pow_pos_nonneg; lia).
    assert (Hm : 2 ^ 52 <= Zpos p * 2 ^ (53 - d) < 2 ^ 53).
    { assert (E52 : 2 ^ 52 = 2 ^ (d - 1) * 2 ^ (53 - d))
        by (rewrite <- Z.pow_add_r by lia; f_equal; lia).
      assert (E53 : 2 ^ 53 = 2 ^ d * 2 ^ (53 - d))
        by (rewrite <- Z.pow_add_r by lia; f_equal; lia).
      rewrite E52, E53. split.
      - apply Z.mul_le_mono_nonneg_r; lia.
      - apply Z.mul_lt_mono_pos_r; lia. }
    destruct (Zpos p * 2 ^ (53 - d)) as [| m | m] eqn:Em; try lia.
    cbn [Z.to_pos] in Hl. split.
    + unfold of_int. fold (lit (Zpos p)).
      rewrite (finite_not_infinity _ _ _ _ Hl). reflexivity.
    + unfold to_int. rewrite mul_spec, Hl, Hr. unfold SF64mul.
      rewrite scale_exact by lia.
      f_equal.
      assert (Eq : Zpos p / 2 ^ level
                   = Zpos m / 2 ^ (53 - d + level)).
      { rewrite <- Em, Z.pow_add_r by lia.
        rewrite (Z.mul_comm (2 ^ (53 - d)) (2 ^ level)).
        rewrite Z.div_mul_cancel_r; [reflexivity | | lia].
        apply Z.pow_nonzero; lia. }
      rewrite Eq.
      destruct (d - 53 - level) as [| q | q] eqn:Ee; try lia.
      * replace (53 - d + level) with 0 by lia.
        rewrite Z.shiftl_0_r, Z.div_1_r. reflexivity.
      * rewrite Z.shiftr_div_pow2 by lia. f_equal. f_equal. lia.
Qed.

Lemma lod_exact vertex_count tri_count acc level k :
  0 <= vertex_count < 2 ^ 53 -> 0 <= tri_count < 2 ^ 53 ->
  nth_error (range 3) k = Some level ->
  lod vertex_count tri_count acc level
  = Ok (acc ++ [lod_entry vertex_count tri_count level
                          (nth k [0; 50; 100]%float 0%float)]).
Proof.
  intros Hv Ht Hk.
  destruct (lod_constants_exact level k Hk) as (fp & Efp & Efl & Ed & Er & Hlev).
  destruct (scaled_count_exact tri_count (1 / fp) level Ht Hlev Er) as [Et Ett].
  destruct (scaled_count_exact vertex_count (1 / fp) level Hv Hlev Er) as [Ev Evv].
  unfold lod. rewrite Efp. unfold res_bind at 1. rewrite Efl. unfold res_bind at 1.
  rewrite Et. unfold res_bind at 1. rewrite Ett. unfold res_bind at 1.
  rewrite Ev. unfold res_bind at 1. rewrite Evv. unfold res_bind.
  rewrite Ed. reflexivity.
Qed.

Lemma lods_exact vertex_count tri_count :
  0 <= vertex_count < 2 ^ 53 -> 0 <= tri_count < 2 ^ 53 ->
  for_res (range 3) (lod vertex_count tri_count) []
  = Ok (lod_table vertex_count tri_count).
Proof.
  intros Hv Ht. change (range 3) with [0; 1; 2]. cbn [for_res].
  rewrite (lod_exact vertex_count tri_count [] 0 0 Hv Ht eq_refl).
  rewrite (lod_exact vertex_count tri_count _ 1 1 Hv Ht eq_refl).
  rewrite (lod_exact vertex_count tri_count _ 2 2 Hv Ht eq_refl).
  reflexivity.
Qed.

End LodFacts.

(** X12. For a mesh whose counts are below [2^53], Layer 5 returns a
    scene of two nodes: the chunk root, whose only child is the content
    node, and the content node with its LOD table, in which level [k]
    (at distance 0, 50 and 100) has the triangle count and the vertex
    count of the mesh divided by [2^k], rounded down, and at least 1: an
    empty mesh is listed with one triangle and one vertex at every level.
    The manifest repeats the counts of the mesh. *)
Theorem scene_lod_table :
  forall (config : GenerationConfig) (mesh : Mesh) (assets : Assets) (w : World),
    well_formed config ->
    0 <= triangle_count mesh < 2 ^ 53 ->
    len (vertices mesh) < 2 ^ 53 ->
    exists (scene : Scene) (w' : World) chunk_id content_id tx ty tz sphere anim phys,
      layer_5_world_integration config mesh assets w = (Ok scene, w')
      /\ scene_graph scene
         = [ ChunkRoot chunk_id tx ty tz [content_id];
             ContentNode content_id (content_type config)
               (lod_table (len (vertices mesh)) (triangle_count mesh))
               sphere anim phys ]
      /\ lod_levels (export_manifest scene) = 3
      /\ total_vertices (export_manifest scene) = len (vertices mesh)
      /\ total_triangles (export_manifest scene) = triangle_count mesh.
Proof.
  intros config mesh assets w Hwf Ht Hv.
  destruct (well_formed_seed config 5 Hwf ltac:(lia)) as [seed Es].
  assert (Hv' : 0 <= len (vertices mesh) < 2 ^ 53) by (unfold len in *; lia).
  pose proof (lods_exact _ _ Hv' Ht) as El.
  unfold layer_5_world_integration, bind, lift, print, ret.
  rewrite Es. unfold layer_5_build.
  destruct (chunk_coords config) as [[cx cy] cz].
  rewrite El. unfold res_bind.
  eexists _, _, _, _, _, _, _, _, _, _. split; [reflexivity |].
  cbn [scene_graph export_manifest lod_levels total_vertices total_triangles].
  repeat split.
Qed.

Lemma scene_lod_table_witness :
  well_formed sample_config
  /\ 0 <= triangle_count empty_mesh < 2 ^ 53
  /\ len (vertices empty_mesh) < 2 ^ 53
  /\ exists (scene : Scene) (w' : World) chunk_id content_id tx ty tz sphere anim phys,
       layer_5_world_integration sample_config empty_mesh empty_assets []
       = (Ok scene, w')
       /\ scene_graph scene
          = [ ChunkRoot chunk_id tx ty tz [content_id];
              ContentNode content_id (content_type sample_config)
                (lod_table (len (vertices empty_mesh)) (triangle_count empty_mesh))
                sphere anim phys ]
       /\ lod_levels (export_manifest scene) = 3
       /\ total_vertices (export_manifest scene) = len (vertices empty_mesh)
       /\ total_triangles (export_manifest scene) = triangle_count empty_mesh.
Proof.
  split; [reflexivity |].
  split; [simpl; lia |].
  split; [reflexivity |].
  apply (scene_lod_table sample_config empty_mesh empty_assets []).
  - reflexivity.
  - simpl. lia.
  - reflexivity.
Defined.

(** ** Layer 2 whatever the distances *)

Section PartialLoops.

(** A loop that returned kept its invariant, if every step that returns
    keeps it. *)
Lemma for_res_returned_from {A St} (body : St -> A -> res St)
    (P : nat -> St -> Prop) (xs : list A) :
  forall (k0 : nat) (s s' : St),
    P k0 s ->
    (forall k x s s1, nth_error xs k = Some x -> P (k0 + k)%nat s ->
                      body s x = Ok s1 -> P (S (k0 + k)) s1) ->
    for_res xs body s = Ok s' -> P (k0 + List.length xs)%nat s'.
Proof.
  induction xs as [| x xs IH]; intros k0 s s' H0 Hstep E; cbn [for_res] in E.
  - injection E as <-. cbn [List.length]. rewrite Nat.add_0_r. exact H0.
  - destruct (body s x) as [s1 | e] eqn:E1; [| discriminate].
    cbn [List.length]. replace (k0 + S (List.length xs))%nat
      with (S k0 + List.length xs)%nat by lia.
    apply (IH (S k0) s1 s'); [| | exact E].
    + specialize (Hstep 0%nat x s s1 eq_refl). rewrite Nat.add_0_r in Hstep.
      apply Hstep; assumption.
    + intros k y t t1 Hy Ht Et.
      replace (S k0 + k)%nat with (k0 + S k)%nat in * by lia.
      apply (Hstep (S k) y t t1 Hy Ht Et).
Qed.

Lemma for_res_returned {A St} (body : St -> A -> res St)
    (P : nat -> St -> Prop) (xs : list A) (s s' : St) :
  P 0%nat s ->
  (forall k x s s1, nth_error xs k = Some x -> P k s ->
                    body s x = Ok s1 -> P (S k) s1) ->
  for_res xs body s = Ok s' -> P (List.length xs) s'.
Proof.
  intros H0 Hstep E.
  apply (for_res_returned_from body P xs 0 s s' H0); assumption.
Qed.

Lemma index_inv {A} (xs : list A) i a : index xs i = Ok a -> nth_error xs i = Some a.
Proof.
  unfold index. destruct (nth_error xs i); intros H; [| discriminate].
  injection H as ->. reflexivity.
Qed.

End PartialLoops.

Section PartialGrowth.
Context {L : Libm}.
Import PyFloat.

Lemma scan_inner_kept subset in_tree i b b' n :
  nth_error in_tree i = Some true ->
  pair_state in_tree b ->
  for_res (seq 0 n) (scan_inner subset in_tree i) b = Ok b' ->
  pair_state in_tree b'.
Proof.
  intros Hi Hb E.
  apply (for_res_returned (scan_inner subset in_tree i)
           (fun _ c => pair_state in_tree c) (seq 0 n) b b' Hb); [| exact E].
  intros k j c c1 _ Hc Ec. unfold scan_inner in Ec.
  destruct (index in_tree j) as [in_j | e] eqn:Ej; [| discriminate].
  unfold res_bind in Ec at 1. destruct in_j.
  - injection Ec as <-. exact Hc.
  - destruct (index subset i) as [p_i | e]; [| discriminate].
    destruct (index subset j) as [p_j | e]; [| discriminate].
    unfold res_bind in Ec at 1 2.
    destruct (_distance p_i p_j) as [d | e]; [| discriminate].
    unfold res_bind in Ec.
    destruct (d <? best_dist c)%float; injection Ec as <-; [| exact Hc].
    right. cbn [best_i best_j]. split; [exact Hi | apply index_inv, Ej].
Qed.

Lemma scan_outer_kept subset in_tree n b b' :
  pair_state in_tree b ->
  for_res (seq 0 n) (scan_outer subset in_tree n) b = Ok b' ->
  pair_state in_tree b'.
Proof.
  intros Hb E.
  apply (for_res_returned (scan_outer subset in_tree n)
           (fun _ c => pair_state in_tree c) (seq 0 n) b b' Hb); [| exact E].
  intros k i c c1 _ Hc Ec. unfold scan_outer in Ec.
  destruct (index in_tree i) as [in_i | e] eqn:Ei; [| discriminate].
  unfold res_bind in Ec. destruct in_i; cbn [negb] in Ec.
  - apply (scan_inner_kept subset in_tree i c c1 n); try assumption.
    apply index_inv, Ei.
  - injection Ec as <-. exact Hc.
Qed.

Lemma rooted_nil : rooted [].
Proof. intros k b H. destruct k; discriminate. Qed.

Lemma rooted_snoc bs e :
  rooted bs ->
  Bone.to e <> 0%nat -> Bone.from e <> Bone.to e ->
  (forall b', In b' bs -> Bone.to b' <> Bone.to e) ->
  (Bone.from e = 0%nat \/ exists b', In b' bs /\ Bone.to b' = Bone.from e) ->
  rooted (bs ++ [e]).
Proof.
  intros Hr H0 Hne Hfresh Hpar k b Hk.
  destruct (Nat.lt_ge_cases k (List.length bs)) as [Hlt | Hge].
  - rewrite nth_error_app1 in Hk by exact Hlt.
    rewrite firstn_app. replace (k - List.length bs)%nat with 0%nat by lia.
    cbn [firstn]. rewrite app_nil_r. apply Hr. exact Hk.
  - rewrite nth_error_app2 in Hk by exact Hge.
    destruct (k - List.length bs)%nat as [| d] eqn:Ed; cbn in Hk;
      [| destruct d; discriminate].
    injection Hk as <-. assert (k = List.length bs) by lia. subst k.
    rewrite firstn_app, Nat.sub_diag, firstn_all. cbn [firstn].
    rewrite app_nil_r. auto.
Qed.

(** One round that returned kept the tree a tree. *)
Lemma prim_round_kept subset rng in_tree bs k x st' :
  tree_so_far (List.length subset) k in_tree bs ->
  prim_round subset (List.length subset) (rng, in_tree, bs) x = Ok st' ->
  tree_so_far (List.length subset) (S k) (snd (fst st')) (snd st').
Proof.
  intros (Hlen & Hroot & Hcount & Hbs & Hin & Hfrom & Hlink & Hac & Hrt) E.
  unfold prim_round in E.
  destruct (for_res (seq 0 (List.length subset))
              (scan_outer subset in_tree (List.length subset))
              {| best_dist := infinity; best_i := 0; best_j := 0 |})
    as [b | e] eqn:Es; [| discriminate].
  unfold res_bind in E at 1.
  assert (Hb : pair_state in_tree b).
  { apply (scan_outer_kept subset in_tree (List.length subset)
             {| best_dist := infinity; best_i := 0; best_j := 0 |} b);
      [left; reflexivity | exact Es]. }
  destruct (best_dist b <? infinity)%float eqn:Hd.
  - destruct Hb as [Hinf | [Hi Hj]]; [rewrite Hinf in Hd; discriminate Hd |].
    assert (Hjn : (best_j b < List.length in_tree)%nat)
      by (apply nth_error_Some; congruence).
    unfold list_assign in E. apply Nat.ltb_lt in Hjn. rewrite Hjn in E.
    apply Nat.ltb_lt in Hjn. unfold res_bind in E.
    destruct (next_range rng 0.3 1) as [s rng'].
    injection E as <-. cbn [fst snd].
    set (e := {| Bone.from := best_i b; Bone.to := best_j b;
                 Bone.length := round4 (best_dist b);
                 Bone.stiffness := round4 s |}).
    assert (Hset : forall v, nth_error (list_set in_tree (best_j b) true) v
                             = Some true <->
                             v = best_j b \/ nth_error in_tree v = Some true).
    { intros v. rewrite nth_error_list_set.
      destruct (Nat.eqb_spec v (best_j b)) as [-> | Hne].
      - apply Nat.ltb_lt in Hjn. rewrite Hjn. tauto.
      - tauto. }
    assert (Hj0 : best_j b <> 0%nat) by (intros E0; rewrite E0 in Hj; congruence).
    assert (Hij : best_i b <> best_j b)
      by (intros E0; rewrite E0 in Hi; congruence).
    assert (Hfresh : forall b', In b' bs ->
                       Bone.from b' <> best_j b /\ Bone.to b' <> best_j b).
    { intros b' Hb'. split; intros E0.
      - pose proof (Hfrom b' Hb') as H1. rewrite E0 in H1. congruence.
      - assert (H1 : nth_error in_tree (Bone.to b') = Some true)
          by (apply Hin; right; exists b'; auto).
        rewrite E0 in H1. congruence. }
    unfold tree_so_far. refine (conj _ (conj _ (conj _ (conj _ (conj _ (conj _ (conj _ (conj _ _)))))))).
    + rewrite length_list_set. exact Hlen.
    + apply Hset. right. exact Hroot.
    + rewrite (count_true_set in_tree (best_j b) Hj), Hcount, length_app.
      cbn [List.length]. lia.
    + rewrite length_app. cbn [List.length]. lia.
    + intros v. split.
      * intros Hv. apply Hset in Hv. destruct Hv as [-> | Hv].
        -- right. exists e. split; [apply in_or_app; right; left |]; reflexivity.
        -- apply Hin in Hv.
           destruct Hv as [-> | [b' [Hb' Ht]]]; [left; reflexivity |].
           right. exists b'. split; [apply in_or_app; left; exact Hb' | exact Ht].
      * intros [-> | [b' [Hb' Ht]]].
        -- apply Hset. right. exact Hroot.
        -- apply Hset. apply in_app_or in Hb'. destruct Hb' as [Hb' | [<- | []]].
           ++ right. apply Hin. right. exists b'. auto.
           ++ left. symmetry. exact Ht.
    + intros b' Hb'. apply Hset. apply in_app_or in Hb'.
      destruct Hb' as [Hb' | [<- | []]]; right; [apply Hfrom, Hb' | exact Hi].
    + intros v Hv. apply Hset in Hv. destruct Hv as [-> | Hv].
      * eapply rt_trans.
        -- apply (linked_mono bs (bs ++ [e])); [apply incl_appl, incl_refl |].
           apply Hlink, Hi.
        -- apply rt_step. exists e.
           split; [apply in_or_app; right; left; reflexivity |].
           left. split; reflexivity.
      * apply (linked_mono bs (bs ++ [e])); [apply incl_appl, incl_refl |].
        apply Hlink, Hv.
    + apply acyclic_snoc; [exact Hac | exact Hij | exact Hfresh].
    + apply rooted_snoc; [exact Hrt | exact Hj0 | exact Hij | |].
      * intros b' Hb'. apply (Hfresh b' Hb').
      * apply Hin in Hi. destruct Hi as [Hi | [b' [Hb' Ht]]]; [left; exact Hi |].
        right. exists b'. split; assumption.
  - injection E as <-. cbn [fst snd]. unfold tree_so_far.
    refine (conj _ (conj _ (conj _ (conj _ (conj _ (conj _ (conj _ (conj _ _)))))))); try assumption. lia.
Qed.

(** The rounds that returned grew a tree. *)
Lemma prim_rounds_kept subset rng m st' :
  (1 <= List.length subset)%nat ->
  for_res (seq 0 m) (prim_round subset (List.length subset))
          (rng, list_set (repeat false (List.length subset)) 0 true, [])
  = Ok st' ->
  tree_so_far (List.length subset) m (snd (fst st')) (snd st').
Proof.
  intros Hn E. set (n := List.length subset) in *.
  pose proof (for_res_returned (prim_round subset n)
                (fun k st => tree_so_far n k (snd (fst st)) (snd st))
                (seq 0 m) (rng, list_set (repeat false n) 0 true, []) st') as H.
  rewrite length_seq in H. apply H; [| | exact E].
  - unfold tree_so_far. cbn [fst snd List.length].
    assert (Hset : forall v, nth_error (list_set (repeat false n) 0 true) v
                             = Some true <-> v = 0%nat).
    { intros v. rewrite nth_error_list_set, repeat_length.
      destruct (Nat.eqb_spec v 0) as [-> | Hne].
      - destruct (Nat.ltb_spec 0 n); [tauto | lia].
      - split; [| tauto]. intros Hv. exfalso.
        apply nth_error_In, repeat_spec in Hv. discriminate. }
    refine (conj _ (conj _ (conj _ (conj _ (conj _ (conj _ (conj _ (conj _ _)))))))).
    + rewrite length_list_set, repeat_length. reflexivity.
    + apply Hset. reflexivity.
    + rewrite count_true_set, count_true_repeat_false; [reflexivity |].
      destruct n; [lia | reflexivity].
    + lia.
    + intros v. split.
      * intros Hv. left. apply Hset. exact Hv.
      * intros [-> | [b [[] _]]]. apply Hset. reflexivity.
    + intros b [].
    + intros v Hv. apply Hset in Hv. subst v. apply rt_refl.
    + apply acyclic_nil.
    + apply rooted_nil.
  - intros k x [[r it] bs] s1 _ Hk Ek. cbn [fst snd] in Hk.
    apply (prim_round_kept subset r it bs k x s1 Hk Ek).
Qed.

End PartialGrowth.

Section DegreeFacts.

Lemma degree_app bs1 bs2 i : degree (bs1 ++ bs2) i = degree bs1 i + degree bs2 i.
Proof.
  induction bs1 as [| b bs1 IH]; cbn [app degree]; [reflexivity |].
  rewrite IH. lia.
Qed.

Lemma sumZ_app l1 l2 : sumZ (l1 ++ l2) = sumZ l1 + sumZ l2.
Proof.
  unfold sumZ. induction l1 as [| a l1 IH]; cbn [app fold_right]; [reflexivity |].
  rewrite IH. lia.
Qed.

Lemma sumZ_map_add {A} (f g : A -> Z) l :
  sumZ (map (fun i => f i + g i) l) = sumZ (map f l) + sumZ (map g l).
Proof.
  unfold sumZ. induction l as [| a l IH]; cbn [map fold_right]; [reflexivity |].
  rewrite IH. lia.
Qed.

(** One bone end is counted once among the joints it is a position of. *)
Lemma sumZ_indicator n j :
  sumZ (map (fun i => if (j =? i)%nat then 1 else 0) (seq 0 n))
  = if (j <? n)%nat then 1 else 0.
Proof.
  induction n as [| n IH]; [reflexivity |].
  rewrite seq_S, map_app, sumZ_app, IH. cbn [map Nat.add sumZ fold_right].
  destruct (Nat.ltb_spec j n); destruct (Nat.eqb_spec j n);
    destruct (Nat.ltb_spec j (S n)); lia.
Qed.

(** Every bone is counted twice: once at each end. *)
Lemma sumZ_degree n bs :
  (forall b, In b bs -> (Bone.from b < n)%nat /\ (Bone.to b < n)%nat) ->
  sumZ (map (degree bs) (seq 0 n)) = 2 * len bs.
Proof.
  induction bs as [| b bs IH]; intros Hends.
  - unfold len. cbn [degree List.length]. unfold sumZ.
    induction (seq 0 n) as [| a l IHl]; cbn [map fold_right]; [reflexivity |].
    rewrite IHl. reflexivity.
  - cbn [degree].
    rewrite (sumZ_map_add
               (fun i => (if (Bone.from b =? i)%nat then 1 else 0)
                         + (if (Bone.to b =? i)%nat then 1 else 0))
               (degree bs)).
    rewrite (sumZ_map_add
               (fun i => if (Bone.from b =? i)%nat then 1 else 0)
               (fun i => if (Bone.to b =? i)%nat then 1 else 0)).
    rewrite !sumZ_indicator, IH by (intros b' Hb'; apply Hends; right; exact Hb').
    destruct (Hends b (or_introl eq_refl)) as [Hf Ht].
    apply Nat.ltb_lt in Hf, Ht. rewrite Hf, Ht.
    unfold len. cbn [List.length]. lia.
Qed.

(** [connectivity[j] += 1] on a position of the list. *)
Lemma bump_spec c j :
  (j < List.length c)%nat ->
  exists c',
    bump c j = Ok c'
    /\ List.length c' = List.length c
    /\ forall i v, nth_error c i = Some v ->
         nth_error c' i = Some (v + (if (j =? i)%nat then 1 else 0)).
Proof.
  intros Hj. unfold bump.
  destruct (index_ok c j Hj) as [v0 [Ev Hv]]. rewrite Ev.
  unfold res_bind, list_assign.
  destruct (Nat.ltb_spec j (List.length c)); [| lia].
  eexists. split; [reflexivity |]. split; [apply length_list_set |].
  intros i v Hi. rewrite nth_error_list_set.
  destruct (Nat.eqb_spec i j) as [-> | Hne].
  - destruct (Nat.ltb_spec j (List.length c)); [| lia].
    rewrite Nat.eqb_refl. congruence.
  - destruct (Nat.eqb_spec j i); [congruence |]. rewrite Hi. f_equal. lia.
Qed.

(** The counters after the loop over the bones: the degrees. *)
Lemma count_degrees_exact n bs :
  (forall b, In b bs -> (Bone.from b < n)%nat /\ (Bone.to b < n)%nat) ->
  exists connectivity,
    count_degrees n bs = Ok connectivity
    /\ List.length connectivity = n
    /\ forall i, (i < n)%nat -> nth_error connectivity i = Some (degree bs i).
Proof.
  intros Hends. unfold count_degrees.
  destruct (for_res_invariant
              (fun connectivity bone =>
                 (connectivity <- bump connectivity (Bone.from bone) ;;
                  bump connectivity (Bone.to bone))%res)
              (fun k c => List.length c = n
                          /\ forall i, (i < n)%nat ->
                               nth_error c i = Some (degree (firstn k bs) i))
              bs (repeat 0 n)) as [c [E [Hl H]]].
  - split; [apply repeat_length |]. intros i Hi. cbn [firstn degree].
    apply nth_error_repeat. exact Hi.
  - intros k b c Hk [Hc Hd].
    destruct (Hends b (nth_error_In _ _ Hk)) as [Hf Ht].
    destruct (bump_spec c (Bone.from b) ltac:(lia)) as (c1 & E1 & L1 & N1).
    destruct (bump_spec c1 (Bone.to b) ltac:(lia)) as (c2 & E2 & L2 & N2).
    exists c2. rewrite E1. unfold res_bind. split; [exact E2 |].
    split; [lia |]. intros i Hi.
    rewrite (firstn_succ_snoc bs k b Hk), degree_app. cbn [degree].
    rewrite (N2 i _ (N1 i _ (Hd i Hi))). f_equal. lia.
  - rewrite firstn_all in H. exists c. auto.
Qed.

(** The joints: each point with its degree and the type of its degree. *)
Lemma make_joints_exact bs subset connectivity :
  (forall i, (i < List.length subset)%nat ->
             nth_error connectivity i = Some (degree bs i)) ->
  make_joints subset connectivity
  = Ok (map (fun ip => joint_of bs (fst ip) (snd ip))
            (combine (seq 0 (List.length subset)) subset)).
Proof.
  intros Hc. unfold make_joints.
  set (ips := combine (seq 0 (List.length subset)) subset).
  destruct (for_res_invariant
              (fun joints ipt =>
                 (c <- index connectivity (fst ipt) ;;
                  Ok (joints ++ [ {| Joint.point := snd ipt;
                                     Joint.joint_type := Some (classify c);
                                     Joint.connectivity := Some c |} ]))%res)
              (fun k js => js = map (fun ip => joint_of bs (fst ip) (snd ip))
                                    (firstn k ips))
              ips []) as [js [E H]].
  - reflexivity.
  - intros k [i p] js Hk Hjs.
    pose proof Hk as Hk'. apply nth_error_combine_seq in Hk'.
    destruct Hk' as [-> Hp]. cbn [fst snd].
    assert (Hkn : (k < List.length subset)%nat)
      by (apply nth_error_Some; congruence).
    unfold index. rewrite (Hc k Hkn). unfold res_bind.
    eexists. split; [reflexivity |].
    rewrite (firstn_succ_snoc ips k (k, p) Hk), map_app, Hjs. reflexivity.
  - rewrite firstn_all in H. rewrite E, H. reflexivity.
Qed.

End DegreeFacts.

Section SkeletonShape.
Context {L : Libm}.

(** Everything between the two [print]s of Layer 2, when it returns. *)
Lemma layer_2_build_returned rng points sk :
  (2 <= List.length points)%nat ->
  layer_2_build rng points = Ok sk ->
  let subset := firstn 256 points in
  (exists in_tree,
     tree_so_far (List.length subset) (List.length subset - 1) in_tree (bones sk))
  /\ (forall b, In b (bones sk) ->
        (Bone.from b < List.length subset)%nat
        /\ (Bone.to b < List.length subset)%nat)
  /\ joints sk = map (fun ip => joint_of (bones sk) (fst ip) (snd ip))
                     (combine (seq 0 (List.length subset)) subset).
Proof.
  intros Hn E subset. unfold layer_2_build in E. fold subset in E.
  assert (Hn' : (2 <= List.length subset)%nat).
  { unfold subset. rewrite length_firstn. lia. }
  unfold list_assign in E. rewrite repeat_length in E.
  destruct (Nat.ltb_spec 0 (List.length subset)); [| lia].
  unfold res_bind in E at 1.
  destruct (for_res (seq 0 (List.length subset - 1))
              (prim_round subset (List.length subset))
              (rng, list_set (repeat false (List.length subset)) 0 true, []))
    as [[[rng' in_tree] bs] | e] eqn:Er; [| discriminate].
  unfold res_bind in E at 1.
  pose proof (prim_rounds_kept subset rng _ _ ltac:(lia) Er) as Ht.
  cbn [fst snd] in Ht.
  assert (Hends : forall b, In b bs ->
            (Bone.from b < List.length subset)%nat
            /\ (Bone.to b < List.length subset)%nat).
  { destruct Ht as (Hlen & _ & _ & _ & Hin & Hfrom & _).
    intros b Hb. split; rewrite <- Hlen; apply nth_error_Some.
    - rewrite (Hfrom b Hb). discriminate.
    - rewrite (proj2 (Hin (Bone.to b))) by (right; exists b; auto).
      discriminate. }
  destruct (count_degrees_exact (List.length subset) bs Hends)
    as (c & Ec & Hc & Hd).
  rewrite Ec in E. unfold res_bind in E at 1.
  rewrite (make_joints_exact bs subset c Hd) in E. unfold res_bind in E.
  injection E as <-. cbn [bones joints].
  split; [exists in_tree; exact Ht | split; [exact Hends | reflexivity]].
Qed.

Lemma layer_2_returned config points w sk w' :
  layer_2_skeleton_topology config points w = (Ok sk, w') ->
  if len points <? 2 then sk = {| joints := map as_joint points; bones := [] |}
  else exists rng, layer_2_build rng points = Ok sk.
Proof.
  unfold layer_2_skeleton_topology, bind, lift, print, ret. intros E.
  destruct (dict_get (layer_seeds config) 2) as [seed | e]; [| discriminate].
  destruct (len points <? 2).
  - injection E as <- _. reflexivity.
  - destruct (layer_2_build (SeededRNG_init seed) points) as [sk0 | e] eqn:Eb;
      [| discriminate].
    injection E as <- _. exists (SeededRNG_init seed). exact Eb.
Qed.

Lemma length_joints_of bs subset :
  List.length (map (fun ip : nat * Point.t => joint_of bs (fst ip) (snd ip))
                   (combine (seq 0 (List.length subset)) subset))
  = List.length subset.
Proof. rewrite length_map. apply length_combine_seq. Qed.

End SkeletonShape.

(** X13. Whenever Layer 2 returns: with fewer than 2 points the joints
    are the points as they came, without a type, and there is no bone;
    otherwise the joints are the first 256 points, in order, each with
    its connectivity, which is the number of bone ends at its position,
    and with the type of that number ("leaf" up to 1, "branch" up to 3,
    "hub" above); the connectivities add up to twice the number of
    bones. *)
Theorem skeleton_joints_annotated :
  forall (L : Libm) (config : GenerationConfig) (points : list Point.t)
         (w : World) (sk : Skeleton) (w' : World),
    layer_2_skeleton_topology config points w = (Ok sk, w') ->
    let subset := firstn 256 points in
    (len points < 2 ->
       sk = {| joints := map as_joint points; bones := [] |})
    /\ (2 <= len points ->
          joints sk
          = map (fun ip => joint_of (bones sk) (fst ip) (snd ip))
                (combine (seq 0 (List.length subset)) subset)
          /\ sumZ (map (degree (bones sk)) (seq 0 (List.length subset)))
             = 2 * len (bones sk)).
Proof.
  intros L config points w sk w' E subset.
  apply layer_2_returned in E.
  destruct (Z.ltb_spec (len points) 2) as [Hlt | Hge].
  - split; [intros _; exact E | intros H; lia].
  - split; [intros H; lia | intros _].
    destruct E as [rng E].
    destruct (layer_2_build_returned rng points sk
                ltac:(unfold len in Hge; lia) E) as (_ & Hends & Hj).
    split; [exact Hj |]. apply sumZ_degree. exact Hends.
Qed.

Lemma skeleton_joints_annotated_witness :
  exists (sk : Skeleton) (w' : World),
    layer_2_skeleton_topology (L := sample_libm) sample_config sample_points []
    = (Ok sk, w')
    /\ let subset := firstn 256 sample_points in
       (len sample_points < 2 ->
          sk = {| joints := map as_joint sample_points; bones := [] |})
       /\ (2 <= len sample_points ->
             joints sk
             = map (fun ip => joint_of (bones sk) (fst ip) (snd ip))
                   (combine (seq 0 (List.length subset)) subset)
             /\ sumZ (map (degree (bones sk)) (seq 0 (List.length subset)))
                = 2 * len (bones sk)).
Proof.
  eexists. eexists. split.
  - vm_compute. reflexivity.
  - eapply (skeleton_joints_annotated sample_libm sample_config sample_points []).
    vm_compute. reflexivity.
Defined.

(** X14. Whenever Layer 2 returns, and whatever the distances, its bones
    are a tree rooted at joint 0: there are at most [n - 1] of them for
    the [n] joints, their ends are positions of the joint list, they form
    no cycle, every end is joined to joint 0 by a path of bones, and they
    come parent first: each bone hangs a joint that is neither joint 0
    nor hung already, from joint 0 or from a joint hung by an earlier
    bone. *)
Theorem skeleton_is_rooted_tree :
  forall (L : Libm) (config : GenerationConfig) (points : list Point.t)
         (w : World) (sk : Skeleton) (w' : World),
    layer_2_skeleton_topology config points w = (Ok sk, w') ->
    let n := List.length (firstn 256 points) in
    List.length (joints sk) = n
    /\ (List.length (bones sk) <= n - 1)%nat
    /\ (forall b, In b (bones sk) ->
          (Bone.from b < n)%nat /\ (Bone.to b < n)%nat)
    /\ acyclic (bones sk)
    /\ (forall b, In b (bones sk) ->
          linked (bones sk) 0%nat (Bone.from b)
          /\ linked (bones sk) 0%nat (Bone.to b))
    /\ rooted (bones sk).
Proof.
  intros L config points w sk w' E n.
  apply layer_2_returned in E.
  destruct (Z.ltb_spec (len points) 2) as [Hlt | Hge].
  - subst sk. cbn [joints bones]. unfold n.
    rewrite length_map, firstn_all2 by (unfold len in Hlt; lia).
    split; [reflexivity |]. split; [cbn; lia |].
    split; [intros b [] |]. split; [apply acyclic_nil |].
    split; [intros b [] | apply rooted_nil].
  - destruct E as [rng E].
    destruct (layer_2_build_returned rng points sk
                ltac:(unfold len in Hge; lia) E) as ([in_tree Ht] & Hends & Hj).
    destruct Ht as (Hlen & _ & _ & Hk & Hin & Hfrom & Hlink & Hac & Hrt).
    fold n in Hlen, Hk, Hends, Hj.
    split; [rewrite Hj; apply length_joints_of |].
    split; [exact Hk |]. split; [exact Hends |]. split; [exact Hac |].
    split; [| exact Hrt].
    intros b Hb. split; apply Hlink.
    + apply Hfrom, Hb.
    + apply Hin. right. exists b. auto.
Qed.

Lemma skeleton_is_rooted_tree_witness :
  exists (sk : Skeleton) (w' : World),
    layer_2_skeleton_topology (L := sample_libm) sample_config sample_points []
    = (Ok sk, w')
    /\ let n := List.length (firstn 256 sample_points) in
       List.length (joints sk) = n
       /\ (List.length (bones sk) <= n - 1)%nat
       /\ (forall b, In b (bones sk) ->
             (Bone.from b < n)%nat /\ (Bone.to b < n)%nat)
       /\ acyclic (bones sk)
       /\ (forall b, In b (bones sk) ->
             linked (bones sk) 0%nat (Bone.from b)
             /\ linked (bones sk) 0%nat (Bone.to b))
       /\ rooted (bones sk).
Proof.
  eexists. eexists. split.
  - vm_compute. reflexivity.
  - eapply (skeleton_is_rooted_tree sample_libm sample_config sample_points []).
    vm_compute. reflexivity.
Defined.

(** ** The result record of a run *)

Section RunFacts.
Context {L : Libm}.

Lemma bind_returned {A B} (c : Py A) (k : A -> Py B) w r :
  outcome (bind c k w) = Ok r ->
  exists a w1, c w = (Ok a, w1) /\ outcome (k a w1) = Ok r.
Proof.
  unfold outcome, bind. destruct (c w) as [[a | e] w1]; cbn [fst]; intros H.
  - exists a, w1. split; [reflexivity | exact H].
  - discriminate.
Qed.

Lemma layer_5_returned config mesh assets w scene w' :
  layer_5_world_integration config mesh assets w = (Ok scene, w') ->
  len (scene_graph scene) = 2
  /\ len (interaction_zones scene)
     = (if String.eqb (content_type config) "creature" then 2 else 0)
  /\ export_format scene = "fbx"%string.
Proof.
  unfold layer_5_world_integration, bind, lift, print, ret. intros E.
  destruct (dict_get (layer_seeds config) 5) as [seed | e]; [| discriminate].
  destruct (layer_5_build config (SeededRNG_init seed) mesh assets)
    as [[sc lods] | e] eqn:Eb; [| discriminate].
  injection E as <- _. unfold layer_5_build in Eb.
  destruct (chunk_coords config) as [[cx cy] cz].
  destruct (for_res (range 3) (lod (len (vertices mesh)) (triangle_count mesh)) [])
    as [ls | e]; [| discriminate].
  unfold res_bind in Eb. injection Eb as <- _.
  cbn [scene_graph interaction_zones export_format].
  split; [reflexivity |]. split; [| reflexivity].
  destruct (String.eqb (content_type config) "creature"); [| reflexivity].
  destruct (next_range (SeededRNG_init seed) 10 30) as [r1 rng1].
  destruct (next_range rng1 3 8) as [r2 rng2]. reflexivity.
Qed.

(** Every bone of a skeleton Layer 2 returned passes the bound check. *)
Lemma layer_2_bones_in_range config points w sk w' :
  layer_2_skeleton_topology config points w = (Ok sk, w') ->
  len (joints sk) = Z.min (len points) 256
  /\ len (bones sk) <= Z.max 0 (len (joints sk) - 1)
  /\ in_range_bones sk = len (bones sk).
Proof.
  intros E. apply layer_2_returned in E.
  destruct (Z.ltb_spec (len points) 2) as [Hlt | Hge].
  - subst sk. unfold in_range_bones, len in *. cbn [joints bones filter List.length].
    rewrite length_map. lia.
  - destruct E as [rng E].
    destruct (layer_2_build_returned rng points sk
                ltac:(unfold len in Hge; lia) E) as ([in_tree Ht] & Hends & Hj).
    destruct Ht as (_ & _ & _ & Hk & _).
    assert (Hl : List.length (joints sk) = List.length (firstn 256 points))
      by (rewrite Hj; apply length_joints_of).
    rewrite length_firstn in Hl.
    split; [unfold len; lia |]. split.
    + unfold len. rewrite Hl. rewrite length_firstn in Hk. lia.
    + unfold in_range_bones. f_equal.
      assert (Hall : forall b, In b (bones sk) ->
                       bone_in_range (joints sk) b = true).
      { intros b Hb. destruct (Hends b Hb) as [Hf Ht]. unfold bone_in_range.
        rewrite length_firstn in Hf, Ht.
        apply andb_true_intro. split; apply Nat.ltb_lt; lia. }
      clear - Hall. induction (bones sk) as [| b bs IH]; [reflexivity |].
      cbn [filter]. rewrite (Hall b (or_introl eq_refl)). cbn [List.length].
      rewrite IH; [reflexivity |]. intros b' Hb'. apply Hall. right. exact Hb'.
Qed.

(** The counts of the record of a run that returned. *)
Lemma run_pipeline_returned ms ct d cc fmt w r :
  outcome (run_pipeline ms ct d cc fmt w) = Ok r ->
  (master_seed (res_config r) = ms /\ content_type (res_config r) = ct
   /\ density (res_config r) = d /\ chunk_coords (res_config r) = cc)
  /\ res_skeleton_joints r = Z.min (res_points r) 256
  /\ res_skeleton_bones r <= Z.max 0 (res_skeleton_joints r - 1)
  /\ res_mesh_vertices r = 56 * res_skeleton_bones r
  /\ res_mesh_triangles r = 96 * res_skeleton_bones r
  /\ res_assets_textures r = 1
  /\ res_assets_rig_joints r = res_skeleton_bones r
  /\ res_assets_animations r = 2
  /\ res_scene_nodes r = 2
  /\ res_scene_interaction_zones r
     = (if String.eqb ct "creature" then 2 else 0)
  /\ res_scene_export_format r = "fbx"%string
  /\ res_output_format r = fmt.
Proof.
  intros E. unfold run_pipeline in E. rewrite !bind_print in E.
  destruct (GenerationConfig_init_ok ms ct d cc)
    as (config & Einit & Hwf & Hms & Hct & Hd & Hcc & _).
  rewrite Einit, bind_lift_ok, bind_print in E.
  apply bind_returned in E. destruct E as (points & w1 & E1 & E).
  apply bind_returned in E. destruct E as (sk & w2 & E2 & E).
  apply bind_returned in E. destruct E as (mesh & w3 & E3 & E).
  apply bind_returned in E. destruct E as (assets & w4 & E4 & E).
  apply bind_returned in E. destruct E as (scene & w5 & E5 & E).
  rewrite !bind_print in E. unfold ret, outcome in E. cbn [fst] in E.
  injection E as <-.
  cbn [res_config res_points res_skeleton_joints res_skeleton_bones
       res_mesh_vertices res_mesh_triangles res_assets_textures
       res_assets_rig_joints res_assets_animations res_scene_nodes
       res_scene_interaction_zones res_scene_export_format res_output_format].
  destruct (layer_2_bones_in_range config points w1 sk w2 E2) as (Hj & Hb & Hr).
  destruct (layer_3_runs config sk w2 Hwf) as (seed3 & mesh0 & w3' & _ & Eb3 & E3').
  rewrite E3' in E3. injection E3 as -> _.
  destruct (layer_3_build_ok (SeededRNG_init seed3) sk)
    as (mesh1 & Eb3' & HV & _ & _ & _ & _ & HT).
  rewrite Eb3 in Eb3'. injection Eb3' as <-.
  destruct (well_formed_seed config 4 Hwf ltac:(lia)) as [seed4 Es4].
  destruct (layer_4_build_ok config (SeededRNG_init seed4) sk)
    as (assets0 & texture & idle & walk & Eb4 & Htex & _ & _ & _ & _ & _
        & Hjc & _ & Han & _).
  assert (E4' : layer_4_assets_animation config mesh sk w3
                = (Ok assets0, snd (layer_4_assets_animation config mesh sk w3))).
  { unfold layer_4_assets_animation, bind, lift, print, ret.
    rewrite Es4, Eb4. reflexivity. }
  rewrite E4 in E4'. injection E4' as ->.
  destruct (layer_5_returned config mesh assets0 w4 scene w5 E5)
    as (Hn & Hz & Hf).
  rewrite Hct in Hz.
  repeat split; try assumption.
  - rewrite HV, Hr. reflexivity.
  - rewrite HT, Hr. reflexivity.
  - rewrite Htex. reflexivity.
  - rewrite Han. reflexivity.
Qed.

End RunFacts.

(** X15. The record of every run that returns: the configuration holds
    the arguments; the skeleton has one joint per point, 256 at most, and
    fewer bones than joints; every bone passes the bound check of Layer 3,
    so the mesh has 56 vertices and 96 triangles per bone and the rig one
    joint per bone; there are one texture, two animations and two scene
    nodes, two interaction zones for a creature and none otherwise; and
    the export format of the scene is "fbx" whatever [output_format] is,
    which the record only repeats. *)
Theorem run_pipeline_counts :
  forall (L : Libm) (master_seed_arg : Z) (content_type_arg : string)
         (density_arg : float) (chunk_coords_arg : Z * Z * Z)
         (output_format : string) (w : World) (r : Result),
    outcome (run_pipeline master_seed_arg content_type_arg density_arg
                          chunk_coords_arg output_format w) = Ok r ->
    (master_seed (res_config r) = master_seed_arg
     /\ content_type (res_config r) = content_type_arg
     /\ density (res_config r) = density_arg
     /\ chunk_coords (res_config r) = chunk_coords_arg)
    /\ res_skeleton_joints r = Z.min (res_points r) 256
    /\ res_skeleton_bones r <= Z.max 0 (res_skeleton_joints r - 1)
    /\ res_mesh_vertices r = 56 * res_skeleton_bones r
    /\ res_mesh_triangles r = 96 * res_skeleton_bones r
    /\ res_assets_textures r = 1
    /\ res_assets_rig_joints r = res_skeleton_bones r
    /\ res_assets_animations r = 2
    /\ res_scene_nodes r = 2
    /\ res_scene_interaction_zones r
       = (if String.eqb content_type_arg "creature" then 2 else 0)
    /\ res_scene_export_format r = "fbx"%string
    /\ res_output_format r = output_format.
Proof. intros. apply (run_pipeline_returned _ _ _ _ _ w). assumption. Qed.

Lemma run_pipeline_counts_witness :
  exists r : Result,
    outcome (run_pipeline (L := sample_libm) 42 "vegetation" 0.3 (1, -2, 3)
                          "gltf" []) = Ok r
    /\ (master_seed (res_config r) = 42
        /\ content_type (res_config r) = "vegetation"%string
        /\ density (res_config r) = 0.3%float
        /\ chunk_coords (res_config r) = (1, -2, 3))
    /\ res_skeleton_joints r = Z.min (res_points r) 256
    /\ res_skeleton_bones r <= Z.max 0 (res_skeleton_joints r - 1)
    /\ res_mesh_vertices r = 56 * res_skeleton_bones r
    /\ res_mesh_triangles r = 96 * res_skeleton_bones r
    /\ res_assets_textures r = 1
    /\ res_assets_rig_joints r = res_skeleton_bones r
    /\ res_assets_animations r = 2
    /\ res_scene_nodes r = 2
    /\ res_scene_interaction_zones r
       = (if String.eqb "vegetation" "creature" then 2 else 0)
    /\ res_scene_export_format r = "fbx"%string
    /\ res_output_format r = "gltf"%string.
Proof.
  eexists. split.
  - vm_compute. reflexivity.
  - eapply (run_pipeline_counts sample_libm 42 "vegetation" 0.3 (1, -2, 3)
              "gltf" []).
    vm_compute. reflexivity.
Defined.
